(** * The secure-element driver of the Passport firmware

    A shallow embedding of the single-wire driver for the secure element:
    the bit codec ([_send_bits], [deserialize]), the chained CRC-16
    ([se_crc16_chain]), the command and response framing with its retry loop
    ([se_write], [se_read_response], [check_crc], [se_read], [se_read1]) and
    the authentication protocols built on them ([se_pick_nonce],
    [se_gendig_slot], [se_checkmac], [se_pair_unlock],
    [se_encrypted_write32], [se_encrypted_write]); followed by the
    properties the specification states about them.

    Conventions.  A C [uint8_t], [uint16_t] or [uint32_t] is a [Z] kept in
    range by an explicit reduction ([u8], [u16], [u32]) at every place where
    the C code stores into such a variable.  A C [int] that only ever holds a
    small index or length is a plain [Z].  A byte buffer is a [list Z]; a
    function that stores through a pointer returns the new contents of the
    buffer.  Busy-waits and delays bound the time an operation takes and
    leave no trace in the state. *)

From Stdlib Require Import ZArith List Lia Bool.
Import ListNotations.
Local Open Scope Z_scope.

(** ** Machine integers and buffers *)

Definition u8 (x : Z) : Z := x mod 256.
Definition u16 (x : Z) : Z := x mod 65536.
Definition u32 (x : Z) : Z := x mod 4294967296.

Definition is_byte (x : Z) : Prop := 0 <= x < 256.
Definition bytes (l : list Z) : Prop := Forall is_byte l.

Definition lenZ (l : list Z) : Z := Z.of_nat (length l).

(** [buf[i]]; 0 outside the list, where the C code would read past the
    buffer.  The properties are stated where it stays inside. *)
Definition rd (buf : list Z) (i : Z) : Z := nth (Z.to_nat i) buf 0.

(** [buf + i] *)
Definition offs (buf : list Z) (i : Z) : list Z := skipn (Z.to_nat i) buf.

(** [memcpy(dst, src, n)] as the new contents of [dst]. *)
Definition memcpy (dst src : list Z) (n : Z) : list Z :=
  firstn (Z.to_nat n) src ++ skipn (Z.to_nat n) dst.

(** [uint8_t name[n] = { 0 }] *)
Definition zeros (n : nat) : list Z := repeat 0 n.

(** [uint8_t name[n]] without an initialiser.  Its contents are unspecified;
    the driver stores such an array before it reads it, and the model starts
    it out as zeros. *)
Definition uninit (n : nat) : list Z := repeat 0 n.

(** ** CRC16Chain *)

Module CRC.

Definition polynom : Z := 0x8005.

(** The body of the inner loop, for one value of [shift_register]. *)
Definition crc_step (data_byte shift_register crc_register : Z) : Z :=
  let data_bit := if Z.land data_byte shift_register =? 0 then 0 else 1 in
  let crc_bit := Z.shiftr crc_register 15 in
  let crc_register := u16 (Z.shiftl crc_register 1) in
  if negb (Z.lxor data_bit crc_bit =? 0)
  then u16 (Z.lxor crc_register polynom)
  else crc_register.

(** [for (shift_register = 0x01; shift_register > 0x00; shift_register <<= 1)] *)
Fixpoint crc_bits (fuel : nat) (shift_register data_byte crc_register : Z) : Z :=
  match fuel with
  | O => crc_register
  | S fuel' =>
      if 0 <? shift_register
      then crc_bits fuel' (u8 (Z.shiftl shift_register 1)) data_byte
                    (crc_step data_byte shift_register crc_register)
      else crc_register
  end.

(** [for (counter = 0; counter < length; counter++)] *)
Fixpoint crc_bytes (fuel : nat) (counter length : Z) (data : list Z)
                   (crc_register : Z) : Z :=
  match fuel with
  | O => crc_register
  | S fuel' =>
      if counter <? length
      then crc_bytes fuel' (u8 (counter + 1)) length data
                     (crc_bits 9 0x01 (rd data counter) crc_register)
      else crc_register
  end.

(** [void se_crc16_chain(uint8_t length, const uint8_t *data, uint8_t crc[2])],
    returning the new contents of [crc]. *)
Definition se_crc16_chain (length : Z) (data : list Z) (crc : list Z) : list Z :=
  let length := u8 length in
  let crc_register :=
    u16 (Z.lor (Z.land (rd crc 0) 0x00FF) (Z.shiftl (rd crc 1) 8)) in
  let crc_register := crc_bytes 256 0 length data crc_register in
  [ u8 (Z.land crc_register 0x00FF); u8 (Z.shiftr crc_register 8) ].

End CRC.

(** ** Collaborators declared outside this file *)

(** Modelled from the spec: [se.h] is not among the sources.  It declares the
    chip's command codes ([seopcode_t], one byte each on the wire) and the
    number of the pairing key slot; both are parameters of the model. *)
Class se_h : Type := {
  OP_Read : Z;
  OP_Write : Z;
  OP_Nonce : Z;
  OP_GenDig : Z;
  OP_MAC : Z;
  OP_CheckMac : Z;
  OP_Info : Z;
  KEYNUM_pairing : Z;
  seopcode_byte :
    Forall is_byte [OP_Read; OP_Write; OP_Nonce; OP_GenDig; OP_MAC; OP_CheckMac; OP_Info]
}.

(** Modelled from the spec: [sha256.h] is not among the sources.  The hash
    primitive is a streaming SHA-256 (init / update / final) producing a
    32-byte digest.  The digest function is a parameter; a context is
    modelled by the bytes absorbed so far. *)
Class sha256_h : Type := {
  SHA256 : list Z -> list Z;
  SHA256_length : forall m, length (SHA256 m) = 32%nat;
  SHA256_bytes : forall m, bytes (SHA256 m)
}.

Definition SHA256_CTX : Type := list Z.

Definition sha256_init : SHA256_CTX := [].

Definition sha256_update (ctx : SHA256_CTX) (data : list Z) (n : Z) : SHA256_CTX :=
  ctx ++ firstn (Z.to_nat n) data.

Definition sha256_final `{sha256_h} (ctx : SHA256_CTX) : list Z := SHA256 ctx.

(** Modelled from the spec: [secrets.h] is not among the sources.  The secret
    store exposes the 32-byte pairing secret, read-only. *)
Class secrets_h : Type := {
  pairing_secret : list Z;
  pairing_secret_length : length pairing_secret = 32%nat
}.

(** ** The driver's state

    The file-level counters and [current_opcode], together with the three
    things the driver touches outside itself: the bytes it has put into the
    UART transmit register, what the line is going to deliver, and what the
    random source is going to return. *)

Record state : Type := mkState {
  crc_errors : Z;
  not_ready_n : Z;
  short_error : Z;
  len_error : Z;
  len_error_two : Z;
  ln_retry : Z;
  retry_out : Z;
  wdgtimeout : Z;
  rtof : Z;
  rxne : Z;
  notrxne : Z;
  current_opcode : Z;
  (** every value stored into [MY_UART->TDR], oldest first *)
  uart_tdr : list Z;
  (** what [MY_UART->RDR] will deliver: each element is a run of raw bytes
      that arrive back to back and are followed by a receiver timeout *)
  uart_rx : list (list Z);
  (** the bytes [rng_buffer] will hand out, oldest first *)
  rng_tape : list Z
}.

Definition set_crc_errors (v : Z) (s : state) : state :=
  mkState v (not_ready_n s) (short_error s) (len_error s) (len_error_two s)
    (ln_retry s) (retry_out s) (wdgtimeout s) (rtof s) (rxne s) (notrxne s)
    (current_opcode s) (uart_tdr s) (uart_rx s) (rng_tape s).

Definition set_not_ready_n (v : Z) (s : state) : state :=
  mkState (crc_errors s) v (short_error s) (len_error s) (len_error_two s)
    (ln_retry s) (retry_out s) (wdgtimeout s) (rtof s) (rxne s) (notrxne s)
    (current_opcode s) (uart_tdr s) (uart_rx s) (rng_tape s).

Definition set_short_error (v : Z) (s : state) : state :=
  mkState (crc_errors s) (not_ready_n s) v (len_error s) (len_error_two s)
    (ln_retry s) (retry_out s) (wdgtimeout s) (rtof s) (rxne s) (notrxne s)
    (current_opcode s) (uart_tdr s) (uart_rx s) (rng_tape s).

Definition set_len_error (v : Z) (s : state) : state :=
  mkState (crc_errors s) (not_ready_n s) (short_error s) v (len_error_two s)
    (ln_retry s) (retry_out s) (wdgtimeout s) (rtof s) (rxne s) (notrxne s)
    (current_opcode s) (uart_tdr s) (uart_rx s) (rng_tape s).

Definition set_len_error_two (v : Z) (s : state) : state :=
  mkState (crc_errors s) (not_ready_n s) (short_error s) (len_error s) v
    (ln_retry s) (retry_out s) (wdgtimeout s) (rtof s) (rxne s) (notrxne s)
    (current_opcode s) (uart_tdr s) (uart_rx s) (rng_tape s).

Definition set_ln_retry (v : Z) (s : state) : state :=
  mkState (crc_errors s) (not_ready_n s) (short_error s) (len_error s)
    (len_error_two s) v (retry_out s) (wdgtimeout s) (rtof s) (rxne s)
    (notrxne s) (current_opcode s) (uart_tdr s) (uart_rx s) (rng_tape s).

Definition set_retry_out (v : Z) (s : state) : state :=
  mkState (crc_errors s) (not_ready_n s) (short_error s) (len_error s)
    (len_error_two s) (ln_retry s) v (wdgtimeout s) (rtof s) (rxne s)
    (notrxne s) (current_opcode s) (uart_tdr s) (uart_rx s) (rng_tape s).

Definition set_wdgtimeout (v : Z) (s : state) : state :=
  mkState (crc_errors s) (not_ready_n s) (short_error s) (len_error s)
    (len_error_two s) (ln_retry s) (retry_out s) v (rtof s) (rxne s)
    (notrxne s) (current_opcode s) (uart_tdr s) (uart_rx s) (rng_tape s).

Definition set_rtof (v : Z) (s : state) : state :=
  mkState (crc_errors s) (not_ready_n s) (short_error s) (len_error s)
    (len_error_two s) (ln_retry s) (retry_out s) (wdgtimeout s) v (rxne s)
    (notrxne s) (current_opcode s) (uart_tdr s) (uart_rx s) (rng_tape s).

Definition set_rxne (v : Z) (s : state) : state :=
  mkState (crc_errors s) (not_ready_n s) (short_error s) (len_error s)
    (len_error_two s) (ln_retry s) (retry_out s) (wdgtimeout s) (rtof s) v
    (notrxne s) (current_opcode s) (uart_tdr s) (uart_rx s) (rng_tape s).

Definition set_notrxne (v : Z) (s : state) : state :=
  mkState (crc_errors s) (not_ready_n s) (short_error s) (len_error s)
    (len_error_two s) (ln_retry s) (retry_out s) (wdgtimeout s) (rtof s)
    (rxne s) v (current_opcode s) (uart_tdr s) (uart_rx s) (rng_tape s).

Definition set_current_opcode (v : Z) (s : state) : state :=
  mkState (crc_errors s) (not_ready_n s) (short_error s) (len_error s)
    (len_error_two s) (ln_retry s) (retry_out s) (wdgtimeout s) (rtof s)
    (rxne s) (notrxne s) v (uart_tdr s) (uart_rx s) (rng_tape s).

Definition set_uart_tdr (v : list Z) (s : state) : state :=
  mkState (crc_errors s) (not_ready_n s) (short_error s) (len_error s)
    (len_error_two s) (ln_retry s) (retry_out s) (wdgtimeout s) (rtof s)
    (rxne s) (notrxne s) (current_opcode s) v (uart_rx s) (rng_tape s).

Definition set_uart_rx (v : list (list Z)) (s : state) : state :=
  mkState (crc_errors s) (not_ready_n s) (short_error s) (len_error s)
    (len_error_two s) (ln_retry s) (retry_out s) (wdgtimeout s) (rtof s)
    (rxne s) (notrxne s) (current_opcode s) (uart_tdr s) v (rng_tape s).

Definition set_rng_tape (v : list Z) (s : state) : state :=
  mkState (crc_errors s) (not_ready_n s) (short_error s) (len_error s)
    (len_error_two s) (ln_retry s) (retry_out s) (wdgtimeout s) (rtof s)
    (rxne s) (notrxne s) (current_opcode s) (uart_tdr s) (uart_rx s) v.

(** ** A state monad with undefined behaviour

    A driver function is a function of the state that either yields a value
    and the next state, or [None] where the C code would run off a buffer. *)

Definition M (A : Type) : Type := state -> option (A * state).

Definition ret {A : Type} (a : A) : M A := fun s => Some (a, s).

Definition bind {A B : Type} (m : M A) (k : A -> M B) : M B :=
  fun s => match m s with
           | Some (a, s') => k a s'
           | None => None
           end.

Definition undefined {A : Type} : M A := fun _ => None.

Definition gets {A : Type} (f : state -> A) : M A := fun s => Some (f s, s).

Definition modify (f : state -> state) : M unit := fun s => Some (tt, f s).

Declare Scope drv_scope.
Delimit Scope drv_scope with drv.
Notation "x <- m ;; k" := (bind m (fun x => k))
  (at level 61, m at next level, right associativity) : drv_scope.
Notation "' pat <- m ;; k" := (bind m (fun x => match x with pat => k end))
  (at level 61, pat pattern, m at next level, right associativity) : drv_scope.
Notation "m ;; k" := (bind m (fun _ => k))
  (at level 61, right associativity) : drv_scope.
Local Open Scope drv_scope.

(** [++counter] on a [uint32_t] *)
Definition incr (get : state -> Z) (set : Z -> state -> state) : M unit :=
  modify (fun s => set (u32 (get s + 1)) s).

(** ** BitLink *)

Definition BIT0 : Z := 0x7d.
Definition BIT1 : Z := 0x7f.

Definition IOFLAG_CMD : Z := 0x77.
Definition IOFLAG_TX : Z := 0x88.
Definition IOFLAG_IDLE : Z := 0xBB.
Definition IOFLAG_SLEEP : Z := 0xCC.

(** [_send_byte]: the busy-wait only bounds the time spent; in every case
    the byte is then stored into the transmit register. *)
Definition _send_byte (ch : Z) : M unit :=
  modify (fun s => set_uart_tdr (uart_tdr s ++ [u8 ch]) s).

(** [for (int i=0; i<8; i++, mask <<= 1)] of [_send_bits], [n] passes left. *)
Fixpoint send_bits_loop (n : nat) (mask tx : Z) : M unit :=
  match n with
  | O => ret tt
  | S n' =>
      let h := if Z.land tx mask =? 0 then BIT0 else BIT1 in
      _send_byte h ;;
      send_bits_loop n' (u8 (Z.shiftl mask 1)) tx
  end.

Definition _send_bits (tx : Z) : M unit := send_bits_loop 8 0x1 (u8 tx).

(** [for (int i=0; i<len; i++)] of [_send_serialized], [n] passes left. *)
Fixpoint send_serialized_loop (n : nat) (i : Z) (buf : list Z) : M unit :=
  match n with
  | O => ret tt
  | S n' => _send_bits (rd buf i) ;; send_serialized_loop n' (i + 1) buf
  end.

Definition _send_serialized (buf : list Z) (len : Z) : M unit :=
  send_serialized_loop (Z.to_nat len) 0 buf.

(** [_read_byte]: one raw byte masked to 7 bits, or -1 on a timeout.  The end
    of a run is the receiver's own timeout (RTOF); a line that has nothing
    more to deliver at all ends in the failsafe timeout. *)
Definition _read_byte : M Z := fun s =>
  match uart_rx s with
  | [] => Some (-1, set_notrxne (u32 (notrxne s + 1)) s)
  | [] :: rest => Some (-1, set_rtof (u32 (rtof s + 1)) (set_uart_rx rest s))
  | (b :: run) :: rest =>
      Some (Z.land b 0x7f, set_rxne (u32 (rxne s + 1)) (set_uart_rx (run :: rest) s))
  end.

(** [for (int i=0; i<8; i++, mask <<= 1)] of [deserialize], [n] passes left. *)
Fixpoint deserialize_bits (n : nat) (i mask rv : Z) (from : list Z) : Z :=
  match n with
  | O => rv
  | S n' =>
      let rv := if Z.lxor (rd from i) 0x7F <? 2 then u8 (Z.lor rv mask) else rv in
      deserialize_bits n' (i + 1) (u8 (Z.shiftl mask 1)) rv from
  end.

(** [while (from_len > 0)] of [deserialize]: the bytes stored through
    [into], in order. *)
Fixpoint deserialize_loop (fuel : nat) (from : list Z) (from_len max_into : Z)
  : list Z :=
  match fuel with
  | O => []
  | S fuel' =>
      if 0 <? from_len then
        let rv := deserialize_bits 8 0 0x1 0 from in
        let max_into := max_into - 1 in
        rv :: (if max_into <=? 0 then []
               else deserialize_loop fuel' (offs from 8) (from_len - 8) max_into)
      else []
  end.

(** [deserialize], returning the new contents of [into]. *)
Definition deserialize (from : list Z) (from_len : Z) (into : list Z)
                       (max_into : Z) : list Z :=
  let out := deserialize_loop (Z.to_nat from_len) from from_len max_into in
  memcpy into out (lenZ out).

(** [_flush_rx]: waits for the transmitter, then drops what the receiver
    holds (the echo of what was just sent) and clears its flags.  [uart_rx]
    holds only what arrives afterwards, so nothing changes here. *)
Definition _flush_rx : M unit := ret tt.

(** ** FrameTransport *)

(** [for (uint8_t *p = raw; ; actual++)] of [se_read_response]; [raw] is the
    part of the array stored so far. *)
Fixpoint read_pulses (fuel : nat) (max_expect actual : Z) (raw : list Z)
  : M (Z * list Z) :=
  match fuel with
  | O => undefined
  | S fuel' =>
      ch <- _read_byte ;;
      if ch <? 0 then ret (actual, raw)
      else read_pulses fuel' max_expect (actual + 1)
             (if actual <? max_expect then raw ++ [u8 ch] else raw)
  end.

(** [se_read_response], returning the count and the new contents of [buf].
    The loop ends at the first timeout, so one pass more than the length of
    the run at the head of the line is enough. *)
Definition se_read_response (buf : list Z) (max_len : Z) : M (Z * list Z) :=
  let max_expect := (max_len + 1) * 8 in
  _send_bits IOFLAG_TX ;;
  _flush_rx ;;
  fuel <- gets (fun s => S (length (hd [] (uart_rx s)))) ;;
  '(actual, raw) <- read_pulses fuel max_expect 0 [] ;;
  let actual := Z.land actual (Z.lnot 7) in
  ret (actual / 8, deserialize raw actual buf max_len).

(** [check_crc]; [length] is converted to [uint8_t] on entry. *)
Definition check_crc (data : list Z) (length : Z) : bool :=
  let length := u8 length in
  let obs := [0; 0] in
  if negb (rd data 0 =? length) then false
  else
    let obs := CRC.se_crc16_chain (length - 2) data obs in
    (rd obs 0 =? rd data (length - 2)) && (rd obs 1 =? rd data (length - 1)).

(** [se_wake]: a zero byte, then a settle delay. *)
Definition se_wake : M Z :=
  _send_byte 0x00 ;;
  ret 0.

Definition se_sleep : M unit := _send_bits IOFLAG_SLEEP.

Definition se_idle : M unit := _send_bits IOFLAG_IDLE.

Definition se_keep_alive : M unit := se_idle.

Definition se_reset_chip : M unit := _send_bits IOFLAG_SLEEP.

(** [se_write].  The arguments are converted to the parameter types on
    entry.  The busy bar shown at the end belongs to the display and is left
    out. *)
Definition se_write (opcode p1 p2 : Z) (data : list Z) (data_len : Z) : M unit :=
  let p1 := u8 p1 in
  let p2 := u16 p2 in
  let data_len := u8 data_len in
  let known := [ IOFLAG_CMD;
                 u8 (data_len + 7);
                 u8 opcode;
                 p1;
                 u8 (Z.land p2 0xff);
                 u8 (Z.land (Z.shiftr p2 8) 0xff) ] in
  modify (set_current_opcode opcode) ;;
  se_wake ;;
  _send_serialized known 6 ;;
  let crc := [0; 0] in
  let crc := CRC.se_crc16_chain (6 - 1) (offs known 1) crc in
  if negb (data_len =? 0) then
    _send_serialized data data_len ;;
    let crc := CRC.se_crc16_chain data_len data crc in
    _send_serialized crc 2
  else
    _send_serialized crc 2.

(** How one pass of the retry loop of [se_read] ends: with a [return], or at
    the label [try_again]. *)
Inductive attempt : Type :=
| Return (rc : Z) (data : list Z)
| TryAgain.

Section Driver.
Context {seh : se_h} {sha : sha256_h} {secrets : secrets_h}.

(** The tail of the loop body, from [memcpy] to [return 0].  The copy takes
    [actual - 3] bytes from [tmp + 1], which holds [len + 2] of them, into the
    caller's buffer. *)
Definition se_read_deliver (len : Z) (data tmp : list Z) (actual : Z) : M attempt :=
  let n := actual - 3 in
  if (n <=? len + 2) && (n <=? lenZ data) then
    let data := memcpy data (offs tmp 1) n in
    _send_bits IOFLAG_IDLE ;;
    ret (Return 0 data)
  else undefined.

(** One pass of the loop body of [se_read]; [tmp] lives across passes. *)
Definition se_read_attempt (len : Z) (data tmp : list Z) : M (attempt * list Z) :=
  '(actual, tmp) <- se_read_response tmp (len + 3) ;;
  if actual <? 4 then
    (if actual =? 0 then incr not_ready_n set_not_ready_n
     else incr short_error set_short_error) ;;
    ret (TryAgain, tmp)
  else
    opcode <- gets current_opcode ;;
    if negb (opcode =? OP_Info) then
      let resp_len := rd tmp 0 in
      if negb (resp_len =? len + 3) then
        incr len_error set_len_error ;;
        if resp_len =? 4 then
          incr len_error_two set_len_error_two ;;
          (if rd tmp 1 =? 0xEE then incr wdgtimeout set_wdgtimeout else ret tt) ;;
          ret (Return (-1) data, tmp)
        else ret (TryAgain, tmp)
      else if negb (check_crc tmp actual) then
        incr crc_errors set_crc_errors ;;
        ret (TryAgain, tmp)
      else
        r <- se_read_deliver len data tmp actual ;;
        ret (r, tmp)
    else
      r <- se_read_deliver len data tmp actual ;;
      ret (r, tmp).

(** [for (retry=100; retry >= 0; retry--)] with [n = retry + 1] passes left,
    and what follows the loop. *)
Fixpoint se_read_loop (n : nat) (len : Z) (data tmp : list Z) : M (Z * list Z) :=
  match n with
  | O =>
      incr retry_out set_retry_out ;;
      ret (-1, data)
  | S n' =>
      '(r, tmp) <- se_read_attempt len data tmp ;;
      match r with
      | Return rc data => ret (rc, data)
      | TryAgain =>
          incr ln_retry set_ln_retry ;;
          se_read_loop n' len data tmp
      end
  end.

(** [int se_read(uint8_t *data, uint8_t len)], returning the result code and
    the new contents of [data].  [tmp] starts out unspecified; nothing is read
    from it before [se_read_response] has stored it. *)
Definition se_read (data : list Z) (len : Z) : M (Z * list Z) :=
  let len := u8 len in
  se_read_loop 101 len data (uninit (Z.to_nat (1 + len + 2))).

Definition se_read1 : M Z :=
  '(rc, data) <- se_read (uninit 1) 1 ;;
  if rc <? 0 then ret (-1)
  else ret (rd data 0).

(** ** AuthProtocol *)

(** Modelled from the spec: [pprng.h] is not among the sources.  The random
    source fills a buffer of the given length; here it hands out the next
    bytes of [rng_tape] (zeros once the tape has run out). *)
Definition rng_buffer (n : nat) : M (list Z) := fun s =>
  Some (firstn n (rng_tape s ++ zeros n), set_rng_tape (skipn n (rng_tape s)) s).

(** [se_pick_nonce], returning the result code and the new contents of
    [tempkey]. *)
Definition se_pick_nonce (num_in tempkey : list Z) : M (Z * list Z) :=
  se_write OP_Nonce 0 0 num_in 20 ;;
  '(rc, randout) <- se_read (uninit 32) 32 ;;
  se_sleep ;;
  if rc <? 0 then ret (-1, tempkey)
  else
    let ctx := sha256_init in
    let ctx := sha256_update ctx randout 32 in
    let ctx := sha256_update ctx num_in 20 in
    let fixed := [0x16; 0; 0] in
    let ctx := sha256_update ctx fixed 3 in
    let tempkey := memcpy tempkey (sha256_final ctx) 32 in
    ret (0, tempkey).

(** [se_gendig_slot], returning the result code and the new contents of
    [digest]. *)
Definition se_gendig_slot (slot_num : Z) (slot_contents digest : list Z)
  : M (Z * list Z) :=
  num_in <- rng_buffer 20 ;;
  '(rc, tempkey) <- se_pick_nonce num_in (uninit 32) ;;
  if rc <? 0 then ret (-1, digest)
  else
    se_write OP_GenDig 0x2 slot_num [] 0 ;;
    rc <- se_read1 ;;
    se_sleep ;;
    if negb (rc =? 0) then ret (-1, digest)
    else
      let ctx := sha256_init in
      let args := [ u8 OP_GenDig; 2; u8 slot_num; 0; 0xEE; 0x01; 0x23 ] in
      let zeros := zeros 25 in
      let ctx := sha256_update ctx slot_contents 32 in
      let ctx := sha256_update ctx args 7 in
      let ctx := sha256_update ctx zeros 25 in
      let ctx := sha256_update ctx tempkey 32 in
      let digest := memcpy digest (sha256_final ctx) 32 in
      ret (0, digest).

(** ["(C) 2020 Foundation Devices Inc."] and its terminating NUL *)
Definition copyright_msg : list Z :=
  [ 40; 67; 41; 32; 50; 48; 50; 48; 32; 70; 111; 117; 110; 100; 97; 116; 105;
    111; 110; 32; 68; 101; 118; 105; 99; 101; 115; 32; 73; 110; 99; 46; 0 ].

(** [se_checkmac]; [keynum] is converted to [uint8_t] on entry. *)
Definition se_checkmac (keynum : Z) (secret : list Z) : M Z :=
  let keynum := u8 keynum in
  od <- rng_buffer 32 ;;
  numin <- rng_buffer 20 ;;
  let zeros := zeros 8 in
  '(rc, tempkey) <- se_pick_nonce numin (uninit 32) ;;
  if rc <? 0 then ret (-1)
  else
    let ctx := sha256_init in
    let ctx := sha256_update ctx secret 32 in
    let ctx := sha256_update ctx tempkey 32 in
    let ctx := sha256_update ctx (offs od 0) 4 in
    let ctx := sha256_update ctx zeros 8 in
    let ctx := sha256_update ctx (offs od 4) 3 in
    let sn8 := 0xEE in
    let ctx := sha256_update ctx [sn8] 1 in
    let ctx := sha256_update ctx (offs od 7) 4 in
    let sn01 := [0x01; 0x23] in
    let ctx := sha256_update ctx sn01 2 in
    let ctx := sha256_update ctx (offs od 11) 2 in
    (* struct { uint8_t ch3[32]; uint8_t resp[32]; uint8_t od[13]; } req *)
    let req_ch3 := memcpy (uninit 32) copyright_msg 32 in
    let req_resp := memcpy (uninit 32) (sha256_final ctx) 32 in
    let req_od := memcpy (uninit 13) od 13 in
    let req := req_ch3 ++ req_resp ++ req_od in
    se_write OP_CheckMac 0x01 keynum req 77 ;;
    rc <- se_read1 ;;
    se_sleep ;;
    if negb (rc =? 0) then ret (-2)
    else ret 0.

(** [for (int i = 0; i < attempts; i++)] of [se_pair_unlock], [n] passes left. *)
Fixpoint pair_unlock_loop (n : nat) : M Z :=
  match n with
  | O => ret (-1)
  | S n' =>
      rc <- se_checkmac KEYNUM_pairing pairing_secret ;;
      if rc =? 0 then ret 0
      else pair_unlock_loop n'
  end.

Definition se_pair_unlock : M Z :=
  let attempts := 3%nat in
  pair_unlock_loop attempts.

(** [for (int i=0; i<32; i++) body[i] = data[i] ^ digest[i]], [n] passes
    left; the bytes stored, in order. *)
Fixpoint xor_loop (n : nat) (i : Z) (data digest : list Z) : list Z :=
  match n with
  | O => []
  | S n' => u8 (Z.lxor (rd data i) (rd digest i)) :: xor_loop n' (i + 1) data digest
  end.

Definition se_encrypted_write32 (data_slot blk write_kn : Z)
                                (write_key data : list Z) : M Z :=
  rc <- se_pair_unlock ;;
  if rc <? 0 then ret (-1)
  else
    '(rc, digest) <- se_gendig_slot write_kn write_key (uninit 32) ;;
    if rc <? 0 then ret (-1)
    else
      let body := uninit (32 + 32) in
      let body := memcpy body (xor_loop 32 0 data digest) 32 in
      let ctx := sha256_init in
      let p1 := u8 (Z.lor 0x80 2) in
      let p2_lsb := u8 (Z.shiftl data_slot 3) in
      let p2_msb := u8 blk in
      let args := [ u8 OP_Write; p1; p2_lsb; p2_msb; 0xEE; 0x01; 0x23 ] in
      let zeros := zeros 25 in
      let ctx := sha256_update ctx digest 32 in
      let ctx := sha256_update ctx args 7 in
      let ctx := sha256_update ctx zeros 25 in
      let ctx := sha256_update ctx data 32 in
      let body := firstn 32 body ++ memcpy (offs body 32) (sha256_final ctx) 32 in
      se_write OP_Write p1 (Z.lor (Z.shiftl p2_msb 8) p2_lsb) body 64 ;;
      rc <- se_read1 ;;
      se_sleep ;;
      if negb (rc =? 0) then ret (-1)
      else ret 0.

(** [for (int blk=0; blk<3 && len>0; blk++, len-=32)] of
    [se_encrypted_write], at most [fuel] passes. *)
Fixpoint encrypted_write_loop (fuel : nat) (blk : Z) (data_slot write_kn : Z)
                              (write_key data : list Z) (len : Z) : M Z :=
  match fuel with
  | O => ret 0
  | S fuel' =>
      if (blk <? 3) && (0 <? len) then
        let here := Z.min 32 len in
        let tmp := zeros 32 in
        let tmp := memcpy tmp (offs data (32 * blk)) here in
        rv <- se_encrypted_write32 data_slot blk write_kn write_key tmp ;;
        if rv <? 0 then ret (-1)
        else encrypted_write_loop fuel' (blk + 1) data_slot write_kn write_key
                                  data (len - 32)
      else ret 0
  end.

Definition se_encrypted_write (data_slot write_kn : Z) (write_key data : list Z)
                              (len : Z) : M Z :=
  encrypted_write_loop 4 0 data_slot write_kn write_key data len.

End Driver.

(** ** The remaining functions: configuration read and tempkey check *)

(** Modelled from the spec: [secrets.h] is not among the sources.  Besides
    the pairing secret, the secret store holds the eight-byte serial number
    of the secure element. *)
Class serial_h : Type := {
  se_serial_number : list Z;
  se_serial_number_length : length se_serial_number = 8%nat
}.

(** Modelled from the spec: [utils.h] is not among the sources.
    [check_equal(a, b, n)] tells whether the first [n] bytes of the two
    buffers are equal. *)
Fixpoint bytes_eqb (a b : list Z) : bool :=
  match a, b with
  | [], [] => true
  | x :: a', y :: b' => (x =? y) && bytes_eqb a' b'
  | _, _ => false
  end.

Definition check_equal (a b : list Z) (n : Z) : bool :=
  bytes_eqb (firstn (Z.to_nat n) a) (firstn (Z.to_nat n) b).

Section DriverRest.
Context {seh : se_h} {sha : sha256_h} {secrets : secrets_h} {serial : serial_h}.

(** [for (int blk=0; blk<4; blk++)] of [se_config_read], [n] passes left;
    the result code and the new contents of [config].  [se_read] stores
    through [&config[32 * blk]]. *)
Fixpoint config_read_loop (n : nat) (blk : Z) (config : list Z) : M (Z * list Z) :=
  match n with
  | O => ret (0, config)
  | S n' =>
      se_write OP_Read 0x80 (Z.shiftl blk 3) [] 0 ;;
      '(rc, data) <- se_read (offs config (32 * blk)) 32 ;;
      let config := firstn (Z.to_nat (32 * blk)) config ++ data in
      if rc <? 0 then ret (-1, config)
      else config_read_loop n' (blk + 1) config
  end.

(** [se_config_read], returning the result code and the new contents of
    [config]. *)
Definition se_config_read (config : list Z) : M (Z * list Z) :=
  '(rval, config) <- config_read_loop 4 0 config ;;
  _send_bits IOFLAG_SLEEP ;;
  ret (rval, config).

Definition se_is_correct_tempkey (expected_tempkey : list Z) : M bool :=
  let mode := u8 (Z.lor (Z.lor (Z.lor (Z.shiftl 1 6) (Z.shiftl 0 2))
                               (Z.shiftl 0 1))
                        (Z.shiftl 1 0)) in
  se_write OP_MAC mode KEYNUM_pairing [] 0 ;;
  '(rc, resp) <- se_read (uninit 32) 32 ;;
  se_sleep ;;
  if rc <? 0 then ret false
  else
    let ctx := sha256_init in
    let ctx := sha256_update ctx pairing_secret 32 in
    let ctx := sha256_update ctx expected_tempkey 32 in
    let fixed := [ u8 OP_MAC; mode; u8 KEYNUM_pairing; 0x0;
                   0; 0; 0; 0; 0; 0; 0; 0;
                   0; 0; 0;
                   0xEE ] in
    let ctx := sha256_update ctx fixed 16 in
    let ctx := sha256_update ctx (offs se_serial_number 4) 4 in
    let ctx := sha256_update ctx (offs se_serial_number 0) 4 in
    let actual := memcpy (uninit 32) (sha256_final ctx) 32 in
    ret (check_equal actual resp 32).

(** [se_checkmac_hard]; [keynum] is converted to [uint8_t] on entry. *)
Definition se_checkmac_hard (keynum : Z) (secret : list Z) : M Z :=
  let keynum := u8 keynum in
  '(rc, digest) <- se_gendig_slot keynum secret (uninit 32) ;;
  if rc <? 0 then ret (-1)
  else
    ok <- se_is_correct_tempkey digest ;;
    if negb ok then ret (-2)
    else ret 0.

End DriverRest.

(** ** Concrete collaborators, for running the model

    The theorems below hold for every instance of the three interfaces
    above.  To run the driver on a concrete line, this section fixes one:
    the command codes of the chip family, SHA-256 itself, and a pairing
    secret. *)

Module Sha256.

Definition w32 (x : Z) : Z := x mod 4294967296.

Definition add32 (a b : Z) : Z := w32 (a + b).

Definition rotr (n x : Z) : Z :=
  Z.lor (Z.shiftr x n) (w32 (Z.shiftl x (32 - n))).

Definition not32 (x : Z) : Z := Z.lxor x 4294967295.

(** The round constants and the initial hash value of the standard, in
    decimal. *)
Definition K : list Z :=
  [ 1116352408; 1899447441; 3049323471; 3921009573; 961987163; 1508970993;
    2453635748; 2870763221; 3624381080; 310598401; 607225278; 1426881987;
    1925078388; 2162078206; 2614888103; 3248222580; 3835390401; 4022224774;
    264347078; 604807628; 770255983; 1249150122; 1555081692; 1996064986;
    2554220882; 2821834349; 2952996808; 3210313671; 3336571891; 3584528711;
    113926993; 338241895; 666307205; 773529912; 1294757372; 1396182291;
    1695183700; 1986661051; 2177026350; 2456956037; 2730485921; 2820302411;
    3259730800; 3345764771; 3516065817; 3600352804; 4094571909; 275423344;
    430227734; 506948616; 659060556; 883997877; 958139571; 1322822218;
    1537002063; 1747873779; 1955562222; 2024104815; 2227730452; 2361852424;
    2428436474; 2756734187; 3204031479; 3329325298 ].

Definition words : Type := (Z * Z * Z * Z * Z * Z * Z * Z)%type.

Definition H0 : words :=
  (1779033703, 3144134277, 1013904242, 2773480762,
   1359893119, 2600822924, 528734635, 1541459225).

Definition round (st : words) (kw : Z * Z) : words :=
  let '(a, b, c, d, e, f, g, h) := st in
  let '(k, w) := kw in
  let s1 := Z.lxor (Z.lxor (rotr 6 e) (rotr 11 e)) (rotr 25 e) in
  let ch := Z.lxor (Z.land e f) (Z.land (not32 e) g) in
  let t1 := add32 (add32 (add32 (add32 h s1) ch) k) w in
  let s0 := Z.lxor (Z.lxor (rotr 2 a) (rotr 13 a)) (rotr 22 a) in
  let maj := Z.lxor (Z.lxor (Z.land a b) (Z.land a c)) (Z.land b c) in
  let t2 := add32 s0 maj in
  (add32 t1 t2, a, b, c, add32 d t1, e, f, g).

(** The message schedule: [n] more words after the ones in [w]. *)
Fixpoint schedule (n : nat) (w : list Z) : list Z :=
  match n with
  | O => w
  | S n' =>
      let i := length w in
      let w15 := nth (i - 15) w 0 in
      let w2 := nth (i - 2) w 0 in
      let s0 := Z.lxor (Z.lxor (rotr 7 w15) (rotr 18 w15)) (Z.shiftr w15 3) in
      let s1 := Z.lxor (Z.lxor (rotr 17 w2) (rotr 19 w2)) (Z.shiftr w2 10) in
      schedule n' (w ++ [add32 (add32 (add32 (nth (i - 16) w 0) s0)
                                      (nth (i - 7) w 0)) s1])
  end.

(** Big-endian words of a block of bytes. *)
Fixpoint be_words (n : nat) (block : list Z) : list Z :=
  match n with
  | O => []
  | S n' =>
      match block with
      | b0 :: b1 :: b2 :: b3 :: rest =>
          (b0 * 16777216 + b1 * 65536 + b2 * 256 + b3) :: be_words n' rest
      | _ => []
      end
  end.

Definition compress (st : words) (block : list Z) : words :=
  let w := schedule 48 (be_words 16 block) in
  let '(a, b, c, d, e, f, g, h) := fold_left round (combine K w) st in
  let '(a0, b0, c0, d0, e0, f0, g0, h0) := st in
  (add32 a0 a, add32 b0 b, add32 c0 c, add32 d0 d,
   add32 e0 e, add32 f0 f, add32 g0 g, add32 h0 h).

Fixpoint blocks (n : nat) (st : words) (msg : list Z) : words :=
  match n with
  | O => st
  | S n' => blocks n' (compress st (firstn 64 msg)) (skipn 64 msg)
  end.

Definition be_bytes (n : nat) (x : Z) : list Z :=
  map (fun i => u8 (Z.shiftr x (8 * Z.of_nat i))) (rev (seq 0 n)).

Definition pad (msg : list Z) : list Z :=
  let l := length msg in
  let k := ((64 - (l + 9) mod 64) mod 64)%nat in
  msg ++ [0x80] ++ repeat 0 k ++ be_bytes 8 (8 * Z.of_nat l).

Definition digest (msg : list Z) : list Z :=
  let m := pad (map u8 msg) in
  let '(a, b, c, d, e, f, g, h) := blocks (length m / 64) H0 m in
  be_bytes 4 a ++ be_bytes 4 b ++ be_bytes 4 c ++ be_bytes 4 d ++
  be_bytes 4 e ++ be_bytes 4 f ++ be_bytes 4 g ++ be_bytes 4 h.

End Sha256.

Lemma sha256_digest_length (m : list Z) : length (Sha256.digest m) = 32%nat.
Proof.
  unfold Sha256.digest.
  destruct (Sha256.blocks _ _ _) as [[[[[[[a b] c] d] e] f] g] h].
  reflexivity.
Qed.

Lemma sha256_digest_bytes (m : list Z) : bytes (Sha256.digest m).
Proof.
  unfold Sha256.digest.
  destruct (Sha256.blocks _ _ _) as [[[[[[[a b] c] d] e] f] g] h].
  unfold bytes, Sha256.be_bytes. cbn [seq rev app map].
  repeat constructor; apply Z.mod_pos_bound; reflexivity.
Qed.

(** SHA-256 of ["abc"], the first test vector of the standard. *)
Example sha256_abc :
  Sha256.digest [97; 98; 99]
  = [ 0xba; 0x78; 0x16; 0xbf; 0x8f; 0x01; 0xcf; 0xea; 0x41; 0x41; 0x40; 0xde;
      0x5d; 0xae; 0x22; 0x23; 0xb0; 0x03; 0x61; 0xa3; 0x96; 0x17; 0x7a; 0x9c;
      0xb4; 0x10; 0xff; 0x61; 0xf2; 0x00; 0x15; 0xad ].
Proof. vm_compute. reflexivity. Qed.

Definition sha256_std : sha256_h :=
  {| SHA256 := Sha256.digest;
     SHA256_length := sha256_digest_length;
     SHA256_bytes := sha256_digest_bytes |}.

(** The command codes of the ATECC508A / ATECC608A. *)
Definition se_atecc : se_h.
Proof.
  refine {| OP_Read := 0x02; OP_Write := 0x12; OP_Nonce := 0x16;
            OP_GenDig := 0x15; OP_MAC := 0x08; OP_CheckMac := 0x28;
            OP_Info := 0x30; KEYNUM_pairing := 1;
            seopcode_byte := _ |}.
  repeat constructor; unfold is_byte; lia.
Defined.

Definition secrets_example : secrets_h :=
  {| pairing_secret := map Z.of_nat (seq 1 32);
     pairing_secret_length := eq_refl |}.

(** The state at reset: counters at zero, nothing sent, and the given line
    and random tape. *)
Definition reset_state (rx : list (list Z)) (tape : list Z) : state :=
  mkState 0 0 0 0 0 0 0 0 0 0 0 0 [] rx tape.

(** A serial number for the secure element. *)
Definition serial_example : serial_h :=
  {| se_serial_number := [0x01; 0x23; 0x45; 0x67; 0x89; 0xAB; 0xCD; 0xEE];
     se_serial_number_length := eq_refl |}.

(** * Vocabulary of the statements

    Closed forms of what the driver sends and receives, and the predicates
    and data the properties below are stated with. *)

Section Vocabulary.
Context {seh : se_h} {sha : sha256_h} {secrets : secrets_h}.

(** What the inner loop does to the register for one data byte. *)
Definition crc_byte (crc_register data_byte : Z) : Z :=
  fold_left (fun r m => CRC.crc_step data_byte m r) [1; 2; 4; 8; 16; 32; 64; 128]
            crc_register.

(** The register [se_crc16_chain] starts from, and the one it ends with. *)
Definition crc_load (crc : list Z) : Z :=
  u16 (Z.lor (Z.land (rd crc 0) 0x00FF) (Z.shiftl (rd crc 1) 8)).

Definition crc_store (r : Z) : list Z :=
  [ u8 (Z.land r 0x00FF); u8 (Z.shiftr r 8) ].

(** Appending to the log of transmitted bytes. *)
Definition push_tdr (l : list Z) (s : state) : state :=
  set_uart_tdr (uart_tdr s ++ l) s.

(** The pulses of [n] passes of the loop of [_send_bits]. *)
Fixpoint pulses (n : nat) (mask tx : Z) : list Z :=
  match n with
  | O => []
  | S n' => (if Z.land tx mask =? 0 then BIT0 else BIT1)
            :: pulses n' (u8 (Z.shiftl mask 1)) tx
  end.

(** The eight pulses of one byte. *)
Definition serialize_byte (tx : Z) : list Z := pulses 8 0x1 (u8 tx).

(** The pulses of a buffer. *)
Definition serialize (buf : list Z) : list Z := flat_map serialize_byte buf.

Fixpoint list_eqb (l1 l2 : list Z) : bool :=
  match l1, l2 with
  | [], [] => true
  | x :: l1', y :: l2' => (x =? y) && list_eqb l1' l2'
  | _, _ => false
  end.

(** A pulse counts as a one when [(pulse ^ 0x7F) < 2]. *)
Definition pulse_bit (pulse : Z) : bool := Z.lxor pulse 0x7F <? 2.

Definition codec_check (b : Z) : bool :=
  list_eqb (serialize_byte b)
           (map (fun i => if Z.testbit b i then 0x7F else 0x7D) [0; 1; 2; 3; 4; 5; 6; 7])
  && (deserialize_bits 8 0 0x1 0 (serialize_byte b) =? b).

(** [n] increments of a [uint32_t] counter. *)
Definition bump_n (n : nat) (x : Z) : Z := Nat.iter n (fun c => u32 (c + 1)) x.

(** The state once a call of [se_read_response] has read up to the next
    timeout. *)
Definition rx_consume (s : state) : state :=
  match uart_rx s with
  | [] => set_notrxne (u32 (notrxne s + 1)) s
  | run :: rest =>
      set_rtof (u32 (rtof s + 1))
        (set_rxne (bump_n (length run) (rxne s)) (set_uart_rx rest s))
  end.

(** What [se_read_response] makes of the run [run]: the count it returns and
    the new contents of [buf]. *)
Definition run_response (buf : list Z) (max_len : Z) (run : list Z) : Z * list Z :=
  let max_expect := (max_len + 1) * 8 in
  let raw := firstn (Z.to_nat max_expect) (map (fun b => u8 (Z.land b 0x7f)) run) in
  let actual := Z.land (lenZ run) (Z.lnot 7) in
  (actual / 8, deserialize raw actual buf max_len).

(** How many bytes [se_read_response] reports for the run [run]. *)
Definition received_count (run : list Z) : Z :=
  Z.land (lenZ run) (Z.lnot 7) / 8.

(** The bytes [se_read_response] stores for the run [run], when asked for
    at most [max_len] of them. *)
Definition received (max_len : Z) (run : list Z) : list Z :=
  let raw := firstn (Z.to_nat ((max_len + 1) * 8))
                    (map (fun b => u8 (Z.land b 0x7f)) run) in
  let actual := Z.land (lenZ run) (Z.lnot 7) in
  deserialize_loop (Z.to_nat actual) raw actual max_len.

(** The state after the response has been requested and read. *)
Definition after_response (s : state) : state :=
  rx_consume (push_tdr (serialize_byte IOFLAG_TX) s).

(** A run that does not decode to a frame [se_read] can use: too short, or
    (unless the command was Info) a length byte that is neither [len + 3] nor
    the 4 of an error frame, or a CRC that does not match. *)
Definition invalid_frame (opcode len : Z) (run : list Z) : Prop :=
  let n := received_count run in
  let f := received (len + 3) run in
  n < 4 \/
  (opcode <> OP_Info /\ rd f 0 <> len + 3 /\ rd f 0 <> 4) \/
  (opcode <> OP_Info /\ rd f 0 = len + 3 /\ check_crc f n = false).

(** A run that decodes to a frame of exactly [len + 3] bytes and passes the
    checks of [se_read] (none for Info). *)
Definition valid_frame (opcode len : Z) (run : list Z) : Prop :=
  let n := received_count run in
  let f := received (len + 3) run in
  4 <= n /\ n = len + 3 /\
  (opcode = OP_Info \/ (rd f 0 = len + 3 /\ check_crc f n = true)).

(** The state [se_read] returns in when the chip has answered with an error
    frame whose code byte is [code]. *)
Definition after_error_frame (code : Z) (s : state) : state :=
  let s := after_response s in
  let s := set_len_error (u32 (len_error s + 1)) s in
  let s := set_len_error_two (u32 (len_error_two s + 1)) s in
  if code =? 0xEE then set_wdgtimeout (u32 (wdgtimeout s + 1)) s else s.

(** What [k] passes that end at [try_again] leave behind. *)
Definition retried (k : nat) (s s' : state) : Prop :=
  uart_rx s' = skipn k (uart_rx s) /\
  uart_tdr s' = uart_tdr s ++ concat (repeat (serialize_byte IOFLAG_TX) k) /\
  current_opcode s' = current_opcode s /\
  ln_retry s' = bump_n k (ln_retry s) /\
  retry_out s' = retry_out s /\
  len_error_two s' = len_error_two s /\
  wdgtimeout s' = wdgtimeout s.

(** The bytes of a command as [se_write] puts them on the wire after the
    wake pulse: header, body, CRC. *)
Definition command_frame (opcode p1 p2 : Z) (data : list Z) (data_len : Z)
  : list Z :=
  let known := [ IOFLAG_CMD; u8 (u8 data_len + 7); u8 opcode; u8 p1;
                 u8 (Z.land (u16 p2) 0xff);
                 u8 (Z.land (Z.shiftr (u16 p2) 8) 0xff) ] in
  let body := firstn (Z.to_nat (u8 data_len)) data in
  let crc := CRC.se_crc16_chain (u8 data_len) data
               (CRC.se_crc16_chain 5 (offs known 1) [0; 0]) in
  known ++ body ++ crc.

(** The bytes the random source hands out next, and the state it is left in. *)
Definition rng_next (n : nat) (s : state) : list Z :=
  firstn n (rng_tape s ++ zeros n).

Definition rng_after (n : nat) (s : state) : state :=
  set_rng_tape (skipn n (rng_tape s)) s.

(** The state a protocol step ends in: the chip has been sent to sleep. *)
Definition asleep (s : state) : state := push_tdr (serialize_byte IOFLAG_SLEEP) s.

(** The body of the CheckMac command. *)
Definition checkmac_request (secret tempkey od : list Z) : list Z :=
  firstn 32 copyright_msg
  ++ SHA256 (firstn 32 secret ++ firstn 32 tempkey ++ firstn 4 od ++ zeros 8
             ++ firstn 3 (skipn 4 od) ++ [0xEE] ++ firstn 4 (skipn 7 od)
             ++ [0x01; 0x23] ++ firstn 2 (skipn 11 od))
  ++ firstn 13 od.

(** Byte-wise XOR of two buffers. *)
Definition xor_bytes (a b : list Z) : list Z :=
  map (fun p => Z.lxor (fst p) (snd p)) (combine a b).

Definition xor_check (a : Z) : bool :=
  forallb (fun b => (0 <=? Z.lxor a b) && (Z.lxor a b <? 256))
          (map Z.of_nat (seq 0 256)).

(** The body of the Write command: the block XORed with the digest, then
    the tag over the digest, the command's parameters and the block itself. *)
Definition write_body (data_slot blk : Z) (digest data : list Z) : list Z :=
  xor_bytes data digest
  ++ SHA256 (digest
             ++ [OP_Write; 0x82; u8 (Z.shiftl data_slot 3); u8 blk;
                 0xEE; 0x01; 0x23]
             ++ zeros 25 ++ data).

Definition p2_check (lsb : Z) : bool :=
  forallb (fun msb =>
             let p2 := u16 (Z.lor (Z.shiftl msb 8) lsb) in
             (u8 (Z.land p2 0xff) =? lsb)
             && (u8 (Z.land (Z.shiftr p2 8) 0xff) =? msb))
          (map Z.of_nat (seq 0 256)).

(** Block [blk] of the first [len] bytes of [data], padded with zeros to 32
    bytes. *)
Definition padded_block (data : list Z) (len blk : Z) : list Z :=
  let here := Z.to_nat (Z.min 32 (len - 32 * blk)) in
  firstn here (skipn (Z.to_nat (32 * blk)) data) ++ zeros (32 - here).

(** The blocks [se_encrypted_write] is to write: those among the first three
    that start before [len]. *)
Definition blocks_of (data : list Z) (len : Z) : list (list Z) :=
  map (padded_block data len) (filter (fun blk => 32 * blk <? len) [0; 1; 2]).

(** Writing a list of blocks in order, block numbers counting up from
    [blk], stopping at the first failure. *)
Fixpoint write_blocks (data_slot write_kn : Z) (write_key : list Z) (blk : Z)
                      (blocks : list (list Z)) : M Z :=
  match blocks with
  | [] => ret 0
  | b :: rest =>
      rv <- se_encrypted_write32 data_slot blk write_kn write_key b ;;
      if rv <? 0 then ret (-1)
      else write_blocks data_slot write_kn write_key (blk + 1) rest
  end.

End Vocabulary.

(** * Scenarios

    The driver run against a scripted line, with the concrete collaborators
    fixed above. *)

Section Scenarios.
#[local] Existing Instance se_atecc.
#[local] Existing Instance sha256_std.
#[local] Existing Instance secrets_example.

(** The frame with which the chip answers with [payload]: length byte,
    payload, CRC. *)
Definition response_frame (payload : list Z) : list Z :=
  let body := (lenZ payload + 3) :: payload in
  body ++ CRC.se_crc16_chain (lenZ body) body [0; 0].

(** The same frame as the run of pulses the chip drives onto the line. *)
Definition response_run (payload : list Z) : list Z :=
  serialize (response_frame payload).

(** The state a computation ends in, and the value it returns. *)
Definition state_after {A : Type} (m : M A) (s : state) : state :=
  match m s with
  | Some (_, s') => s'
  | None => s
  end.

Definition value_of {A : Type} (m : M A) (s : state) (default : A) : A :=
  match m s with
  | Some (a, _) => a
  | None => default
  end.

(** 32 bytes standing for the output of the chip's random generator, 20
    bytes of host entropy, a slot secret and a plaintext block. *)
Definition chip_random : list Z := map Z.of_nat (seq 100 32).
Definition host_entropy : list Z := map Z.of_nat (seq 1 20).
Definition slot_secret : list Z := map Z.of_nat (seq 200 32).
Definition plaintext : list Z := map Z.of_nat (seq 50 32).

(** A Nonce command: the line stays silent for one pass, then the chip
    sends the error frame [4; 0xEE; crc], then the 32 random bytes. *)
Definition line_watchdog : state :=
  set_current_opcode OP_Nonce
    (reset_state [[]; response_run [0xEE]; response_run chip_random] []).

(** A Nonce command: the line stays silent for one pass, then carries a
    frame whose length byte is 7, then the 32 random bytes. *)
Definition line_wrong_length : state :=
  set_current_opcode OP_Nonce
    (reset_state [[]; response_run [1; 2; 3; 4]; response_run chip_random] []).

(** A Nonce command: a silent pass, a frame whose length byte is 7, then the
    error frame [4; 0x0F; crc], then the 32 random bytes. *)
Definition line_late_error : state :=
  set_current_opcode OP_Nonce
    (reset_state [[]; response_run [1; 2; 3; 4]; response_run [0x0F];
                  response_run chip_random] []).

(** A line on which the chip never answers, and one on which it answers the
    second request with the one-byte frame for 0. *)
Definition line_dead : state :=
  set_current_opcode OP_GenDig (reset_state [] []).

Definition line_late_answer : state :=
  set_current_opcode OP_GenDig (reset_state [[]; response_run [0]] []).

(** The chip answers a CheckMac command with the error frame for code 1. *)
Definition line_code_1 : state :=
  set_current_opcode OP_CheckMac (reset_state [response_run [1]] []).

(** The line of a whole CheckMac exchange: the answer to the Nonce command,
    then [answers]; and the random tape of the host. *)
Definition checkmac_line (answers : list (list Z)) : state :=
  reset_state (response_run chip_random :: answers) (map Z.of_nat (seq 0 52)).

(** The nonce exchange of [se_checkmac] started in [s]. *)
Definition checkmac_nonce (s : state) : option (Z * list Z * state) :=
  se_pick_nonce (rng_next 20 (rng_after 32 s)) (uninit 32)
                (rng_after 20 (rng_after 32 s)).

Definition checkmac_tempkey (s : state) : list Z :=
  match checkmac_nonce s with
  | Some ((_, tempkey), _) => tempkey
  | None => []
  end.

Definition checkmac_after_nonce (s : state) : state :=
  match checkmac_nonce s with
  | Some (_, s1) => s1
  | None => s
  end.

(** The CheckMac command of [se_checkmac] started in [s], and the read of
    its answer. *)
Definition checkmac_exchange (keynum : Z) (secret : list Z) (s : state) : M Z :=
  se_write OP_CheckMac 0x01 (u8 keynum)
           (checkmac_request secret (checkmac_tempkey s) (rng_next 32 s)) 77 ;;
  se_read1.

(** Two lines for a Nonce exchange: the chip answers at once; the chip is
    silent at first, then sends a stray pulse, then answers. *)
Definition nonce_line_prompt : state :=
  reset_state [response_run chip_random] [].

Definition nonce_line_slow : state :=
  reset_state [[]; [0x7F]; response_run chip_random] [].

(** The Nonce command and the read of its answer. *)
Definition nonce_exchange : M (Z * list Z) :=
  se_write OP_Nonce 0 0 host_entropy 20 ;; se_read (uninit 32) 32.

(** The line of a GenDig exchange: the answer to the Nonce command, then the
    single byte 0. *)
Definition gendig_line : state :=
  reset_state [response_run chip_random; response_run [0]] host_entropy.

Definition gendig_nonce : option (Z * list Z * state) :=
  se_pick_nonce (rng_next 20 gendig_line) (uninit 32) (rng_after 20 gendig_line).

Definition gendig_tempkey : list Z :=
  match gendig_nonce with
  | Some ((_, tempkey), _) => tempkey
  | None => []
  end.

Definition gendig_after_nonce : state :=
  match gendig_nonce with
  | Some (_, s1) => s1
  | None => gendig_line
  end.

Definition gendig_exchange : M Z :=
  se_write OP_GenDig 0x2 3 [] 0 ;; se_read1.

(** The line of a whole encrypted write of one block: pairing (Nonce,
    CheckMac), digest generation (Nonce, GenDig), and the Write itself, each
    answered with success. *)
Definition write_line : state :=
  reset_state [ response_run chip_random; response_run [0];
                response_run chip_random; response_run [0];
                response_run [0] ]
              (map Z.of_nat (seq 0 72)).

Definition write_after_pairing : state := state_after se_pair_unlock write_line.

Definition write_digest : list Z :=
  snd (value_of (se_gendig_slot 2 slot_secret (uninit 32)) write_after_pairing
                (0, [])).

Definition write_after_gendig : state :=
  state_after (se_gendig_slot 2 slot_secret (uninit 32)) write_after_pairing.

(** The answers of the chip to one [se_encrypted_write32]: pairing (Nonce,
    CheckMac), digest generation (Nonce, GenDig), and the Write itself, each
    answered with success. *)
Definition block_answers : list (list Z) :=
  [ response_run chip_random; response_run [0];
    response_run chip_random; response_run [0];
    response_run [0] ].

(** A hundred bytes handed to [se_encrypted_write], on a line where the chip
    answers three block writes. *)
Definition long_data : list Z := map Z.of_nat (seq 0 100).

Definition long_line : state :=
  reset_state (block_answers ++ block_answers ++ block_answers)
              (map Z.of_nat (seq 0 216)).

(** The line after each of the three writes. *)
Definition long_line_1 : state := Eval vm_compute in
  state_after (se_encrypted_write32 5 0 2 slot_secret (firstn 32 long_data))
              long_line.

Definition long_line_2 : state := Eval vm_compute in
  state_after (se_encrypted_write32 5 1 2 slot_secret
                 (firstn 32 (skipn 32 long_data)))
              long_line_1.

Definition long_line_3 : state := Eval vm_compute in
  state_after (se_encrypted_write32 5 2 2 slot_secret
                 (firstn 32 (skipn 64 long_data)))
              long_line_2.

(** Forty bytes handed to [se_encrypted_write], on a line where the chip
    answers two block writes; the line after the write of the first 32
    bytes, and after the write of the last 8 bytes followed by 24 zeros. *)
Definition short_data : list Z := map Z.of_nat (seq 1 40).

Definition short_line : state :=
  reset_state (block_answers ++ block_answers) (map Z.of_nat (seq 0 144)).

Definition short_line_1 : state := Eval vm_compute in
  state_after (se_encrypted_write32 5 0 2 slot_secret (firstn 32 short_data))
              short_line.

Definition short_line_2 : state := Eval vm_compute in
  state_after (se_encrypted_write32 5 1 2 slot_secret
                 ([33; 34; 35; 36; 37; 38; 39; 40] ++ repeat 0 24))
              short_line_1.

End Scenarios.

(** * Vocabulary of whole exchanges

    What a command and its answer leave behind, the values host and chip
    derive along the way, and the exhaustive checks over bytes and registers
    that some of the proofs rest on. *)

Section Exchanges.
Context {seh : se_h} {sha : sha256_h} {secrets : secrets_h} {serial : serial_h}.

(** What [_read_byte] keeps of the raw bytes of a run: the low seven bits. *)
Definition low7 (run : list Z) : list Z := map (fun b => Z.land b 0x7f) run.

(** The state after a command has been sent and its answer taken on the
    first pass of [se_read]. *)
Definition answered (opcode p1 p2 : Z) (body : list Z) (data_len : Z)
                    (s : state) : state :=
  push_tdr (serialize_byte IOFLAG_IDLE)
    (after_response
       (push_tdr (0 :: serialize (command_frame opcode p1 p2 body data_len))
                 (set_current_opcode opcode s))).

(** The log of transmitted bytes ends with the SLEEP flag. *)
Definition ends_asleep (s : state) : Prop :=
  exists before, uart_tdr s = before ++ serialize_byte IOFLAG_SLEEP.

(** The tempkey both sides hold after a Nonce exchange. *)
Definition nonce_tempkey (randout num_in : list Z) : list Z :=
  SHA256 (randout ++ firstn 20 num_in ++ [0x16; 0; 0]).

(** The digest both sides hold after a GenDig over the slot [slot_num]. *)
Definition slot_digest (slot_num : Z) (slot_contents tempkey : list Z) : list Z :=
  SHA256 (firstn 32 slot_contents
          ++ [u8 OP_GenDig; 2; u8 slot_num; 0; 0xEE; 0x01; 0x23]
          ++ zeros 25 ++ tempkey).

(** The state after a nonce exchange that went through. *)
Definition nonce_done (num_in : list Z) (s : state) : state :=
  asleep (answered OP_Nonce 0 0 num_in 20 s).

(** The state after a digest exchange that went through. *)
Definition gendig_done (slot_num : Z) (s : state) : state :=
  asleep (answered OP_GenDig 0x2 slot_num [] 0
            (nonce_done (rng_next 20 s) (rng_after 20 s))).

(** What the host hashes to reproduce the chip's MAC over a tempkey. *)
Definition mac_message (expected_tempkey : list Z) : list Z :=
  pairing_secret ++ firstn 32 expected_tempkey
  ++ [u8 OP_MAC; 0x41; u8 KEYNUM_pairing; 0; 0; 0; 0; 0; 0; 0; 0; 0; 0; 0; 0; 0xEE]
  ++ firstn 4 (skipn 4 se_serial_number) ++ firstn 4 se_serial_number.

(** The state after a MAC exchange that went through. *)
Definition mac_done (s : state) : state :=
  asleep (answered OP_MAC 0x41 KEYNUM_pairing [] 0 s).

(** What reading [n] blocks, from block [blk] on, puts on the wire when
    every answer is taken at once: for each block the wake byte, a Read
    command for the 32 bytes at word address [blk << 3] of the
    configuration zone, the TX flag and the IDLE flag. *)
Fixpoint config_read_wire (n : nat) (blk : Z) : list Z :=
  match n with
  | O => []
  | S n' =>
      (0 :: serialize (command_frame OP_Read 0x80 (Z.shiftl blk 3) [] 0))
      ++ serialize_byte IOFLAG_TX ++ serialize_byte IOFLAG_IDLE
      ++ config_read_wire n' (blk + 1)
  end.

(** The state after [n] blocks have been read. *)
Fixpoint config_read_done (n : nat) (blk : Z) (s : state) : state :=
  match n with
  | O => s
  | S n' =>
      config_read_done n' (blk + 1)
        (answered OP_Read 0x80 (Z.shiftl blk 3) [] 0 s)
  end.

(** The line of a chip that answers one pairing attempt after the other:
    for each attempt the random bytes of the Nonce exchange and the status
    byte of the CheckMac exchange. *)
Fixpoint attempts_line (tries : list (list Z * Z)) : list (list Z) :=
  match tries with
  | [] => []
  | (randout, status) :: tries' =>
      response_run randout :: response_run [status] :: attempts_line tries'
  end.

(** An attempt the chip can make: 32 random bytes and a status byte. *)
Definition well_formed_try (t : list Z * Z) : Prop :=
  bytes (fst t) /\ length (fst t) = 32%nat /\ is_byte (snd t).

(** Whenever [m] returns, the last thing sent was the SLEEP flag. *)
Definition leaves_asleep {A : Type} (m : M A) : Prop :=
  forall s a s', m s = Some (a, s') -> ends_asleep s'.

(** [f] on every number of [w] bits that follows the prefix [acc]. *)
Fixpoint all_bits (w : nat) (acc : Z) (f : Z -> bool) : bool :=
  match w with
  | O => f acc
  | S w' => all_bits w' (2 * acc) f && all_bits w' (2 * acc + 1) f
  end.

(** Whether the step for the data bit under [mask] feeds the polynomial
    back into the register. *)
Definition crc_feedback (data_byte mask crc_register : Z) : bool :=
  negb (Z.lxor (if Z.land data_byte mask =? 0 then 0 else 1)
               (Z.shiftr crc_register 15) =? 0).

(** The data bit under a mask is the bit of the byte at the mask's place. *)
Definition mask_check (b : Z) : bool :=
  forallb (fun m => Bool.eqb (negb (Z.land b m =? 0)) (Z.testbit b (Z.log2 m)))
          [1; 2; 4; 8; 16; 32; 64; 128].

(** From the zero register only the zero byte leads back to zero. *)
Definition kernel_check_byte (c : Z) : bool :=
  negb (crc_byte 0 c =? 0) || (c =? 0).

(** A step for a zero data bit sends only the zero register to zero. *)
Definition kernel_check_register (x : Z) : bool :=
  negb (CRC.crc_step 0 1 x =? 0) || (x =? 0).

(** The bytes eight-pulse groups spell when one pulse standing for [carry]
    precedes the pulses of [frame]: every byte moved up by one bit, with the
    top bit of the byte before it as its lowest bit. *)
Fixpoint shifted (carry : bool) (frame : list Z) : list Z :=
  match frame with
  | [] => []
  | b :: rest =>
      u8 (Z.lor (Z.shiftl b 1) (if carry then 1 else 0))
      :: shifted (Z.testbit b 7) rest
  end.

(** The pulse of one bit. *)
Definition carry_pulse (c : bool) : Z := if c then BIT1 else BIT0.

(** One byte read one pulse late, after a zero and after a one; and the
    pulse of its top bit. *)
Definition shift_check (b : Z) : bool :=
  (deserialize_bits 8 0 0x1 0 (BIT0 :: serialize_byte b)
   =? u8 (Z.lor (Z.shiftl b 1) 0))
  && (deserialize_bits 8 0 0x1 0 (BIT1 :: serialize_byte b)
      =? u8 (Z.lor (Z.shiftl b 1) 1))
  && (nth 7 (serialize_byte b) 0 =? carry_pulse (Z.testbit b 7)).

End Exchanges.

(** * Further scenarios *)

Section Lines.
#[local] Existing Instance se_atecc.
#[local] Existing Instance sha256_std.
#[local] Existing Instance secrets_example.
#[local] Existing Instance serial_example.

(** A run as a noisy line delivers it: every pulse with the top bit set,
    and one stray pulse at the end. *)
Definition noisy (run : list Z) : list Z :=
  map (fun p => p + 128) run ++ [0x7F].

(** The chip answers a Nonce command with 32 random bytes over a noisy
    line. *)
Definition line_noisy_nonce : state :=
  set_current_opcode OP_Nonce (reset_state [noisy (response_run chip_random)] []).

(** The chip answers a GenDig command with the frame for one zero byte and
    then keeps sending: 256 more bytes in the same run. *)
Definition line_overlong : state :=
  set_current_opcode OP_GenDig
    (reset_state [serialize (response_frame [0] ++ map Z.of_nat (seq 0 256))] []).

(** Seven bytes that are no frame at all, in answer to an Info command. *)
Definition line_info : state :=
  set_current_opcode OP_Info (reset_state [serialize [9; 9; 9; 9; 9; 9; 9]] []).

(** The chip answers a GenDig command with the one-byte frame for 0x5A. *)
Definition line_one_byte : state :=
  set_current_opcode OP_GenDig (reset_state [response_run [0x5A]] []).

(** The frame for the payload [0x11; 0x22] arrives with its last payload
    byte changed to 0x23, and intact at the second request. *)
Definition line_damaged : state :=
  set_current_opcode OP_GenDig
    (reset_state [serialize ([5; 0x11] ++ 0x23 :: skipn 3 (response_frame [0x11; 0x22]));
                  response_run [0x11; 0x22]] []).

(** The line of a whole [se_checkmac_hard]: the answers to the Nonce and
    GenDig commands, then [answers]; and the random tape of the host. *)
Definition hard_line (status : Z) (answers : list (list Z)) : state :=
  reset_state (response_run chip_random :: response_run [status] :: answers)
              host_entropy.

(** Four blocks of configuration data. *)
Definition config_blocks : list (list Z) :=
  [map Z.of_nat (seq 0 32); map Z.of_nat (seq 32 32);
   map Z.of_nat (seq 64 32); map Z.of_nat (seq 96 32)].

(** The chip answers every Read; and the chip answers two Reads and the
    third with the error frame for code 0x0F. *)
Definition config_line : state :=
  reset_state (map response_run config_blocks) [].

Definition config_line_error : state :=
  reset_state (map response_run (firstn 2 config_blocks) ++ [response_run [0x0F]]) [].

(** Pairing attempts: the chip refuses with status 1. *)
Definition refusal : list Z * Z := (chip_random, 1).

End Lines.

(** * Properties *)

(** ** CRC16Chain: one call over a message against calls over its fragments *)

Section CrcFacts.
Import CRC.

Lemma crc_bits_unrolled (data_byte crc_register : Z) :
  crc_bits 9 0x01 data_byte crc_register = crc_byte crc_register data_byte.
Proof. reflexivity. Qed.

Lemma u16_range (x : Z) : 0 <= u16 x < 65536.
Proof. unfold u16. apply Z.mod_pos_bound. lia. Qed.

Lemma u8_range (x : Z) : 0 <= u8 x < 256.
Proof. unfold u8. apply Z.mod_pos_bound. lia. Qed.

Lemma u8_small (x : Z) : 0 <= x < 256 -> u8 x = x.
Proof. intros H. unfold u8. apply Z.mod_small. exact H. Qed.

Lemma u16_small (x : Z) : 0 <= x < 65536 -> u16 x = x.
Proof. intros H. unfold u16. apply Z.mod_small. exact H. Qed.

Lemma crc_step_range (b m r : Z) : 0 <= crc_step b m r < 65536.
Proof.
  unfold crc_step.
  destruct (negb _); apply u16_range.
Qed.

Lemma crc_byte_range (r b : Z) : 0 <= crc_byte r b < 65536.
Proof. unfold crc_byte. cbn [fold_left]. apply crc_step_range. Qed.

Lemma crc_fold_range (l : list Z) (r : Z) :
  0 <= r < 65536 -> 0 <= fold_left crc_byte l r < 65536.
Proof.
  revert r. induction l as [|b l IH]; intros r Hr; cbn [fold_left].
  - exact Hr.
  - apply IH. apply crc_byte_range.
Qed.

Lemma len_app (l1 l2 : list Z) : lenZ (l1 ++ l2) = lenZ l1 + lenZ l2.
Proof. unfold lenZ. rewrite length_app. lia. Qed.

Lemma len_nonneg (l : list Z) : 0 <= lenZ l.
Proof. unfold lenZ. lia. Qed.

Lemma rd_app_here (pre post : list Z) (b : Z) :
  rd (pre ++ b :: post) (lenZ pre) = b.
Proof.
  unfold rd, lenZ. rewrite Nat2Z.id.
  rewrite app_nth2 by lia. rewrite Nat.sub_diag. reflexivity.
Qed.

(** The outer loop visits [data[counter]], ..., [data[length-1]] in order. *)
Lemma crc_bytes_fold (rest pre tail : list Z) (r : Z) (fuel : nat) :
  lenZ pre + lenZ rest <= 255 ->
  (length rest < fuel)%nat ->
  crc_bytes fuel (lenZ pre) (lenZ pre + lenZ rest) (pre ++ rest ++ tail) r
  = fold_left crc_byte rest r.
Proof.
  revert pre r fuel.
  induction rest as [|b rest IH]; intros pre r fuel Hlen Hfuel;
    (destruct fuel as [|fuel]; [cbn in Hfuel; lia|]); cbn [crc_bytes fold_left].
  - replace (lenZ pre <? lenZ pre + lenZ []) with false; [reflexivity|].
    symmetry. apply Z.ltb_ge. unfold lenZ. cbn [length]. lia.
  - assert (Hb : lenZ (b :: rest) = 1 + lenZ rest).
    { unfold lenZ. cbn [length]. lia. }
    rewrite Hb in *.
    pose proof (len_nonneg pre). pose proof (len_nonneg rest).
    replace (lenZ pre <? lenZ pre + (1 + lenZ rest)) with true
      by (symmetry; apply Z.ltb_lt; lia).
    cbn [app]. rewrite rd_app_here, crc_bits_unrolled.
    rewrite u8_small by lia.
    replace (lenZ pre + 1) with (lenZ (pre ++ [b])) by (rewrite len_app; reflexivity).
    replace (lenZ pre + (1 + lenZ rest)) with (lenZ (pre ++ [b]) + lenZ rest)
      by (rewrite len_app; change (lenZ [b]) with 1; lia).
    replace (pre ++ b :: rest ++ tail) with ((pre ++ [b]) ++ rest ++ tail)
      by (rewrite <- app_assoc; reflexivity).
    apply IH.
    + rewrite len_app. change (lenZ [b]) with 1. lia.
    + cbn in Hfuel. lia.
Qed.

(** Storing the register into [crc[0]], [crc[1]] and loading it again. *)
Lemma crc_register_reload (r : Z) :
  0 <= r < 65536 ->
  u16 (Z.lor (Z.land (u8 (Z.land r 0x00FF)) 0x00FF)
             (Z.shiftl (u8 (Z.shiftr r 8)) 8)) = r.
Proof.
  intros Hr.
  change 0x00FF with (Z.ones 8).
  rewrite !Z.land_ones by lia.
  rewrite Z.shiftr_div_pow2, Z.shiftl_mul_pow2 by lia.
  change (2 ^ 8) with 256.
  unfold u8. rewrite !Z.mod_mod by lia.
  rewrite (Z.mod_small (r / 256) 256)
    by (split; [apply Z.div_pos; lia | apply Z.div_lt_upper_bound; lia]).
  assert (Hd : Z.land (r mod 256) (r / 256 * 256) = 0).
  { change 256 with (2 ^ 8).
    rewrite <- Z.shiftl_mul_pow2, <- Z.land_ones by lia.
    apply Z.bits_inj'. intros n Hn.
    rewrite !Z.land_spec, Z.shiftl_spec, Z.testbit_ones, Z.bits_0 by lia.
    destruct (Z.ltb_spec n 8).
    - rewrite (Z.testbit_neg_r _ (n - 8)) by lia. apply andb_false_r.
    - replace (0 <=? n) with true by (symmetry; apply Z.leb_le; lia).
      cbn [andb]. rewrite andb_false_r. reflexivity. }
  rewrite <- Z.lxor_lor, <- Z.add_nocarry_lxor by exact Hd.
  pose proof (Z.div_mod r 256). pose proof (Z.mod_pos_bound r 256).
  rewrite u16_small; lia.
Qed.

(** [se_crc16_chain] in closed form: fold the byte step over the first
    [n] bytes of [data], starting from the register held in [crc]. *)
Lemma se_crc16_chain_fold (n : nat) (data crc : list Z) :
  (n <= length data)%nat ->
  (n <= 255)%nat ->
  se_crc16_chain (Z.of_nat n) data crc
  = crc_store (fold_left crc_byte (firstn n data) (crc_load crc)).
Proof.
  intros Hn Hlen. unfold se_crc16_chain.
  rewrite (u8_small (Z.of_nat n)) by lia.
  pose proof (crc_bytes_fold (firstn n data) [] (skipn n data)) as Hf.
  change (lenZ []) with 0 in Hf. cbn [app] in Hf.
  rewrite firstn_skipn in Hf.
  assert (Hl : lenZ (firstn n data) = Z.of_nat n).
  { unfold lenZ. rewrite length_firstn. lia. }
  rewrite Hl in Hf. cbn [Z.add] in Hf.
  rewrite Hf; [reflexivity | lia |].
  rewrite length_firstn. lia.
Qed.

Lemma crc_load_store (r : Z) : 0 <= r < 65536 -> crc_load (crc_store r) = r.
Proof. apply crc_register_reload. Qed.

End CrcFacts.

(** C5. Running [se_crc16_chain] once over a whole message from a
    zero-seeded register gives the same two CRC bytes as running it over
    the first [k] bytes and then, with the register it left in [crc], over
    the remaining bytes -- for every message a [uint8_t] length can
    describe and every split point [k]. *)
Theorem crc16_chain_split (data : list Z) (k : nat) :
  lenZ data <= 255 ->
  (k <= length data)%nat ->
  CRC.se_crc16_chain (lenZ data) data [0; 0]
  = CRC.se_crc16_chain (lenZ data - Z.of_nat k) (offs data (Z.of_nat k))
      (CRC.se_crc16_chain (Z.of_nat k) data [0; 0]).
Proof.
  intros Hlen Hk. unfold lenZ in *. unfold offs. rewrite Nat2Z.id.
  rewrite <- Nat2Z.inj_sub by exact Hk.
  rewrite !se_crc16_chain_fold; try lia.
  - rewrite crc_load_store.
    + rewrite <- length_skipn, !firstn_all, <- fold_left_app, firstn_skipn.
      reflexivity.
    + apply crc_fold_range. apply u16_range.
  - rewrite length_skipn. lia.
Qed.

(** ** The monad's equations *)

Local Open Scope drv_scope.

Lemma bind_ret_l {A B : Type} (a : A) (k : A -> M B) (s : state) :
  bind (ret a) k s = k a s.
Proof. reflexivity. Qed.

Lemma bind_some {A B : Type} (m : M A) (k : A -> M B) (s s1 : state) (a : A) :
  m s = Some (a, s1) -> bind m k s = k a s1.
Proof. intros H. unfold bind. rewrite H. reflexivity. Qed.

Lemma bind_assoc {A B C : Type} (m : M A) (k : A -> M B) (h : B -> M C) (s : state) :
  bind (bind m k) h s = bind m (fun a => bind (k a) h) s.
Proof. unfold bind. destruct (m s) as [[a s1]|]; reflexivity. Qed.

Lemma bind_inv {A B : Type} (m : M A) (k : A -> M B) (s s' : state) (b : B) :
  bind m k s = Some (b, s') ->
  exists a s1, m s = Some (a, s1) /\ k a s1 = Some (b, s').
Proof.
  unfold bind. destruct (m s) as [[a s1]|]; [|discriminate].
  intros H. exists a, s1. split; [reflexivity | exact H].
Qed.

(** ** BitLink: what goes onto the wire *)

(** Reading a field back from an updated state. *)
Ltac state_simpl :=
  cbn [crc_errors not_ready_n short_error len_error len_error_two ln_retry
       retry_out wdgtimeout rtof rxne notrxne current_opcode uart_tdr uart_rx
       rng_tape set_crc_errors set_not_ready_n set_short_error set_len_error
       set_len_error_two set_ln_retry set_retry_out set_wdgtimeout set_rtof
       set_rxne set_notrxne set_current_opcode set_uart_tdr set_uart_rx
       set_rng_tape push_tdr].

Lemma push_tdr_nil (s : state) : push_tdr [] s = s.
Proof. destruct s. unfold push_tdr. cbn. rewrite app_nil_r. reflexivity. Qed.

Lemma push_tdr_push (l1 l2 : list Z) (s : state) :
  push_tdr l2 (push_tdr l1 s) = push_tdr (l1 ++ l2) s.
Proof. destruct s. unfold push_tdr. cbn. rewrite app_assoc. reflexivity. Qed.

Lemma uart_tdr_push_tdr (l : list Z) (s : state) :
  uart_tdr (push_tdr l s) = uart_tdr s ++ l.
Proof. reflexivity. Qed.

Lemma uart_tdr_set_current_opcode (v : Z) (s : state) :
  uart_tdr (set_current_opcode v s) = uart_tdr s.
Proof. reflexivity. Qed.

Lemma send_byte_tdr (ch : Z) (s : state) :
  _send_byte ch s = Some (tt, push_tdr [u8 ch] s).
Proof. reflexivity. Qed.

Lemma send_bits_loop_tdr (n : nat) (mask tx : Z) (s : state) :
  send_bits_loop n mask tx s = Some (tt, push_tdr (pulses n mask tx) s).
Proof.
  revert mask s. induction n as [|n IH]; intros mask s; cbn [send_bits_loop pulses].
  - rewrite push_tdr_nil. reflexivity.
  - erewrite bind_some by apply send_byte_tdr.
    rewrite IH, push_tdr_push. do 3 f_equal.
    destruct (Z.land tx mask =? 0); reflexivity.
Qed.

Lemma send_bits_tdr (tx : Z) (s : state) :
  _send_bits tx s = Some (tt, push_tdr (serialize_byte tx) s).
Proof. apply send_bits_loop_tdr. Qed.

(** ** BitLink: the codec *)

(** Checking a property of bytes on each of the 256 of them. *)
Lemma forall_bytes (f : Z -> bool) :
  forallb f (map Z.of_nat (seq 0 256)) = true ->
  forall b, is_byte b -> f b = true.
Proof.
  intros Hall b Hb.
  rewrite forallb_forall in Hall. apply Hall.
  apply in_map_iff. exists (Z.to_nat b). split.
  - apply Z2Nat.id. apply Hb.
  - apply in_seq. unfold is_byte in Hb. lia.
Qed.

Lemma list_eqb_eq (l1 l2 : list Z) : list_eqb l1 l2 = true -> l1 = l2.
Proof.
  revert l2. induction l1 as [|x l1 IH]; intros [|y l2] H; cbn in H;
    try discriminate; [reflexivity|].
  apply andb_true_iff in H. destruct H as [Hx H].
  apply Z.eqb_eq in Hx. subst. f_equal. apply IH, H.
Qed.

Lemma pulse_bit_tolerant (pulse : Z) :
  0 <= pulse -> pulse_bit pulse = (pulse =? 0x7E) || (pulse =? 0x7F).
Proof.
  intros Hp. unfold pulse_bit.
  assert (Hx : 0 <= Z.lxor pulse 0x7F) by (apply Z.lxor_nonneg; lia).
  assert (Hinv : Z.lxor (Z.lxor pulse 0x7F) 0x7F = pulse).
  { rewrite Z.lxor_assoc, Z.lxor_nilpotent, Z.lxor_0_r. reflexivity. }
  destruct (Z.ltb_spec (Z.lxor pulse 0x7F) 2) as [Hlt|Hge].
  - assert (Hc : Z.lxor pulse 0x7F = 0 \/ Z.lxor pulse 0x7F = 1) by lia.
    destruct Hc as [Hc|Hc]; rewrite Hc in Hinv; cbn in Hinv; subst pulse;
      reflexivity.
  - symmetry. apply orb_false_iff. split; apply Z.eqb_neq; intros ->;
      cbn in Hge; lia.
Qed.

(** The byte assembled from eight pulses, bit by bit. *)
Lemma deserialize_bits_testbit (from : list Z) (i : Z) :
  0 <= i < 8 ->
  Z.testbit (deserialize_bits 8 0 0x1 0 from) i = pulse_bit (rd from i).
Proof.
  intros Hi.
  assert (Hc : i = 0 \/ i = 1 \/ i = 2 \/ i = 3 \/ i = 4 \/ i = 5 \/ i = 6 \/ i = 7)
    by lia.
  cbn [deserialize_bits].
  change (0 + 1) with 1. change (1 + 1) with 2. change (2 + 1) with 3.
  change (3 + 1) with 4. change (4 + 1) with 5. change (5 + 1) with 6.
  change (6 + 1) with 7.
  repeat match goal with
         | |- context [Z.lxor (rd from ?k) 127 <? 2] =>
             change (Z.lxor (rd from k) 127 <? 2) with (pulse_bit (rd from k))
         end.
  repeat (destruct Hc as [Hc|Hc]; [subst i|]); try subst i;
    generalize (pulse_bit (rd from 0)) (pulse_bit (rd from 1))
               (pulse_bit (rd from 2)) (pulse_bit (rd from 3))
               (pulse_bit (rd from 4)) (pulse_bit (rd from 5))
               (pulse_bit (rd from 6)) (pulse_bit (rd from 7));
    intros c0 c1 c2 c3 c4 c5 c6 c7;
    destruct c0, c1, c2, c3, c4, c5, c6, c7; reflexivity.
Qed.

(** One group of eight pulses stored as one byte. *)
Lemma deserialize_one (from into : list Z) :
  deserialize from 8 into 1 = deserialize_bits 8 0 0x1 0 from :: skipn 1 into.
Proof. reflexivity. Qed.

Lemma codec_check_all : forallb codec_check (map Z.of_nat (seq 0 256)) = true.
Proof. vm_compute. reflexivity. Qed.

(** C6. For every byte [b], [_send_bits b] puts eight pulses on the wire,
    0x7D for a zero bit and 0x7F for a one bit, least significant bit first,
    and [deserialize] turns these eight pulses back into [b].  Whatever the
    eight pulses [from] handed to [deserialize] are, bit [i] of the byte it
    stores is one exactly when pulse [i] is 0x7E or 0x7F, and zero for every
    other raw value. *)
Theorem bit_codec_roundtrip (b : Z) (s : state) (from into : list Z) (i : Z) :
  is_byte b -> bytes from -> 0 <= i < 8 ->
  (exists wire,
     _send_bits b s = Some (tt, push_tdr wire s) /\
     wire = map (fun k => if Z.testbit b k then 0x7F else 0x7D)
                [0; 1; 2; 3; 4; 5; 6; 7] /\
     deserialize wire 8 into 1 = b :: skipn 1 into)
  /\
  Z.testbit (rd (deserialize from 8 into 1) 0) i
  = (rd from i =? 0x7E) || (rd from i =? 0x7F).
Proof.
  intros Hb Hfrom Hi. split.
  - pose proof (forall_bytes codec_check codec_check_all b Hb) as Hc.
    apply andb_true_iff in Hc. destruct Hc as [Hs Hd].
    apply list_eqb_eq in Hs. apply Z.eqb_eq in Hd.
    exists (serialize_byte b). split; [apply send_bits_tdr|].
    split; [exact Hs|].
    rewrite deserialize_one, Hd. reflexivity.
  - rewrite deserialize_one. change (rd (?x :: _) 0) with x.
    rewrite deserialize_bits_testbit by exact Hi.
    apply pulse_bit_tolerant.
    unfold rd. destruct (nth_in_or_default (Z.to_nat i) from 0) as [Hin|Hd].
    + unfold bytes in Hfrom. rewrite Forall_forall in Hfrom.
      apply Hfrom in Hin. apply Hin.
    + rewrite Hd. lia.
Qed.

(** ** FrameTransport: sending *)

Lemma send_serialized_loop_tdr (n : nat) (pre post : list Z) (s : state) :
  (n <= length post)%nat ->
  send_serialized_loop n (lenZ pre) (pre ++ post) s
  = Some (tt, push_tdr (serialize (firstn n post)) s).
Proof.
  revert pre post s. induction n as [|n IH]; intros pre post s Hn;
    cbn [send_serialized_loop].
  - cbn. rewrite push_tdr_nil. reflexivity.
  - destruct post as [|b post]; [cbn in Hn; lia|].
    erewrite bind_some by apply send_bits_tdr.
    rewrite rd_app_here.
    replace (lenZ pre + 1) with (lenZ (pre ++ [b]))
      by (rewrite len_app; reflexivity).
    replace (pre ++ b :: post) with ((pre ++ [b]) ++ post)
      by (rewrite <- app_assoc; reflexivity).
    rewrite IH by (cbn in Hn; lia).
    rewrite push_tdr_push. reflexivity.
Qed.

Lemma send_serialized_tdr (buf : list Z) (n : Z) (s : state) :
  0 <= n <= lenZ buf ->
  _send_serialized buf n s
  = Some (tt, push_tdr (serialize (firstn (Z.to_nat n) buf)) s).
Proof.
  intros Hn. unfold _send_serialized.
  apply (send_serialized_loop_tdr (Z.to_nat n) [] buf).
  unfold lenZ in Hn. lia.
Qed.

(** ** FrameTransport: receiving *)

Lemma bump_n_S_inner (n : nat) (x : Z) : bump_n n (u32 (x + 1)) = bump_n (S n) x.
Proof.
  unfold bump_n. induction n as [|n IH]; [reflexivity|].
  change (Nat.iter (S n) ?f ?y) with (f (Nat.iter n f y)).
  rewrite IH. reflexivity.
Qed.

Lemma u32_add_l (x y : Z) : u32 (u32 x + y) = u32 (x + y).
Proof. unfold u32. apply Zplus_mod_idemp_l. Qed.

Lemma bump_n_pos (n : nat) (x : Z) : bump_n (S n) x = u32 (x + Z.of_nat (S n)).
Proof.
  induction n as [|n IH].
  - reflexivity.
  - change (bump_n (S (S n)) x) with (u32 (bump_n (S n) x + 1)).
    rewrite IH, u32_add_l. f_equal. lia.
Qed.

Lemma read_pulses_run (run : list Z) :
  forall (fuel : nat) (max_expect actual : Z) (raw : list Z)
         (rest : list (list Z)) (s : state),
    0 <= actual ->
    uart_rx s = run :: rest ->
    (length run < fuel)%nat ->
    read_pulses fuel max_expect actual raw s
    = Some ((actual + lenZ run,
             raw ++ firstn (Z.to_nat (max_expect - actual))
                           (map (fun b => u8 (Z.land b 0x7f)) run)),
            set_rtof (u32 (rtof s + 1))
              (set_rxne (bump_n (length run) (rxne s)) (set_uart_rx rest s))).
Proof.
  induction run as [|b run IH];
    intros fuel max_expect actual raw rest s Hact Hrx Hfuel;
    (destruct fuel as [|fuel]; [cbn in Hfuel; lia|]); cbn [read_pulses].
  - unfold bind, _read_byte. rewrite Hrx. cbn [Z.ltb Z.compare ret].
    destruct s; cbn in *. unfold lenZ; cbn [length Z.of_nat map].
    rewrite Z.add_0_r, firstn_nil, app_nil_r. reflexivity.
  - unfold bind at 1. unfold _read_byte at 1. rewrite Hrx.
    assert (Hb : 0 <= Z.land b 127 < 128).
    { change 127 with (Z.ones 7). rewrite Z.land_ones by lia.
      apply Z.mod_pos_bound. lia. }
    replace (Z.land b 127 <? 0) with false by (symmetry; apply Z.ltb_ge; lia).
    rewrite (IH fuel max_expect (actual + 1) _ rest); cycle 1.
    + lia.
    + destruct s; reflexivity.
    + cbn in Hfuel. lia.
    + f_equal. f_equal.
      * f_equal.
        { unfold lenZ. cbn [length]. lia. }
        { destruct (Z.ltb_spec actual max_expect) as [Hlt|Hge].
          - replace (Z.to_nat (max_expect - actual))
              with (S (Z.to_nat (max_expect - (actual + 1)))) by lia.
            cbn [map firstn]. rewrite <- app_assoc. reflexivity.
          - replace (Z.to_nat (max_expect - actual)) with O by lia.
            replace (Z.to_nat (max_expect - (actual + 1))) with O by lia.
            reflexivity. }
      * destruct s; cbn in *. unfold set_rtof, set_rxne, set_uart_rx; cbn.
        rewrite bump_n_S_inner. reflexivity.
Qed.

Lemma read_pulses_silent (fuel : nat) (max_expect actual : Z) (raw : list Z)
                         (s : state) :
  uart_rx s = [] ->
  read_pulses (S fuel) max_expect actual raw s
  = Some ((actual, raw), set_notrxne (u32 (notrxne s + 1)) s).
Proof.
  intros Hrx. cbn [read_pulses]. unfold bind, _read_byte. rewrite Hrx.
  reflexivity.
Qed.

Lemma uart_rx_push_tdr (l : list Z) (s : state) :
  uart_rx (push_tdr l s) = uart_rx s.
Proof. destruct s; reflexivity. Qed.

(** [se_read_response] in closed form: it asks for output, then takes the
    run at the head of the line. *)
Lemma se_read_response_run (buf : list Z) (max_len : Z) (s : state) :
  se_read_response buf max_len s
  = Some (run_response buf max_len (hd [] (uart_rx s)),
          rx_consume (push_tdr (serialize_byte IOFLAG_TX) s)).
Proof.
  unfold se_read_response.
  erewrite bind_some by apply send_bits_tdr.
  unfold _flush_rx. rewrite bind_ret_l.
  set (s1 := push_tdr (serialize_byte IOFLAG_TX) s).
  unfold bind at 1. unfold gets at 1.
  assert (Hrx : uart_rx s1 = uart_rx s) by apply uart_rx_push_tdr.
  unfold rx_consume.
  destruct (uart_rx s) as [|run rest] eqn:E; rewrite Hrx.
  - cbn [hd length]. erewrite bind_some by (apply read_pulses_silent; exact Hrx).
    reflexivity.
  - cbn [hd].
    erewrite bind_some
      by (apply read_pulses_run with (rest := rest); [lia | exact Hrx | lia]).
    unfold run_response. rewrite Z.sub_0_r, Z.add_0_l. reflexivity.
Qed.

(** ** FrameTransport: the frame a run decodes to *)

Lemma run_response_eq (buf : list Z) (max_len : Z) (run : list Z) :
  run_response buf max_len run
  = (received_count run,
     memcpy buf (received max_len run) (lenZ (received max_len run))).
Proof. reflexivity. Qed.

Lemma land_lnot_7 (n : Z) : 0 <= n -> Z.land n (Z.lnot 7) = 8 * (n / 8).
Proof.
  intros Hn. rewrite <- Z.ldiff_land. change 7 with (Z.ones 3).
  rewrite Z.ldiff_ones_r by lia.
  rewrite Z.shiftl_mul_pow2, Z.shiftr_div_pow2 by lia.
  change (2 ^ 3) with 8. lia.
Qed.

Lemma received_count_div (run : list Z) : received_count run = lenZ run / 8.
Proof.
  unfold received_count. rewrite land_lnot_7 by apply len_nonneg.
  rewrite Z.mul_comm. apply Z.div_mul. lia.
Qed.

Lemma received_count_nonneg (run : list Z) : 0 <= received_count run.
Proof.
  rewrite received_count_div. apply Z.div_pos; [apply len_nonneg | lia].
Qed.

Lemma deserialize_loop_length (k : nat) :
  forall (fuel : nat) (from : list Z) (max_into : Z),
    1 <= max_into -> (k <= fuel)%nat ->
    length (deserialize_loop fuel from (8 * Z.of_nat k) max_into)
    = Nat.min k (Z.to_nat max_into).
Proof.
  induction k as [|k IH]; intros fuel from max_into Hmax Hfuel.
  - destruct fuel; reflexivity.
  - destruct fuel as [|fuel]; [lia|]. cbn [deserialize_loop].
    replace (0 <? 8 * Z.of_nat (S k)) with true by (symmetry; apply Z.ltb_lt; lia).
    cbn [length]. destruct (Z.leb_spec (max_into - 1) 0) as [Hle|Hgt].
    + cbn [length]. lia.
    + replace (8 * Z.of_nat (S k) - 8) with (8 * Z.of_nat k) by lia.
      rewrite IH by lia. lia.
Qed.

Lemma received_length (max_len : Z) (run : list Z) :
  1 <= max_len ->
  lenZ (received max_len run) = Z.min (received_count run) max_len.
Proof.
  intros Hmax. unfold received, lenZ at 1.
  rewrite land_lnot_7 by apply len_nonneg.
  pose proof (received_count_nonneg run) as Hc.
  rewrite received_count_div in *.
  set (k := lenZ run / 8) in *.
  replace (8 * k) with (8 * Z.of_nat (Z.to_nat k)) by lia.
  rewrite deserialize_loop_length by lia. lia.
Qed.

Lemma memcpy_all_length (dst src : list Z) :
  (length src <= length dst)%nat ->
  length (memcpy dst src (lenZ src)) = length dst.
Proof.
  intros H. unfold memcpy, lenZ. rewrite Nat2Z.id, firstn_all, length_app, length_skipn.
  lia.
Qed.

Lemma memcpy_all_rd (dst src : list Z) (i : Z) :
  0 <= i < lenZ src -> rd (memcpy dst src (lenZ src)) i = rd src i.
Proof.
  intros H. unfold memcpy, rd, lenZ in *. rewrite Nat2Z.id, firstn_all.
  apply app_nth1. lia.
Qed.

Lemma memcpy_all_same (dst src : list Z) :
  length src = length dst -> memcpy dst src (lenZ src) = src.
Proof.
  intros H. unfold memcpy, lenZ. rewrite Nat2Z.id, firstn_all, H, skipn_all.
  apply app_nil_r.
Qed.

(** ** FrameTransport: one pass of the retry loop *)

Lemma incr_eq (get : state -> Z) (set : Z -> state -> state) (s : state) :
  incr get set s = Some (tt, set (u32 (get s + 1)) s).
Proof. reflexivity. Qed.

Lemma after_response_uart_rx (s : state) :
  uart_rx (after_response s) = tl (uart_rx s).
Proof. destruct s as [? ? ? ? ? ? ? ? ? ? ? ? ? rx ?]. destruct rx; reflexivity. Qed.

Lemma after_response_uart_tdr (s : state) :
  uart_tdr (after_response s) = uart_tdr s ++ serialize_byte IOFLAG_TX.
Proof. destruct s as [? ? ? ? ? ? ? ? ? ? ? ? ? rx ?]. destruct rx; reflexivity. Qed.

Lemma after_response_current_opcode (s : state) :
  current_opcode (after_response s) = current_opcode s.
Proof. destruct s as [? ? ? ? ? ? ? ? ? ? ? ? ? rx ?]. destruct rx; reflexivity. Qed.

Lemma after_response_ln_retry (s : state) :
  ln_retry (after_response s) = ln_retry s.
Proof. destruct s as [? ? ? ? ? ? ? ? ? ? ? ? ? rx ?]. destruct rx; reflexivity. Qed.

Lemma after_response_retry_out (s : state) :
  retry_out (after_response s) = retry_out s.
Proof. destruct s as [? ? ? ? ? ? ? ? ? ? ? ? ? rx ?]. destruct rx; reflexivity. Qed.

Lemma after_response_len_error_two (s : state) :
  len_error_two (after_response s) = len_error_two s.
Proof. destruct s as [? ? ? ? ? ? ? ? ? ? ? ? ? rx ?]. destruct rx; reflexivity. Qed.

Lemma after_response_wdgtimeout (s : state) :
  wdgtimeout (after_response s) = wdgtimeout s.
Proof. destruct s as [? ? ? ? ? ? ? ? ? ? ? ? ? rx ?]. destruct rx; reflexivity. Qed.

Lemma after_response_len_error (s : state) :
  len_error (after_response s) = len_error s.
Proof. destruct s as [? ? ? ? ? ? ? ? ? ? ? ? ? rx ?]. destruct rx; reflexivity. Qed.

Lemma after_response_rng_tape (s : state) :
  rng_tape (after_response s) = rng_tape s.
Proof. destruct s as [? ? ? ? ? ? ? ? ? ? ? ? ? rx ?]. destruct rx; reflexivity. Qed.

Lemma se_read_response_eq (buf : list Z) (max_len : Z) (s : state) :
  se_read_response buf max_len s
  = Some ((received_count (hd [] (uart_rx s)),
           memcpy buf (received max_len (hd [] (uart_rx s)))
                  (lenZ (received max_len (hd [] (uart_rx s))))),
          after_response s).
Proof. rewrite se_read_response_run, run_response_eq. reflexivity. Qed.

Section ReadFacts.
Context {seh : se_h}.

Lemma check_crc_received (tmp : list Z) (len : Z) (run : list Z) :
  0 <= len -> lenZ tmp = len + 3 -> 4 <= received_count run ->
  rd (received (len + 3) run) 0 = len + 3 ->
  check_crc (memcpy tmp (received (len + 3) run)
                    (lenZ (received (len + 3) run))) (received_count run)
  = check_crc (received (len + 3) run) (received_count run).
Proof.
  intros Hlen Htmp Hn Hf0.
  pose proof (received_length (len + 3) run ltac:(lia)) as Hl.
  destruct (Z_lt_le_dec (received_count run) (len + 3)) as [Hlt|Hge].
  - unfold check_crc.
    rewrite memcpy_all_rd by lia. rewrite Hf0.
    assert (Hu : u8 (received_count run) <= received_count run).
    { unfold u8. apply Z.mod_le; lia. }
    replace (len + 3 =? u8 (received_count run)) with false
      by (symmetry; apply Z.eqb_neq; lia).
    reflexivity.
  - rewrite memcpy_all_same; [reflexivity|].
    unfold lenZ in *. lia.
Qed.

Lemma attempt_invalid (len : Z) (data tmp : list Z) (s : state) :
  0 <= len -> lenZ tmp = len + 3 ->
  invalid_frame (current_opcode s) len (hd [] (uart_rx s)) ->
  exists tmp' s1,
    se_read_attempt len data tmp s = Some ((TryAgain, tmp'), s1) /\
    lenZ tmp' = len + 3 /\
    uart_rx s1 = tl (uart_rx s) /\
    uart_tdr s1 = uart_tdr s ++ serialize_byte IOFLAG_TX /\
    current_opcode s1 = current_opcode s /\
    ln_retry s1 = ln_retry s /\
    retry_out s1 = retry_out s /\
    len_error_two s1 = len_error_two s /\
    wdgtimeout s1 = wdgtimeout s.
Proof.
  intros Hlen Htmp Hinv.
  set (run := hd [] (uart_rx s)) in *.
  pose proof (received_length (len + 3) run ltac:(lia)) as Hl.
  pose proof (received_count_nonneg run) as Hn0.
  exists (memcpy tmp (received (len + 3) run) (lenZ (received (len + 3) run))).
  assert (Htmp' : lenZ (memcpy tmp (received (len + 3) run)
                               (lenZ (received (len + 3) run))) = len + 3).
  { unfold lenZ at 1. rewrite memcpy_all_length; unfold lenZ in *; lia. }
  unfold se_read_attempt.
  erewrite bind_some by apply se_read_response_eq.
  cbv beta iota. fold run.
  destruct (Z.ltb_spec (received_count run) 4) as [Hshort|Hlong].
  - (* fewer than four bytes *)
    destruct (received_count run =? 0);
      (eexists; split; [reflexivity|]);
      repeat split; try exact Htmp'; cbn;
      auto using after_response_uart_rx, after_response_uart_tdr,
        after_response_current_opcode, after_response_ln_retry,
        after_response_retry_out, after_response_len_error_two,
        after_response_wdgtimeout.
  - destruct Hinv as [Hinv|[(Hop & Hne & Hne4)|(Hop & Heq & Hcrc)]]; [lia| |].
    + (* a length byte that is neither len + 3 nor 4 *)
      unfold bind at 1, gets at 1.
      rewrite after_response_current_opcode.
      replace (current_opcode s =? OP_Info) with false
        by (symmetry; apply Z.eqb_neq; exact Hop).
      cbn [negb]. rewrite memcpy_all_rd by lia.
      replace (rd (received (len + 3) run) 0 =? len + 3) with false
        by (symmetry; apply Z.eqb_neq; exact Hne).
      replace (rd (received (len + 3) run) 0 =? 4) with false
        by (symmetry; apply Z.eqb_neq; exact Hne4).
      cbn [negb].
      eexists; split; [reflexivity|].
      repeat split; try exact Htmp'; cbn;
        auto using after_response_uart_rx, after_response_uart_tdr,
          after_response_current_opcode, after_response_ln_retry,
          after_response_retry_out, after_response_len_error_two,
          after_response_wdgtimeout.
    + (* a CRC that does not match *)
      unfold bind at 1, gets at 1.
      rewrite after_response_current_opcode.
      replace (current_opcode s =? OP_Info) with false
        by (symmetry; apply Z.eqb_neq; exact Hop).
      cbn [negb]. rewrite memcpy_all_rd by lia.
      replace (rd (received (len + 3) run) 0 =? len + 3) with true
        by (symmetry; apply Z.eqb_eq; exact Heq).
      cbn [negb].
      rewrite check_crc_received by assumption. rewrite Hcrc. cbn [negb].
      eexists; split; [reflexivity|].
      repeat split; try exact Htmp'; cbn;
        auto using after_response_uart_rx, after_response_uart_tdr,
          after_response_current_opcode, after_response_ln_retry,
          after_response_retry_out, after_response_len_error_two,
          after_response_wdgtimeout.
Qed.

Lemma attempt_error (len : Z) (data tmp : list Z) (s : state) :
  let run := hd [] (uart_rx s) in
  0 <= len -> lenZ tmp = len + 3 ->
  current_opcode s <> OP_Info ->
  4 <= received_count run ->
  rd (received (len + 3) run) 0 <> len + 3 ->
  rd (received (len + 3) run) 0 = 4 ->
  exists tmp',
    se_read_attempt len data tmp s
    = Some ((Return (-1) data, tmp'),
            after_error_frame (rd (received (len + 3) run) 1) s).
Proof.
  intros run Hlen Htmp Hop Hn Hne H4.
  pose proof (received_length (len + 3) run ltac:(lia)) as Hl.
  eexists.
  unfold se_read_attempt.
  erewrite bind_some by apply se_read_response_eq.
  cbv beta iota. fold run.
  replace (received_count run <? 4) with false by (symmetry; apply Z.ltb_ge; lia).
  unfold bind at 1, gets at 1.
  rewrite after_response_current_opcode.
  replace (current_opcode s =? OP_Info) with false
    by (symmetry; apply Z.eqb_neq; exact Hop).
  cbn [negb]. rewrite !memcpy_all_rd by lia.
  replace (rd (received (len + 3) run) 0 =? len + 3) with false
    by (symmetry; apply Z.eqb_neq; exact Hne).
  rewrite H4. cbn [negb Z.eqb Pos.eqb].
  unfold after_error_frame. fold run.
  destruct (rd (received (len + 3) run) 1 =? 238); reflexivity.
Qed.

Lemma attempt_valid (len : Z) (data tmp : list Z) (s : state) :
  let run := hd [] (uart_rx s) in
  0 <= len -> lenZ tmp = len + 3 -> len <= lenZ data ->
  valid_frame (current_opcode s) len run ->
  exists tmp',
    se_read_attempt len data tmp s
    = Some ((Return 0 (memcpy data (offs (received (len + 3) run) 1) len), tmp'),
            push_tdr (serialize_byte IOFLAG_IDLE) (after_response s)).
Proof.
  intros run Hlen Htmp Hdata (Hn & Hnl & Hv).
  pose proof (received_length (len + 3) run ltac:(lia)) as Hl.
  rewrite Hnl, Z.min_id in Hl.
  assert (Hsame : memcpy tmp (received (len + 3) run)
                         (lenZ (received (len + 3) run))
                  = received (len + 3) run).
  { apply memcpy_all_same. unfold lenZ in *. lia. }
  eexists.
  unfold se_read_attempt.
  erewrite bind_some by apply se_read_response_eq.
  cbv beta iota. fold run. rewrite Hsame.
  replace (received_count run <? 4) with false by (symmetry; apply Z.ltb_ge; lia).
  unfold bind at 1, gets at 1.
  rewrite after_response_current_opcode.
  assert (Hdeliver :
    se_read_deliver len data (received (len + 3) run) (received_count run)
                    (after_response s)
    = Some (Return 0 (memcpy data (offs (received (len + 3) run) 1) len),
            push_tdr (serialize_byte IOFLAG_IDLE) (after_response s))).
  { unfold se_read_deliver. rewrite Hnl.
    replace (len + 3 - 3) with len by lia.
    replace (len <=? len + 2) with true by (symmetry; apply Z.leb_le; lia).
    replace (len <=? lenZ data) with true by (symmetry; apply Z.leb_le; lia).
    cbn [andb]. erewrite bind_some by apply send_bits_tdr. reflexivity. }
  destruct Hv as [Hinfo|[Hf0 Hcrc]].
  - rewrite Hinfo, Z.eqb_refl. cbn [negb].
    erewrite bind_some by exact Hdeliver. reflexivity.
  - destruct (current_opcode s =? OP_Info); cbn [negb].
    + erewrite bind_some by exact Hdeliver. reflexivity.
    + rewrite Hf0, Z.eqb_refl. cbn [negb]. rewrite Hcrc. cbn [negb].
      erewrite bind_some by exact Hdeliver. reflexivity.
Qed.

(** ** FrameTransport: the retry loop *)

Lemma se_read_loop_S (n : nat) (len : Z) (data tmp : list Z) :
  se_read_loop (S n) len data tmp
  = ('(r, tmp) <- se_read_attempt len data tmp ;;
     match r with
     | Return rc data => ret (rc, data)
     | TryAgain =>
         incr ln_retry set_ln_retry ;;
         se_read_loop n len data tmp
     end).
Proof. reflexivity. Qed.

Lemma nth_tl {A : Type} (j : nat) (l : list A) (d : A) :
  nth j (tl l) d = nth (S j) l d.
Proof. destruct l; [destruct j|]; reflexivity. Qed.

Lemma tl_skipn {A : Type} (k : nat) (l : list A) : tl (skipn k l) = skipn (S k) l.
Proof.
  revert l. induction k as [|k IH]; intros l; [destruct l; reflexivity|].
  destruct l as [|x l]; [reflexivity|]. cbn [skipn] in *. apply IH.
Qed.

Lemma hd_nth_0 {A : Type} (l : list A) (d : A) : hd d l = nth 0 l d.
Proof. destruct l; reflexivity. Qed.

Lemma skipn_tl {A : Type} (k : nat) (l : list A) : skipn k (tl l) = skipn (S k) l.
Proof. destruct l; [destruct k|]; reflexivity. Qed.

Lemma se_read_loop_invalid (k : nat) :
  forall (n : nat) (len : Z) (data tmp : list Z) (s : state),
    0 <= len -> lenZ tmp = len + 3 ->
    (forall j, (j < k)%nat ->
               invalid_frame (current_opcode s) len (nth j (uart_rx s) [])) ->
    exists tmp' s',
      se_read_loop (k + n) len data tmp s = se_read_loop n len data tmp' s' /\
      lenZ tmp' = len + 3 /\
      retried k s s'.
Proof.
  induction k as [|k IH]; intros n len data tmp s Hlen Htmp Hinv.
  - exists tmp, s. split; [reflexivity|]. split; [exact Htmp|].
    unfold retried. cbn [skipn repeat concat bump_n Nat.iter].
    rewrite app_nil_r. repeat split.
  - destruct (attempt_invalid len data tmp s Hlen Htmp) as
      (tmp1 & s1 & Hatt & Htmp1 & Hrx & Htdr & Hop & Hln & Hro & Hle & Hwd).
    { rewrite hd_nth_0. apply Hinv. lia. }
    set (s2 := set_ln_retry (u32 (ln_retry s1 + 1)) s1).
    destruct (IH n len data tmp1 s2 Hlen Htmp1) as (tmp' & s' & Hloop & Htmp' & Hret).
    { intros j Hj. subst s2. cbn. rewrite Hop, Hrx, nth_tl. apply Hinv. lia. }
    exists tmp', s'. split; [|split; [exact Htmp'|]].
    + cbn [Nat.add se_read_loop].
      erewrite bind_some by exact Hatt. cbv beta iota.
      erewrite bind_some by apply incr_eq. exact Hloop.
    + destruct Hret as (Hrx' & Htdr' & Hop' & Hln' & Hro' & Hle' & Hwd').
      subst s2. cbn in Hrx', Htdr', Hop', Hln', Hro', Hle', Hwd'.
      unfold retried. repeat split.
      * rewrite Hrx', Hrx. apply skipn_tl.
      * rewrite Htdr', Htdr. cbn [repeat concat]. rewrite <- !app_assoc. reflexivity.
      * rewrite Hop'. exact Hop.
      * rewrite Hln', Hln. apply bump_n_S_inner.
      * rewrite Hro'. exact Hro.
      * rewrite Hle'. exact Hle.
      * rewrite Hwd'. exact Hwd.
Qed.

Lemma se_read_eq (data : list Z) (len : Z) (s : state) :
  is_byte len ->
  se_read data len s
  = se_read_loop 101 len data (uninit (Z.to_nat (1 + len + 2))) s.
Proof. intros H. unfold se_read. rewrite (u8_small len H). reflexivity. Qed.

Lemma uninit_tmp_length (len : Z) :
  0 <= len -> lenZ (uninit (Z.to_nat (1 + len + 2))) = len + 3.
Proof. intros H. unfold lenZ, uninit. rewrite repeat_length. lia. Qed.

Lemma tl_skipn_S {A : Type} (k : nat) :
  forall l : list A, tl (skipn k l) = skipn (S k) l.
Proof.
  induction k as [|k IH]; intros [|x l]; try reflexivity.
  cbn [skipn]. apply IH.
Qed.

(** C7. The command in flight is not Info; the first [k] runs on the line,
    for any [k] up to 100, are invalid, and the next response has at least
    four bytes, its length byte differing from [len + 3].  If that length
    byte is 4, [se_read] returns -1 on this pass, whichever of the 101 it
    is: the rest of the line is left unread, the [k] passes before it are
    the only retries counted and no exhausted budget is, the error-frame
    counter goes up by one, and the watchdog counter goes up exactly when
    the second byte is 0xEE.  If the length byte is anything else, the frame
    is not delivered: the pass is counted as one more retry, neither the
    error-frame counter nor the watchdog counter moves, and the call goes on
    with the [100 - k] passes that remain. *)
Theorem read_length_mismatch (s : state) (data : list Z) (len : Z) (k : nat) :
  let run := nth k (uart_rx s) [] in
  let n := received_count run in
  let f := received (len + 3) run in
  is_byte len -> current_opcode s <> OP_Info ->
  (k <= 100)%nat ->
  (forall j, (j < k)%nat ->
             invalid_frame (current_opcode s) len (nth j (uart_rx s) [])) ->
  4 <= n -> rd f 0 <> len + 3 ->
  (rd f 0 = 4 ->
   exists s',
     se_read data len s = Some ((-1, data), s') /\
     uart_rx s' = skipn (S k) (uart_rx s) /\
     ln_retry s' = bump_n k (ln_retry s) /\
     retry_out s' = retry_out s /\
     len_error_two s' = u32 (len_error_two s + 1) /\
     wdgtimeout s' = (if rd f 1 =? 0xEE then u32 (wdgtimeout s + 1)
                      else wdgtimeout s))
  /\
  (rd f 0 <> 4 ->
   exists tmp' s1,
     se_read data len s = se_read_loop (100 - k) len data tmp' s1 /\
     uart_rx s1 = skipn (S k) (uart_rx s) /\
     ln_retry s1 = bump_n (S k) (ln_retry s) /\
     retry_out s1 = retry_out s /\
     len_error_two s1 = len_error_two s /\
     wdgtimeout s1 = wdgtimeout s).
Proof.
  intros run n f Hlen Hop Hk Hinv Hn Hne.
  unfold se_read. rewrite (u8_small len) by exact Hlen.
  unfold is_byte in Hlen.
  pose proof (uninit_tmp_length len ltac:(lia)) as Htmp.
  split; intros H4.
  - destruct (se_read_loop_invalid k (101 - k) len data _ s ltac:(lia) Htmp Hinv)
      as (tmp1 & s1 & Hloop & Htmp1 & Hrx & _ & Hop1 & Hln & Hro & Hle & Hwd).
    assert (Hhd : hd [] (uart_rx s1) = run).
    { rewrite Hrx, hd_nth_0, nth_skipn, Nat.add_0_r. reflexivity. }
    rewrite <- Hop1 in Hop.
    destruct (attempt_error len data tmp1 s1 ltac:(lia) Htmp1 Hop) as (tmp' & Hatt);
      [rewrite Hhd; assumption ..|].
    rewrite Hhd in Hatt. fold f in Hatt.
    exists (after_error_frame (rd f 1) s1). split.
    + replace 101%nat with (k + (101 - k))%nat by lia. rewrite Hloop.
      replace (101 - k)%nat with (S (100 - k)) by lia. rewrite se_read_loop_S.
      erewrite bind_some by exact Hatt. reflexivity.
    + rewrite <- Hln, <- Hro, <- Hle, <- Hwd, <- tl_skipn_S, <- Hrx.
      unfold after_error_frame.
      destruct (rd f 1 =? 238); cbn;
        rewrite ?after_response_uart_rx, ?after_response_ln_retry,
          ?after_response_retry_out, ?after_response_len_error_two,
          ?after_response_wdgtimeout; repeat split.
  - destruct (se_read_loop_invalid (S k) (100 - k) len data _ s ltac:(lia) Htmp)
      as (tmp' & s1 & Hloop & _ & Hrx & _ & _ & Hln & Hro & Hle & Hwd).
    { intros j Hj. destruct (Nat.eq_dec j k) as [->|Hjk].
      - right. left. repeat split; assumption.
      - apply Hinv. lia. }
    exists tmp', s1.
    replace 101%nat with (S k + (100 - k))%nat by lia.
    repeat split; assumption.
Qed.

(** C8. If each of the first 101 runs on the line is invalid (a line that
    has gone silent counts as empty runs), [se_read] returns -1 after exactly
    101 passes: 101 requests for output have been sent, 101 runs consumed,
    101 retries and one exhausted budget counted.  If instead the first [k]
    runs ([k <= 100]) are invalid and the next one is a valid frame,
    [se_read] returns 0 with its payload after [k + 1] passes and leaves the
    rest of the line unread. *)
Theorem read_retry_budget (s : state) (data : list Z) (len : Z) (k : nat) :
  is_byte len ->
  ((forall j, (j < 101)%nat ->
              invalid_frame (current_opcode s) len (nth j (uart_rx s) [])) ->
   exists s',
     se_read data len s = Some ((-1, data), s') /\
     uart_rx s' = skipn 101 (uart_rx s) /\
     uart_tdr s' = uart_tdr s ++ concat (repeat (serialize_byte IOFLAG_TX) 101) /\
     ln_retry s' = u32 (ln_retry s + 101) /\
     retry_out s' = u32 (retry_out s + 1))
  /\
  ((k <= 100)%nat ->
   (forall j, (j < k)%nat ->
              invalid_frame (current_opcode s) len (nth j (uart_rx s) [])) ->
   valid_frame (current_opcode s) len (nth k (uart_rx s) []) ->
   len <= lenZ data ->
   exists s',
     se_read data len s
     = Some ((0, memcpy data (offs (received (len + 3) (nth k (uart_rx s) [])) 1) len),
             s') /\
     uart_rx s' = skipn (S k) (uart_rx s) /\
     uart_tdr s' = uart_tdr s
                   ++ concat (repeat (serialize_byte IOFLAG_TX) (S k))
                   ++ serialize_byte IOFLAG_IDLE /\
     ln_retry s' = bump_n k (ln_retry s) /\
     retry_out s' = retry_out s).
Proof.
  intros Hlen.
  unfold se_read. rewrite (u8_small len) by exact Hlen.
  unfold is_byte in Hlen.
  pose proof (uninit_tmp_length len ltac:(lia)) as Htmp.
  split.
  - intros Hinv.
    destruct (se_read_loop_invalid 101 0 len data _ s ltac:(lia) Htmp Hinv)
      as (tmp' & s1 & Hloop & _ & Hrx & Htdr & _ & Hln & Hro & _).
    exists (set_retry_out (u32 (retry_out s1 + 1)) s1). split.
    + change 101%nat with (101 + 0)%nat. rewrite Hloop. reflexivity.
    + state_simpl. rewrite Hrx, Htdr, Hln, Hro, bump_n_pos. repeat split.
  - intros Hk Hinv Hvalid Hdata.
    destruct (se_read_loop_invalid k (101 - k) len data _ s ltac:(lia) Htmp Hinv)
      as (tmp' & s1 & Hloop & Htmp' & Hrx & Htdr & Hop & Hln & Hro & _).
    assert (Hhd : hd [] (uart_rx s1) = nth k (uart_rx s) []).
    { rewrite Hrx, hd_nth_0, nth_skipn, Nat.add_0_r. reflexivity. }
    destruct (attempt_valid len data tmp' s1 ltac:(lia) Htmp' Hdata) as (tmp2 & Hatt).
    { rewrite Hop, Hhd. exact Hvalid. }
    rewrite Hhd in Hatt.
    eexists. split.
    + replace 101%nat with (k + (101 - k))%nat by lia. rewrite Hloop.
      replace (101 - k)%nat with (S (100 - k)) by lia.
      cbn [se_read_loop]. erewrite bind_some by exact Hatt. reflexivity.
    + state_simpl. rewrite after_response_uart_rx, after_response_uart_tdr,
        after_response_ln_retry, after_response_retry_out.
      rewrite Hrx, Htdr, Hln, Hro, tl_skipn.
      repeat split.
      replace (S k) with (k + 1)%nat by lia.
      rewrite repeat_app, concat_app. cbn [repeat concat].
      rewrite app_nil_r, <- !app_assoc. reflexivity.
Qed.

(** ** FrameTransport: reading a single byte *)

(** With [len = 1] no pass of the loop takes the error-frame exit. *)
Lemma attempt_one_byte (data tmp tmp' : list Z) (s s1 : state) (r : attempt) :
  se_read_attempt 1 data tmp s = Some ((r, tmp'), s1) ->
  len_error_two s1 = len_error_two s /\
  wdgtimeout s1 = wdgtimeout s /\
  retry_out s1 = retry_out s /\
  (r = TryAgain \/ exists d, r = Return 0 d).
Proof.
  unfold se_read_attempt.
  erewrite bind_some by apply se_read_response_eq.
  cbv beta iota. change (1 + 3) with 4.
  set (f := memcpy tmp _ _). set (n := received_count _).
  destruct (n <? 4).
  - destruct (n =? 0); intros H; injection H as <- <- <-; state_simpl;
      rewrite after_response_len_error_two, after_response_wdgtimeout,
        after_response_retry_out; repeat split; auto.
  - unfold bind at 1, gets at 1.
    assert (Hd : forall r0 s0,
               se_read_deliver 1 data f n (after_response s) = Some (r0, s0) ->
               len_error_two s0 = len_error_two s /\
               wdgtimeout s0 = wdgtimeout s /\
               retry_out s0 = retry_out s /\
               (r0 = TryAgain \/ exists d, r0 = Return 0 d)).
    { intros r0 s0. unfold se_read_deliver.
      destruct (_ && _); [|discriminate].
      erewrite bind_some by apply send_bits_tdr.
      intros H; injection H as <- <-; state_simpl.
      rewrite after_response_len_error_two, after_response_wdgtimeout,
        after_response_retry_out. repeat split; eauto. }
    destruct (negb (current_opcode (after_response s) =? OP_Info)).
    + destruct (rd f 0 =? 4) eqn:E4; cbn [negb].
      * destruct (negb (check_crc f n)).
        -- intros H; injection H as <- <- <-; state_simpl.
           rewrite after_response_len_error_two, after_response_wdgtimeout,
             after_response_retry_out. repeat split; auto.
        -- unfold bind at 1.
           destruct (se_read_deliver 1 data f n (after_response s))
             as [[r0 s0]|] eqn:E; [|discriminate].
           intros H; injection H as <- <- <-. eapply Hd. reflexivity.
      * erewrite bind_some by apply incr_eq.
        intros H; injection H as <- <- <-; state_simpl.
        rewrite after_response_len_error_two, after_response_wdgtimeout,
          after_response_retry_out. repeat split; auto.
    + unfold bind at 1.
      destruct (se_read_deliver 1 data f n (after_response s))
        as [[r0 s0]|] eqn:E; [|discriminate].
      intros H; injection H as <- <- <-. eapply Hd. reflexivity.
Qed.

Lemma se_read_loop_one_byte (n : nat) :
  forall (data tmp d : list Z) (s s' : state) (rc : Z),
    se_read_loop n 1 data tmp s = Some ((rc, d), s') ->
    len_error_two s' = len_error_two s /\
    wdgtimeout s' = wdgtimeout s /\
    (rc = 0 /\ retry_out s' = retry_out s \/
     rc = -1 /\ retry_out s' = u32 (retry_out s + 1)).
Proof.
  induction n as [|n IH]; intros data tmp d s s' rc; cbn [se_read_loop].
  - erewrite bind_some by apply incr_eq.
    intros H; injection H as <- <- <-; state_simpl. repeat split; auto.
  - unfold bind at 1.
    destruct (se_read_attempt 1 data tmp s) as [[[r tmp1] s1]|] eqn:Hatt;
      [|discriminate].
    apply attempt_one_byte in Hatt.
    destruct Hatt as (Hle & Hwd & Hro & [->|[d0 ->]]).
    + erewrite bind_some by apply incr_eq. intros H. apply IH in H.
      revert H. state_simpl. rewrite Hle, Hwd, Hro. auto.
    + intros H; injection H as <- <- <-. repeat split; auto.
Qed.

(** ** FrameTransport: a read only ever adds to what has been sent *)

Lemma attempt_tdr (len : Z) (data tmp tmp' : list Z) (s s1 : state) (r : attempt) :
  se_read_attempt len data tmp s = Some ((r, tmp'), s1) ->
  exists tail, uart_tdr s1 = uart_tdr s ++ tail.
Proof.
  unfold se_read_attempt.
  erewrite bind_some by apply se_read_response_eq.
  cbv beta iota.
  set (f := memcpy tmp _ _). set (n := received_count _).
  assert (Hd : forall r0 s0,
             se_read_deliver len data f n (after_response s) = Some (r0, s0) ->
             exists tail, uart_tdr s0 = uart_tdr s ++ tail).
  { intros r0 s0. unfold se_read_deliver.
    destruct (_ && _); [|discriminate].
    erewrite bind_some by apply send_bits_tdr.
    intros H; injection H as <- <-; state_simpl.
    rewrite after_response_uart_tdr, <- app_assoc. eauto. }
  assert (Hr : exists tail, uart_tdr (after_response s) = uart_tdr s ++ tail)
    by (rewrite after_response_uart_tdr; eauto).
  destruct (n <? 4).
  - destruct (n =? 0); intros H; injection H as <- <- <-; state_simpl; exact Hr.
  - unfold bind at 1, gets at 1.
    destruct (negb (current_opcode (after_response s) =? OP_Info)).
    + destruct (negb (rd f 0 =? len + 3)).
      * erewrite bind_some by apply incr_eq.
        destruct (rd f 0 =? 4).
        -- erewrite bind_some by apply incr_eq.
           destruct (rd f 1 =? 238);
             intros H; injection H as <- <- <-; state_simpl; exact Hr.
        -- intros H; injection H as <- <- <-; state_simpl; exact Hr.
      * destruct (negb (check_crc f n)).
        -- intros H; injection H as <- <- <-; state_simpl; exact Hr.
        -- unfold bind at 1.
           destruct (se_read_deliver len data f n (after_response s))
             as [[r0 s0]|] eqn:E; [|discriminate].
           intros H; injection H as <- <- <-. eapply Hd. reflexivity.
    + unfold bind at 1.
      destruct (se_read_deliver len data f n (after_response s))
        as [[r0 s0]|] eqn:E; [|discriminate].
      intros H; injection H as <- <- <-. eapply Hd. reflexivity.
Qed.

Lemma se_read_loop_tdr (n : nat) :
  forall (len : Z) (data tmp : list Z) (s s' : state) (r : Z * list Z),
    se_read_loop n len data tmp s = Some (r, s') ->
    exists tail, uart_tdr s' = uart_tdr s ++ tail.
Proof.
  induction n as [|n IH]; intros len data tmp s s' r; cbn [se_read_loop].
  - erewrite bind_some by apply incr_eq.
    intros H; injection H as <- <-; state_simpl. exists []. symmetry. apply app_nil_r.
  - unfold bind at 1.
    destruct (se_read_attempt len data tmp s) as [[[a tmp1] s1]|] eqn:Hatt;
      [|discriminate].
    apply attempt_tdr in Hatt. destruct Hatt as [t1 Ht1].
    destruct a as [rc d|].
    + intros H; injection H as <- <-. eauto.
    + erewrite bind_some by apply incr_eq. intros H. apply IH in H.
      destruct H as [t2 Ht2]. revert Ht2. state_simpl. intros ->.
      rewrite Ht1, <- app_assoc. eauto.
Qed.

Lemma se_read1_tdr (s s' : state) (r : Z) :
  se_read1 s = Some (r, s') -> exists tail, uart_tdr s' = uart_tdr s ++ tail.
Proof.
  unfold se_read1, se_read. unfold bind at 1.
  destruct (se_read_loop _ _ _ _ s) as [[[rc d] s1]|] eqn:E; [|discriminate].
  apply se_read_loop_tdr in E.
  destruct (rc <? 0); intros H; injection H as <- <-; exact E.
Qed.

End ReadFacts.

(** ** FrameTransport: the command frame *)

Lemma serialize_app (l1 l2 : list Z) :
  serialize (l1 ++ l2) = serialize l1 ++ serialize l2.
Proof. unfold serialize. apply flat_map_app. Qed.

Lemma se_crc16_chain_zero (data crc : list Z) :
  bytes crc -> length crc = 2%nat -> CRC.se_crc16_chain 0 data crc = crc.
Proof.
  intros Hb Hl.
  destruct crc as [|c0 [|c1 [|? ?]]]; try discriminate.
  unfold bytes in Hb. apply Forall_cons_iff in Hb. destruct Hb as [H0 Hb].
  apply Forall_cons_iff in Hb. destruct Hb as [H1 _]. unfold is_byte in *.
  unfold CRC.se_crc16_chain. change (u8 0) with 0. cbn [CRC.crc_bytes Z.ltb Z.compare].
  change (rd [c0; c1] 0) with c0. change (rd [c0; c1] 1) with c1.
  set (r := u16 _).
  assert (Hr : r = c0 + 256 * c1).
  { subst r. change 255 with (Z.ones 8).
    rewrite Z.land_ones, Z.shiftl_mul_pow2 by lia.
    rewrite (Z.mod_small c0) by (change (2 ^ 8) with 256; lia).
    change (2 ^ 8) with 256.
    assert (Hd : Z.land c0 (c1 * 256) = 0).
    { change 256 with (2 ^ 8). rewrite <- Z.shiftl_mul_pow2 by lia.
      apply Z.bits_inj'. intros n Hn.
      rewrite Z.land_spec, Z.bits_0.
      destruct (Z.ltb_spec n 8).
      - rewrite Z.shiftl_spec, (Z.testbit_neg_r _ (n - 8)) by lia.
        apply andb_false_r.
      - replace (Z.testbit c0 n) with false; [reflexivity|].
        symmetry. apply Z.bits_above_log2; [lia|].
        destruct (Z.eq_dec c0 0) as [->|Hnz]; [cbn; lia|].
        apply Z.log2_lt_pow2; [lia|].
        apply Z.lt_le_trans with (2 ^ 8); [change (2 ^ 8) with 256; lia|].
        apply Z.pow_le_mono_r; lia. }
    rewrite <- Z.lxor_lor, <- Z.add_nocarry_lxor by exact Hd.
    rewrite u16_small; lia. }
  rewrite Hr. replace (c0 + 256 * c1) with (c0 + c1 * 256) by lia.
  f_equal; [|f_equal].
  - change 255 with (Z.ones 8). rewrite Z.land_ones by lia.
    change (2 ^ 8) with 256. unfold u8. rewrite Z.mod_mod by lia.
    rewrite Z_mod_plus_full. apply Z.mod_small. lia.
  - rewrite Z.shiftr_div_pow2 by lia. change (2 ^ 8) with 256.
    rewrite Z_div_plus_full by lia.
    rewrite (Z.div_small c0) by lia. apply u8_small. lia.
Qed.

Lemma se_crc16_chain_bytes (n : Z) (data crc : list Z) :
  bytes (CRC.se_crc16_chain n data crc) /\
  length (CRC.se_crc16_chain n data crc) = 2%nat.
Proof.
  unfold CRC.se_crc16_chain. split; [|reflexivity].
  repeat constructor; apply u8_range.
Qed.

(** [se_write] in closed form. *)
Lemma se_write_tdr (opcode p1 p2 : Z) (data : list Z) (data_len : Z) (s : state) :
  u8 data_len <= lenZ data ->
  se_write opcode p1 p2 data data_len s
  = Some (tt, push_tdr (0 :: serialize (command_frame opcode p1 p2 data data_len))
                       (set_current_opcode opcode s)).
Proof.
  intros Hlen. pose proof (u8_range data_len) as Hr.
  unfold se_write, command_frame.
  set (known := [IOFLAG_CMD; _; _; _; _; _]).
  set (crc5 := CRC.se_crc16_chain (6 - 1) (offs known 1) [0; 0]).
  change (6 - 1) with 5 in crc5.
  unfold bind at 1, modify at 1.
  unfold se_wake. rewrite bind_assoc.
  erewrite bind_some by apply send_byte_tdr. rewrite bind_ret_l.
  erewrite bind_some by (apply send_serialized_tdr; unfold lenZ; cbn; lia).
  change (firstn (Z.to_nat 6) known) with known.
  rewrite push_tdr_push.
  destruct (se_crc16_chain_bytes 5 (offs known 1) [0; 0]) as [Hb5 Hl5].
  fold crc5 in Hb5, Hl5.
  destruct (Z.eqb_spec (u8 data_len) 0) as [Hz|Hnz]; cbn [negb].
  - rewrite Hz. change (Z.to_nat 0) with O. cbn [firstn app].
    rewrite se_crc16_chain_zero by assumption.
    erewrite send_serialized_tdr by (unfold lenZ; rewrite Hl5; lia).
    change (Z.to_nat 2) with 2%nat. rewrite <- Hl5, firstn_all.
    rewrite push_tdr_push. rewrite serialize_app.
    reflexivity.
  - erewrite bind_some by (apply send_serialized_tdr; lia).
    destruct (se_crc16_chain_bytes (u8 data_len) data crc5) as [Hb Hl].
    erewrite send_serialized_tdr by (unfold lenZ; rewrite Hl; lia).
    change (Z.to_nat 2) with 2%nat. rewrite <- Hl, firstn_all.
    rewrite !push_tdr_push, !serialize_app. cbn [app].
    rewrite <- ?app_assoc. reflexivity.
Qed.

(** ** AuthProtocol: the steps of each exchange *)

Section AuthFacts.
Context {seh : se_h} {sha : sha256_h} {secrets : secrets_h}.

Lemma memcpy_full (dst src : list Z) (n : nat) :
  length src = n -> length dst = n -> memcpy dst src (Z.of_nat n) = src.
Proof.
  intros Hs Hd. unfold memcpy. rewrite Nat2Z.id.
  rewrite <- Hs at 1. rewrite firstn_all, <- Hd, skipn_all. apply app_nil_r.
Qed.

Lemma firstn_exact (l : list Z) (n : nat) : length l = n -> firstn n l = l.
Proof. intros <-. apply firstn_all. Qed.

Lemma rng_buffer_eq (n : nat) (s : state) :
  rng_buffer n s = Some (rng_next n s, rng_after n s).
Proof. reflexivity. Qed.

Lemma rng_next_length (n : nat) (s : state) : length (rng_next n s) = n.
Proof.
  unfold rng_next, zeros. rewrite length_firstn, length_app, repeat_length. lia.
Qed.

Lemma se_sleep_eq (s : state) :
  se_sleep s = Some (tt, push_tdr (serialize_byte IOFLAG_SLEEP) s).
Proof. apply send_bits_tdr. Qed.

(** [se_pick_nonce], given what the Nonce command and the read of its
    response do. *)
Lemma se_pick_nonce_eq (num_in tempkey randout : list Z) (rc : Z) (s s1 : state) :
  (se_write OP_Nonce 0 0 num_in 20 ;; se_read (uninit 32) 32) s
  = Some ((rc, randout), s1) ->
  se_pick_nonce num_in tempkey s
  = Some (if rc <? 0 then (-1, tempkey)
          else (0, memcpy tempkey
                     (SHA256 (firstn 32 randout ++ firstn 20 num_in ++ [0x16; 0; 0]))
                     32),
          asleep s1).
Proof.
  intros H. unfold se_pick_nonce.
  rewrite <- bind_assoc. erewrite bind_some by exact H. cbv beta iota.
  erewrite bind_some by apply se_sleep_eq.
  destruct (rc <? 0); [reflexivity|].
  unfold sha256_update, sha256_init, sha256_final, ret.
  cbn [app]. rewrite <- app_assoc. reflexivity.
Qed.

(** What [se_pick_nonce] can return at all. *)
Lemma se_pick_nonce_inv (num_in tempkey tk : list Z) (rc : Z) (s s' : state) :
  se_pick_nonce num_in tempkey s = Some ((rc, tk), s') ->
  (rc = -1 /\ tk = tempkey) \/
  (rc = 0 /\ exists m, tk = memcpy tempkey (SHA256 m) 32).
Proof.
  unfold se_pick_nonce. rewrite <- bind_assoc. unfold bind at 1.
  destruct ((se_write OP_Nonce 0 0 num_in 20;; se_read (uninit 32) 32) s)
    as [[[rc0 randout] s1]|] eqn:E; [|discriminate].
  erewrite bind_some by apply se_sleep_eq.
  destruct (rc0 <? 0); intros H; injection H as <- <- <-; eauto.
Qed.

Lemma nonce_tempkey_length (tk : list Z) (m : list Z) :
  tk = memcpy (uninit 32) (SHA256 m) 32 -> tk = SHA256 m.
Proof.
  intros ->. apply (memcpy_full _ _ 32); [apply SHA256_length | reflexivity].
Qed.

(** [se_gendig_slot], given what the nonce exchange, the GenDig command and
    the read of its one-byte response do. *)
Lemma se_gendig_slot_eq (slot_num : Z) (slot_contents digest tempkey : list Z)
                        (rc1 : Z) (s s1 s2 : state) :
  se_pick_nonce (rng_next 20 s) (uninit 32) (rng_after 20 s)
  = Some ((0, tempkey), s1) ->
  (se_write OP_GenDig 0x2 slot_num [] 0 ;; se_read1) s1 = Some (rc1, s2) ->
  se_gendig_slot slot_num slot_contents digest s
  = Some (if rc1 =? 0
          then (0, memcpy digest
                     (SHA256 (firstn 32 slot_contents
                              ++ [u8 OP_GenDig; 2; u8 slot_num; 0; 0xEE; 0x01; 0x23]
                              ++ zeros 25 ++ firstn 32 tempkey))
                     32)
          else (-1, digest),
          asleep s2).
Proof.
  intros Hn Hg. unfold se_gendig_slot.
  erewrite bind_some by apply rng_buffer_eq.
  erewrite bind_some by exact Hn. cbv beta iota.
  change (0 <? 0) with false. cbv beta iota.
  rewrite <- bind_assoc. erewrite bind_some by exact Hg.
  erewrite bind_some by apply se_sleep_eq.
  destruct (rc1 =? 0); cbn [negb]; [|reflexivity].
  unfold sha256_update, sha256_init, sha256_final, ret.
  cbn [app]. rewrite <- !app_assoc. reflexivity.
Qed.

(** [se_checkmac], given what the nonce exchange, the CheckMac command and
    the read of its one-byte response do. *)
Lemma se_checkmac_eq (keynum : Z) (secret tempkey : list Z) (rc1 : Z)
                     (s s1 s2 : state) :
  let od := rng_next 32 s in
  let s0 := rng_after 32 s in
  se_pick_nonce (rng_next 20 s0) (uninit 32) (rng_after 20 s0)
  = Some ((0, tempkey), s1) ->
  (se_write OP_CheckMac 0x01 (u8 keynum)
            (checkmac_request secret tempkey od) 77 ;;
   se_read1) s1 = Some (rc1, s2) ->
  se_checkmac keynum secret s
  = Some (if rc1 =? 0 then 0 else -2, asleep s2).
Proof.
  intros od s0 Hn Hc. unfold se_checkmac. cbv zeta.
  erewrite bind_some by apply rng_buffer_eq.
  erewrite bind_some by apply rng_buffer_eq.
  fold od s0. erewrite bind_some by exact Hn. cbv beta iota.
  change (0 <? 0) with false. cbv beta iota.
  unfold sha256_update, sha256_init, sha256_final, offs.
  change (Z.to_nat 0) with 0%nat. change (Z.to_nat 4) with 4%nat.
  change (Z.to_nat 7) with 7%nat. change (Z.to_nat 11) with 11%nat.
  change (Z.to_nat 32) with 32%nat. change (Z.to_nat 8) with 8%nat.
  change (Z.to_nat 3) with 3%nat. change (Z.to_nat 2) with 2%nat.
  change (Z.to_nat 1) with 1%nat.
  change (skipn 0 od) with od. cbn [app].
  assert (Hreq :
    memcpy (uninit 32) copyright_msg 32
    ++ memcpy (uninit 32)
         (SHA256 ((((((((firstn 32 secret ++ firstn 32 tempkey) ++ firstn 4 od)
                       ++ firstn 8 (zeros 8)) ++ firstn 3 (skipn 4 od))
                     ++ firstn 1 [238]) ++ firstn 4 (skipn 7 od))
                   ++ firstn 2 [1; 35]) ++ firstn 2 (skipn 11 od))) 32
    ++ memcpy (uninit 13) od 13
    = checkmac_request secret tempkey od).
  { unfold checkmac_request.
    rewrite (memcpy_full (uninit 32) (SHA256 _) 32)
      by (apply SHA256_length || reflexivity).
    change (memcpy (uninit 32) copyright_msg 32)
      with (firstn 32 copyright_msg ++ []).
    change (memcpy (uninit 13) od 13) with (firstn 13 od ++ []).
    rewrite !app_nil_r, <- !app_assoc. reflexivity. }
  rewrite Hreq.
  rewrite <- bind_assoc. erewrite bind_some by exact Hc.
  erewrite bind_some by apply se_sleep_eq.
  destruct (rc1 =? 0); reflexivity.
Qed.

Lemma se_checkmac_nonce_failed (keynum : Z) (secret tempkey : list Z) (rc : Z)
                               (s s1 : state) :
  let s0 := rng_after 32 s in
  se_pick_nonce (rng_next 20 s0) (uninit 32) (rng_after 20 s0)
  = Some ((rc, tempkey), s1) ->
  rc < 0 ->
  se_checkmac keynum secret s = Some (-1, s1).
Proof.
  intros s0 Hn Hrc. unfold se_checkmac. cbv zeta.
  erewrite bind_some by apply rng_buffer_eq.
  erewrite bind_some by apply rng_buffer_eq.
  fold s0. erewrite bind_some by exact Hn. cbv beta iota.
  replace (rc <? 0) with true by (symmetry; apply Z.ltb_lt; exact Hrc).
  reflexivity.
Qed.

End AuthFacts.

(** ** AuthProtocol: the nonce, the digest and the CheckMac result *)

Section AuthClaims.
Context {seh : se_h} {sha : sha256_h} {secrets : secrets_h}.

Lemma opcode_bytes :
  u8 OP_GenDig = OP_GenDig /\ u8 OP_Write = OP_Write.
Proof.
  pose proof seopcode_byte as H.
  repeat match goal with
         | H : Forall _ (_ :: _) |- _ =>
             apply Forall_cons_iff in H; let Hx := fresh "Hx" in destruct H as [Hx H]
         end.
  split; apply u8_small; assumption.
Qed.

(** C2. Whenever the Nonce exchange hands back the chip's 32 random bytes
    [randout], [se_pick_nonce] succeeds and the tempkey it returns is
    SHA256(randout || num_in || 0x16 0x00 0x00).  The result is a function of
    [randout] and [num_in] alone: a second run, from any other state and into
    any other buffer, that reads the same [randout] for the same [num_in]
    returns the same tempkey. *)
Theorem pick_nonce_tempkey (num_in randout tempkey tempkey' : list Z)
                           (s s1 t t1 : state) :
  length num_in = 20%nat -> length randout = 32%nat ->
  length tempkey = 32%nat -> length tempkey' = 32%nat ->
  (se_write OP_Nonce 0 0 num_in 20 ;; se_read (uninit 32) 32) s
  = Some ((0, randout), s1) ->
  (se_write OP_Nonce 0 0 num_in 20 ;; se_read (uninit 32) 32) t
  = Some ((0, randout), t1) ->
  se_pick_nonce num_in tempkey s
  = Some ((0, SHA256 (randout ++ num_in ++ [0x16; 0; 0])), asleep s1) /\
  se_pick_nonce num_in tempkey' t
  = Some ((0, SHA256 (randout ++ num_in ++ [0x16; 0; 0])), asleep t1).
Proof.
  intros Hnum Hrand Htk Htk' Hs Ht.
  rewrite (se_pick_nonce_eq _ tempkey _ _ _ _ Hs).
  rewrite (se_pick_nonce_eq _ tempkey' _ _ _ _ Ht).
  change (0 <? 0) with false. cbv iota.
  rewrite (firstn_exact randout 32 Hrand), (firstn_exact num_in 20 Hnum).
  rewrite !(memcpy_full _ _ 32) by (apply SHA256_length || assumption).
  split; reflexivity.
Qed.

(** C3. When the nonce exchange succeeds with [tempkey] and the chip answers
    the GenDig command with the single byte 0, [se_gendig_slot] returns the
    digest SHA256(slot_contents || GenDig 02 slot_num 00 EE 01 23 ||
    25 zero bytes || tempkey).  The slot number enters the message as one
    byte, which is [slot_num] itself for every slot number below 256. *)
Theorem gendig_slot_digest (slot_num : Z) (slot_contents digest tempkey : list Z)
                           (s s1 s2 : state) :
  length slot_contents = 32%nat -> length digest = 32%nat ->
  se_pick_nonce (rng_next 20 s) (uninit 32) (rng_after 20 s)
  = Some ((0, tempkey), s1) ->
  (se_write OP_GenDig 0x2 slot_num [] 0 ;; se_read1) s1 = Some (0, s2) ->
  se_gendig_slot slot_num slot_contents digest s
  = Some ((0, SHA256 (slot_contents
                      ++ [OP_GenDig; 2; u8 slot_num; 0; 0xEE; 0x01; 0x23]
                      ++ zeros 25 ++ tempkey)),
          asleep s2)
  /\ (0 <= slot_num < 256 -> u8 slot_num = slot_num).
Proof.
  intros Hslot Hdig Hn Hg. split; [|apply u8_small].
  rewrite (se_gendig_slot_eq _ slot_contents digest _ _ _ _ _ Hn Hg).
  change (0 =? 0) with true. cbv iota.
  destruct (se_pick_nonce_inv _ _ _ _ _ _ Hn) as [[Hc _]|[_ [m Hm]]]; [lia|].
  apply nonce_tempkey_length in Hm.
  assert (Htk : length tempkey = 32%nat) by (rewrite Hm; apply SHA256_length).
  rewrite (firstn_exact slot_contents 32 Hslot), (firstn_exact tempkey 32 Htk).
  rewrite (memcpy_full _ _ 32) by (apply SHA256_length || assumption).
  rewrite (proj1 opcode_bytes). reflexivity.
Qed.

(** C1, as the code has it.  [se_checkmac] returns -1 exactly when the nonce
    exchange fails.  Once the nonce exchange has succeeded, the result is
    decided by what [se_read1] gives for the response to the CheckMac
    command: 0 if it is 0, and -2 for every other value -- an error code sent
    by the chip, or the -1 with which [se_read1] reports that the response
    could not be read. *)
Theorem checkmac_result_codes (keynum : Z) (secret tempkey : list Z) (rc : Z)
                              (s s1 : state) :
  let od := rng_next 32 s in
  let s0 := rng_after 32 s in
  se_pick_nonce (rng_next 20 s0) (uninit 32) (rng_after 20 s0)
  = Some ((rc, tempkey), s1) ->
  (rc < 0 -> se_checkmac keynum secret s = Some (-1, s1)) /\
  (0 <= rc ->
   forall rc1 s2,
     (se_write OP_CheckMac 0x01 (u8 keynum)
               (checkmac_request secret tempkey od) 77 ;;
      se_read1) s1 = Some (rc1, s2) ->
     se_checkmac keynum secret s
     = Some ((if rc1 =? 0 then 0 else -2), asleep s2)).
Proof.
  intros od s0 Hn. split.
  - intros Hrc. eapply se_checkmac_nonce_failed; eassumption.
  - intros Hrc rc1 s2 Hc.
    destruct (se_pick_nonce_inv _ _ _ _ _ _ Hn) as [[Hc1 _]|[Hc0 _]]; [lia|].
    subst rc. eapply se_checkmac_eq; eassumption.
Qed.

End AuthClaims.

(** ** AuthProtocol: the encrypted write *)

Section WriteFacts.
Context {seh : se_h} {sha : sha256_h} {secrets : secrets_h}.

Lemma xor_check_all : forallb xor_check (map Z.of_nat (seq 0 256)) = true.
Proof. vm_compute. reflexivity. Qed.

Lemma lxor_byte (a b : Z) : is_byte a -> is_byte b -> is_byte (Z.lxor a b).
Proof.
  intros Ha Hb.
  pose proof (forall_bytes xor_check xor_check_all a Ha) as H.
  unfold xor_check in H.
  pose proof (forall_bytes _ H b Hb) as H'. cbv beta in H'.
  apply andb_true_iff in H'. destruct H' as [H1 H2].
  apply Z.leb_le in H1. apply Z.ltb_lt in H2. split; assumption.
Qed.

Lemma xor_loop_combine (data : list Z) :
  forall (digest pre1 pre2 : list Z),
    length pre1 = length pre2 -> length data = length digest ->
    bytes data -> bytes digest ->
    xor_loop (length data) (lenZ pre1) (pre1 ++ data) (pre2 ++ digest)
    = xor_bytes data digest.
Proof.
  induction data as [|a data IH]; intros digest pre1 pre2 Hpre Hlen Hda Hdi.
  - reflexivity.
  - destruct digest as [|b digest]; [discriminate|].
    apply Forall_cons_iff in Hda. destruct Hda as [Ha Hda].
    apply Forall_cons_iff in Hdi. destruct Hdi as [Hb Hdi].
    cbn [length xor_loop]. unfold xor_bytes. cbn [combine map fst snd].
    rewrite rd_app_here.
    replace (lenZ pre1) with (lenZ pre2) at 1 by (unfold lenZ; lia).
    rewrite rd_app_here.
    rewrite u8_small by (apply lxor_byte; assumption).
    f_equal.
    replace (lenZ pre1 + 1) with (lenZ (pre1 ++ [a]))
      by (rewrite len_app; reflexivity).
    replace (pre1 ++ a :: data) with ((pre1 ++ [a]) ++ data)
      by (rewrite <- app_assoc; reflexivity).
    replace (pre2 ++ b :: digest) with ((pre2 ++ [b]) ++ digest)
      by (rewrite <- app_assoc; reflexivity).
    apply IH; try assumption.
    + rewrite !length_app. cbn. lia.
    + cbn in Hlen. lia.
Qed.

Lemma xor_bytes_length (a b : list Z) :
  length a = length b -> length (xor_bytes a b) = length a.
Proof.
  intros H. unfold xor_bytes. rewrite length_map, length_combine. lia.
Qed.

(** What [se_gendig_slot] can return at all. *)
Lemma se_gendig_slot_inv (slot_num : Z) (slot_contents digest d : list Z)
                         (rc : Z) (s s' : state) :
  se_gendig_slot slot_num slot_contents digest s = Some ((rc, d), s') ->
  (rc = -1 /\ d = digest) \/
  (rc = 0 /\ exists m, d = memcpy digest (SHA256 m) 32).
Proof.
  unfold se_gendig_slot.
  erewrite bind_some by apply rng_buffer_eq.
  unfold bind at 1.
  destruct (se_pick_nonce _ _ _) as [[[rc0 tk] s1]|]; [|discriminate].
  destruct (rc0 <? 0).
  - intros H; injection H as <- <- <-. auto.
  - rewrite <- bind_assoc. unfold bind at 1.
    destruct ((se_write OP_GenDig 2 slot_num [] 0;; se_read1) s1)
      as [[rc1 s2]|]; [|discriminate].
    erewrite bind_some by apply se_sleep_eq.
    destruct (negb (rc1 =? 0)); intros H; injection H as <- <- <-; eauto.
Qed.

Lemma write_body_length (data_slot blk : Z) (digest data : list Z) :
  length data = 32%nat -> length digest = 32%nat ->
  length (write_body data_slot blk digest data) = 64%nat.
Proof.
  intros Hd Hg. unfold write_body.
  rewrite length_app, xor_bytes_length, SHA256_length by lia. lia.
Qed.

(** [se_encrypted_write32] once pairing and digest generation have
    succeeded: one Write command, one byte read back. *)
Lemma se_encrypted_write32_eq (data_slot blk write_kn : Z)
                              (write_key data digest : list Z)
                              (s s1 s2 : state) :
  bytes data -> length data = 32%nat ->
  se_pair_unlock s = Some (0, s1) ->
  se_gendig_slot write_kn write_key (uninit 32) s1 = Some ((0, digest), s2) ->
  se_encrypted_write32 data_slot blk write_kn write_key data s
  = (se_write OP_Write 0x82
              (Z.lor (Z.shiftl (u8 blk) 8) (u8 (Z.shiftl data_slot 3)))
              (write_body data_slot blk digest data) 64 ;;
     rc <- se_read1 ;;
     se_sleep ;;
     if negb (rc =? 0) then ret (-1) else ret 0) s2.
Proof.
  intros Hbytes Hlen Hpair Hgen.
  destruct (se_gendig_slot_inv _ _ _ _ _ _ _ Hgen) as [[Hc _]|[_ [m Hm]]]; [lia|].
  rewrite (memcpy_full _ _ 32) in Hm by (apply SHA256_length || reflexivity).
  assert (Hdl : length digest = 32%nat) by (rewrite Hm; apply SHA256_length).
  assert (Hdb : bytes digest) by (rewrite Hm; apply SHA256_bytes).
  unfold se_encrypted_write32.
  erewrite bind_some by exact Hpair. change (0 <? 0) with false. cbv iota.
  erewrite bind_some by exact Hgen. cbv beta iota.
  change (0 <? 0) with false. cbv iota.
  change (u8 (Z.lor 128 2)) with 130.
  pose proof (xor_loop_combine data digest [] [] eq_refl ltac:(lia) Hbytes Hdb) as Hx.
  rewrite Hlen in Hx. change (lenZ []) with 0 in Hx. cbn [app] in Hx.
  rewrite Hx.
  set (x := xor_bytes data digest).
  assert (Hxl : length x = 32%nat) by (subst x; rewrite xor_bytes_length; lia).
  assert (Hb1 : memcpy (uninit (32 + 32)) x 32 = x ++ zeros 32).
  { unfold memcpy. change (Z.to_nat 32) with 32%nat.
    rewrite (firstn_exact x 32 Hxl). reflexivity. }
  rewrite Hb1.
  replace (firstn 32 (x ++ zeros 32)) with x
    by (rewrite firstn_app, Hxl, Nat.sub_diag, (firstn_exact x 32 Hxl);
        cbn [firstn]; rewrite app_nil_r; reflexivity).
  replace (offs (x ++ zeros 32) 32) with (zeros 32)
    by (unfold offs; change (Z.to_nat 32) with 32%nat;
        rewrite skipn_app, Hxl, Nat.sub_diag, skipn_all2 by lia; reflexivity).
  rewrite (memcpy_full (zeros 32) _ 32) by (apply SHA256_length || reflexivity).
  unfold sha256_update, sha256_init, sha256_final.
  change (Z.to_nat 32) with 32%nat. change (Z.to_nat 7) with 7%nat.
  change (Z.to_nat 25) with 25%nat.
  rewrite (firstn_exact digest 32 Hdl), (firstn_exact data 32 Hlen).
  rewrite (firstn_exact (zeros 25) 25 eq_refl).
  cbn [firstn app]. rewrite <- !app_assoc. cbn [app].
  rewrite (proj2 opcode_bytes). reflexivity.
Qed.

Lemma p2_check_all : forallb p2_check (map Z.of_nat (seq 0 256)) = true.
Proof. vm_compute. reflexivity. Qed.

(** The two bytes of [p2] come out of [se_write] as they went in. *)
Lemma p2_split (lsb msb : Z) :
  is_byte lsb -> is_byte msb ->
  let p2 := u16 (Z.lor (Z.shiftl msb 8) lsb) in
  u8 (Z.land p2 0xff) = lsb /\ u8 (Z.land (Z.shiftr p2 8) 0xff) = msb.
Proof.
  intros Hl Hm.
  pose proof (forall_bytes p2_check p2_check_all lsb Hl) as H.
  unfold p2_check in H.
  pose proof (forall_bytes _ H msb Hm) as H'. cbv beta zeta in H'.
  apply andb_true_iff in H'. destruct H' as [H1 H2].
  apply Z.eqb_eq in H1. apply Z.eqb_eq in H2. split; assumption.
Qed.

(** Chaining the CRC over two buffers is the CRC over their concatenation. *)
Lemma crc_chain_app (a b crc : list Z) :
  lenZ a + lenZ b <= 255 ->
  CRC.se_crc16_chain (lenZ b) b (CRC.se_crc16_chain (lenZ a) a crc)
  = CRC.se_crc16_chain (lenZ a + lenZ b) (a ++ b) crc.
Proof.
  intros Hlen. unfold lenZ in *.
  rewrite <- Nat2Z.inj_add, <- length_app.
  rewrite !se_crc16_chain_fold; try lia.
  - rewrite crc_load_store by (apply crc_fold_range; apply u16_range).
    rewrite !firstn_all, fold_left_app. reflexivity.
  - rewrite length_app. lia.
Qed.

(** The Write command frame, byte by byte. *)
Lemma command_frame_write (lsb msb : Z) (body : list Z) :
  is_byte lsb -> is_byte msb -> length body = 64%nat ->
  let command := [71; OP_Write; 0x82; lsb; msb] ++ body in
  command_frame OP_Write 0x82 (Z.lor (Z.shiftl msb 8) lsb) body 64
  = [IOFLAG_CMD] ++ command ++ CRC.se_crc16_chain 69 command [0; 0].
Proof.
  intros Hl Hm Hb command. unfold command_frame.
  destruct (p2_split lsb msb Hl Hm) as [H1 H2]. cbv zeta in H1, H2.
  rewrite H1, H2, (proj2 opcode_bytes).
  change (u8 64) with 64. change (u8 (64 + 7)) with 71. change (u8 130) with 130.
  change (Z.to_nat 64) with 64%nat. rewrite (firstn_exact body 64 Hb).
  change (offs [IOFLAG_CMD; 71; OP_Write; 130; lsb; msb] 1)
    with [71; OP_Write; 130; lsb; msb].
  pose proof (crc_chain_app [71; OP_Write; 130; lsb; msb] body [0; 0]) as Hc.
  unfold lenZ in Hc. rewrite Hb in Hc.
  change (Z.of_nat (length [71; OP_Write; 130; lsb; msb])) with 5 in Hc.
  change (Z.of_nat 64) with 64 in Hc. change (5 + 64) with 69 in Hc.
  rewrite Hc by lia. reflexivity.
Qed.

(** What a Write exchange adds to the wire. *)
Lemma write_exchange_tdr (data_slot blk : Z) (data digest : list Z) (s2 s' : state) (r : Z) :
  length (write_body data_slot blk digest data) = 64%nat ->
  (se_write OP_Write 0x82
              (Z.lor (Z.shiftl (u8 blk) 8) (u8 (Z.shiftl data_slot 3)))
              (write_body data_slot blk digest data) 64 ;;
     rc <- se_read1 ;;
     se_sleep ;;
     if negb (rc =? 0) then ret (-1) else ret 0) s2 = Some (r, s') ->
  exists tail,
    uart_tdr s' = uart_tdr s2 ++ [0] ++ serialize (command_frame OP_Write 0x82
              (Z.lor (Z.shiftl (u8 blk) 8) (u8 (Z.shiftl data_slot 3)))
              (write_body data_slot blk digest data) 64) ++ tail.
Proof.
  intros Hbl Hrun.
  assert (Hle : u8 64 <= lenZ (write_body data_slot blk digest data))
    by (change (u8 64) with 64; unfold lenZ; rewrite Hbl; lia).
  rewrite (bind_some _ _ _ _ _ (se_write_tdr OP_Write 130 _ _ 64 s2 Hle))
    in Hrun.
  apply bind_inv in Hrun. destruct Hrun as (rc & s3 & Hread & Hrun).
  apply se_read1_tdr in Hread. destruct Hread as [t1 Ht1].
  rewrite uart_tdr_push_tdr, uart_tdr_set_current_opcode in Ht1.
  erewrite bind_some in Hrun by apply se_sleep_eq.
  assert (Hs' : s' = asleep s3).
  { destruct (negb (rc =? 0)); injection Hrun as _ <-; reflexivity. }
  subst s'. unfold asleep. rewrite uart_tdr_push_tdr, Ht1.
  exists (t1 ++ serialize_byte IOFLAG_SLEEP).
  rewrite <- !app_assoc. reflexivity.
Qed.

(** C4. Once pairing and digest generation have succeeded with [digest],
    the Write command that [se_encrypted_write32] puts on the wire right
    after them carries, behind its header, the block XORed byte by byte with
    [digest], followed by the tag SHA256(digest || Write p1 p2_lsb p2_msb
    EE 01 23 || 25 zero bytes || block): the tag is computed over the
    plaintext block, not over what is sent in its place. *)
Theorem encrypted_write32_body (data_slot blk write_kn : Z)
                               (write_key data digest : list Z)
                               (s s1 s2 s' : state) (r : Z) :
  bytes data -> length data = 32%nat ->
  se_pair_unlock s = Some (0, s1) ->
  se_gendig_slot write_kn write_key (uninit 32) s1 = Some ((0, digest), s2) ->
  se_encrypted_write32 data_slot blk write_kn write_key data s = Some (r, s') ->
  let p1 := 0x82 in
  let p2_lsb := u8 (Z.shiftl data_slot 3) in
  let p2_msb := u8 blk in
  let tag := SHA256 (digest
                     ++ [OP_Write; p1; p2_lsb; p2_msb; 0xEE; 0x01; 0x23]
                     ++ zeros 25 ++ data) in
  let body := xor_bytes data digest ++ tag in
  let command := [71; OP_Write; p1; p2_lsb; p2_msb] ++ body in
  exists tail,
    uart_tdr s'
    = uart_tdr s2
      ++ [0]
      ++ serialize ([IOFLAG_CMD] ++ command ++ CRC.se_crc16_chain 69 command [0; 0])
      ++ tail.
Proof.
  intros Hbytes Hlen Hpair Hgen Hrun p1 p2_lsb p2_msb tag body command.
  destruct (se_gendig_slot_inv _ _ _ _ _ _ _ Hgen) as [[Hc _]|[_ [m Hm]]]; [lia|].
  rewrite (memcpy_full _ _ 32) in Hm by (apply SHA256_length || reflexivity).
  assert (Hdl : length digest = 32%nat) by (rewrite Hm; apply SHA256_length).
  pose proof (write_body_length data_slot blk digest data Hlen Hdl) as Hbl.
  rewrite (se_encrypted_write32_eq _ _ _ _ _ _ _ _ _ Hbytes Hlen Hpair Hgen) in Hrun.
  destruct (write_exchange_tdr _ _ _ _ _ _ _ Hbl Hrun) as [tail Htail].
  exists tail. rewrite Htail.
  rewrite command_frame_write by (assumption || apply u8_range).
  reflexivity.
Qed.

End WriteFacts.

(** ** A chip error code read as a one-byte payload *)

Section OneByteClaims.
Context {seh : se_h} {sha : sha256_h} {secrets : secrets_h}.

Lemma se_read1_error_frame (s : state) (code c0 c1 : Z) :
  current_opcode s <> OP_Info ->
  received_count (hd [] (uart_rx s)) = 4 ->
  received 4 (hd [] (uart_rx s)) = [4; code; c0; c1] ->
  check_crc [4; code; c0; c1] 4 = true ->
  se_read (uninit 1) 1 s
  = Some ((0, [code]), push_tdr (serialize_byte IOFLAG_IDLE) (after_response s)).
Proof.
  intros Hop Hn Hf Hcrc.
  rewrite se_read_eq by (unfold is_byte; lia).
  destruct (attempt_valid 1 (uninit 1) (uninit (Z.to_nat (1 + 1 + 2))) s)
    as (tmp' & Hatt).
  - lia.
  - reflexivity.
  - unfold lenZ. cbn. lia.
  - unfold valid_frame. change (1 + 3) with 4. rewrite Hn, Hf.
    repeat split; try lia. right. split; [reflexivity | exact Hcrc].
  - change (1 + 3) with 4 in Hatt. rewrite Hf in Hatt.
    change 101%nat with (S 100). rewrite se_read_loop_S.
    erewrite bind_some by exact Hatt. reflexivity.
Qed.

(** C9. With [len = 1] the error-frame exit of [se_read] is never taken:
    whatever the line delivers, neither the error-frame counter nor the
    watchdog counter moves, and a result of -1 only ever comes from an
    exhausted retry budget.  A four-byte error frame [4; code; crc] from the
    chip with a good CRC is instead accepted as a frame: [se_read] returns 0
    with [code] as the payload byte, and [se_read1] returns [code].  The
    callers tell such a code from success by comparing the byte with 0: on
    a non-zero byte [se_gendig_slot] returns -1, [se_checkmac] returns -2
    and [se_encrypted_write32] returns -1. *)
Theorem read1_error_frame_is_payload (s : state) (code c0 c1 : Z) :
  (forall data rc d s',
     se_read data 1 s = Some ((rc, d), s') ->
     len_error_two s' = len_error_two s /\
     wdgtimeout s' = wdgtimeout s /\
     (rc = 0 /\ retry_out s' = retry_out s \/
      rc = -1 /\ retry_out s' = u32 (retry_out s + 1)))
  /\
  (current_opcode s <> OP_Info ->
   received_count (hd [] (uart_rx s)) = 4 ->
   received 4 (hd [] (uart_rx s)) = [4; code; c0; c1] ->
   check_crc [4; code; c0; c1] 4 = true ->
   se_read (uninit 1) 1 s
   = Some ((0, [code]), push_tdr (serialize_byte IOFLAG_IDLE) (after_response s))
   /\
   se_read1 s
   = Some (code, push_tdr (serialize_byte IOFLAG_IDLE) (after_response s)))
  /\
  (code <> 0 ->
   (forall slot_num slot_contents digest tempkey t t1 t2,
      se_pick_nonce (rng_next 20 t) (uninit 32) (rng_after 20 t)
      = Some ((0, tempkey), t1) ->
      (se_write OP_GenDig 0x2 slot_num [] 0 ;; se_read1) t1 = Some (code, t2) ->
      se_gendig_slot slot_num slot_contents digest t
      = Some ((-1, digest), asleep t2))
   /\
   (forall keynum secret tempkey t t1 t2,
      se_pick_nonce (rng_next 20 (rng_after 32 t)) (uninit 32)
                    (rng_after 20 (rng_after 32 t))
      = Some ((0, tempkey), t1) ->
      (se_write OP_CheckMac 0x01 (u8 keynum)
                (checkmac_request secret tempkey (rng_next 32 t)) 77 ;;
       se_read1) t1 = Some (code, t2) ->
      se_checkmac keynum secret t = Some (-2, asleep t2))
   /\
   (forall data_slot blk write_kn write_key data digest t t1 t2 t3,
      bytes data -> length data = 32%nat ->
      se_pair_unlock t = Some (0, t1) ->
      se_gendig_slot write_kn write_key (uninit 32) t1 = Some ((0, digest), t2) ->
      (se_write OP_Write 0x82
                (Z.lor (Z.shiftl (u8 blk) 8) (u8 (Z.shiftl data_slot 3)))
                (write_body data_slot blk digest data) 64 ;;
       se_read1) t2 = Some (code, t3) ->
      se_encrypted_write32 data_slot blk write_kn write_key data t
      = Some (-1, asleep t3))).
Proof.
  split; [|split].
  - intros data rc d s' H. rewrite se_read_eq in H by (unfold is_byte; lia).
    eapply se_read_loop_one_byte. exact H.
  - intros Hop Hn Hf Hcrc.
    pose proof (se_read1_error_frame s code c0 c1 Hop Hn Hf Hcrc) as Hr.
    split; [exact Hr|].
    unfold se_read1. erewrite bind_some by exact Hr. reflexivity.
  - intros Hcode.
    assert (Hz : (code =? 0) = false) by (apply Z.eqb_neq; exact Hcode).
    split; [|split].
    + intros slot_num slot_contents digest tempkey t t1 t2 Hn Hg.
      rewrite (se_gendig_slot_eq _ slot_contents digest _ _ _ _ _ Hn Hg), Hz.
      reflexivity.
    + intros keynum secret tempkey t t1 t2 Hn Hc.
      rewrite (se_checkmac_eq _ secret _ _ _ _ _ Hn Hc), Hz. reflexivity.
    + intros data_slot blk write_kn write_key data digest t t1 t2 t3
             Hb Hl Hp Hg Hw.
      rewrite (se_encrypted_write32_eq _ _ _ _ _ _ _ _ _ Hb Hl Hp Hg).
      rewrite <- bind_assoc. erewrite bind_some by exact Hw.
      erewrite bind_some by apply se_sleep_eq. rewrite Hz. reflexivity.
Qed.

End OneByteClaims.

(** ** AuthProtocol: writing up to three blocks *)

Section BlockWrites.
Context {seh : se_h} {sha : sha256_h} {secrets : secrets_h}.

Lemma bind_ext {A B : Type} (m : M A) (k1 k2 : A -> M B) (s : state) :
  (forall a s1, k1 a s1 = k2 a s1) -> bind m k1 s = bind m k2 s.
Proof. intros H. unfold bind. destruct (m s) as [[a s1]|]; auto. Qed.

Lemma skipn_zeros (n m : nat) : skipn n (zeros m) = zeros (m - n).
Proof.
  unfold zeros. revert m. induction n as [|n IH]; intros m.
  - rewrite Nat.sub_0_r. reflexivity.
  - destruct m as [|m]; [reflexivity|]. cbn [repeat skipn Nat.sub]. apply IH.
Qed.

(** The buffer [tmp] of one pass of the loop. *)
Lemma loop_block (data : list Z) (len blk : Z) :
  memcpy (zeros 32) (offs data (32 * blk)) (Z.min 32 (len - 32 * blk))
  = padded_block data len blk.
Proof.
  unfold memcpy, padded_block, offs. rewrite skipn_zeros. reflexivity.
Qed.

Lemma padded_block_length (data : list Z) (len blk : Z) :
  0 <= blk -> len <= lenZ data -> length (padded_block data len blk) = 32%nat.
Proof.
  intros Hblk Hlen. unfold padded_block, zeros, lenZ in *.
  rewrite length_app, length_firstn, length_skipn, repeat_length. lia.
Qed.

Lemma padded_block_prefix (data : list Z) (len blk : Z) (n : nat) :
  0 <= blk -> len <= Z.of_nat n ->
  padded_block (firstn n data) len blk = padded_block data len blk.
Proof.
  intros Hblk Hn. unfold padded_block. f_equal.
  rewrite skipn_firstn_comm, firstn_firstn. f_equal. lia.
Qed.

(** One pass of the loop of [se_encrypted_write], with [len] counted from
    the start of [data]. *)
Lemma encrypted_write_loop_S (fuel : nat) (blk data_slot write_kn : Z)
                             (write_key data : list Z) (len : Z) (s : state) :
  encrypted_write_loop (S fuel) blk data_slot write_kn write_key data
                       (len - 32 * blk) s
  = if (blk <? 3) && (32 * blk <? len) then
      (rv <- se_encrypted_write32 data_slot blk write_kn write_key
                                  (padded_block data len blk) ;;
       if rv <? 0 then ret (-1)
       else encrypted_write_loop fuel (blk + 1) data_slot write_kn write_key
                                 data (len - 32 * (blk + 1))) s
    else Some (0, s).
Proof.
  cbn [encrypted_write_loop].
  replace (0 <? len - 32 * blk) with (32 * blk <? len)
    by (destruct (Z.ltb_spec (32 * blk) len), (Z.ltb_spec 0 (len - 32 * blk));
        reflexivity || lia).
  destruct ((blk <? 3) && (32 * blk <? len)); [|reflexivity].
  rewrite loop_block.
  replace (len - 32 * blk - 32) with (len - 32 * (blk + 1)) by lia.
  reflexivity.
Qed.

Lemma encrypted_write_loop_blocks (data_slot write_kn : Z)
                                  (write_key data : list Z) (len : Z) (s : state) :
  encrypted_write_loop 4 0 data_slot write_kn write_key data len s
  = write_blocks data_slot write_kn write_key 0 (blocks_of data len) s.
Proof.
  replace len with (len - 32 * 0) at 1 by lia.
  unfold blocks_of. cbn [filter]. change (32 * 0) with 0.
  change (32 * 1) with 32. change (32 * 2) with 64.
  rewrite encrypted_write_loop_S. change (32 * 0) with 0.
  change (0 <? 3) with true. cbn [andb]. change (0 + 1) with 1.
  destruct (Z.ltb_spec 0 len) as [H0|H0].
  - cbn [map write_blocks]. apply bind_ext. intros rv0 s1.
    destruct (rv0 <? 0); [reflexivity|].
    rewrite encrypted_write_loop_S. change (32 * 1) with 32.
    change (1 <? 3) with true. cbn [andb]. change (1 + 1) with 2.
    change (0 + 1) with 1.
    destruct (Z.ltb_spec 32 len) as [H1|H1].
    + cbn [map write_blocks]. apply bind_ext. intros rv1 s2.
      destruct (rv1 <? 0); [reflexivity|].
      rewrite encrypted_write_loop_S. change (32 * 2) with 64.
      change (2 <? 3) with true. cbn [andb]. change (2 + 1) with 3.
      change (1 + 1) with 2.
      destruct (Z.ltb_spec 64 len) as [H2|H2].
      * cbn [map write_blocks]. apply bind_ext. intros rv2 s3.
        destruct (rv2 <? 0); [reflexivity|].
        rewrite encrypted_write_loop_S. reflexivity.
      * reflexivity.
    + replace (64 <? len) with false by (symmetry; apply Z.ltb_ge; lia).
      reflexivity.
  - replace (32 <? len) with false by (symmetry; apply Z.ltb_ge; lia).
    replace (64 <? len) with false by (symmetry; apply Z.ltb_ge; lia).
    reflexivity.
Qed.

Lemma blocks_of_full (data : list Z) (len : Z) :
  96 <= len ->
  blocks_of data len
  = [firstn 32 data; firstn 32 (skipn 32 data); firstn 32 (skipn 64 data)].
Proof.
  intros H. unfold blocks_of. cbn [filter]. change (32 * 0) with 0.
  change (32 * 1) with 32. change (32 * 2) with 64.
  replace (0 <? len) with true by (symmetry; apply Z.ltb_lt; lia).
  replace (32 <? len) with true by (symmetry; apply Z.ltb_lt; lia).
  replace (64 <? len) with true by (symmetry; apply Z.ltb_lt; lia).
  cbn [map]. unfold padded_block.
  change (32 * 0) with 0. change (32 * 1) with 32. change (32 * 2) with 64.
  rewrite !Z.min_l by lia.
  change (Z.to_nat 32) with 32%nat. change (Z.to_nat 0) with 0%nat.
  change (Z.to_nat 64) with 64%nat. change (32 - 32)%nat with 0%nat.
  change (zeros 0) with (@nil Z). rewrite !app_nil_r. reflexivity.
Qed.

(** The blocks are those the loop condition [blk < 3 && len > 0] lets
    through, each the bytes of [data] from [32 * blk] on, up to [len], and
    then zeros. *)
Lemma blocks_of_nth (data : list Z) (len : Z) (i : nat) :
  let here := Z.to_nat (Z.min 32 (len - 32 * Z.of_nat i)) in
  ((i < length (blocks_of data len))%nat
   <-> (i < 3)%nat /\ 32 * Z.of_nat i < len)
  /\ ((i < length (blocks_of data len))%nat ->
      nth i (blocks_of data len) []
      = firstn here (skipn (32 * i) data) ++ zeros (32 - here)).
Proof.
  unfold blocks_of. cbn [filter]. change (32 * 0) with 0.
  change (32 * 1) with 32. change (32 * 2) with 64.
  destruct (Z.ltb_spec 0 len), (Z.ltb_spec 32 len), (Z.ltb_spec 64 len);
    try lia;
    destruct i as [|[|[|i]]]; cbn [map length nth]; cbv zeta;
    (split; [split; [intros ?; lia | intros [? ?]; lia]
            |intros ?; reflexivity || lia]).
Qed.

(** C10. [se_encrypted_write] writes the blocks of [blocks_of data len], in
    order and stopping at the first failure.  There is a block [i] exactly
    when [i < 3] and [32 * i < len], so never more than three; it is 32
    bytes long: the bytes of [data] from [32 * i] on, at most 32 and none at
    or beyond [len], and then zeros.  So nothing beyond the first [len]
    bytes of the caller's buffer is looked at.  For [len > 96] the blocks
    are those of the first 96 bytes, and once these three writes have
    succeeded the call returns 0, the same as for [len = 96]. *)
Theorem encrypted_write_blocks (data_slot write_kn : Z) (write_key data : list Z)
                               (len : Z) (s : state) :
  len <= lenZ data ->
  se_encrypted_write data_slot write_kn write_key data len s
  = write_blocks data_slot write_kn write_key 0 (blocks_of data len) s
  /\ Forall (fun b => length b = 32%nat) (blocks_of data len)
  /\ blocks_of (firstn (Z.to_nat len) data) len = blocks_of data len
  /\ (length (blocks_of data len) <= 3)%nat
  /\ (forall i : nat,
        let here := Z.to_nat (Z.min 32 (len - 32 * Z.of_nat i)) in
        ((i < length (blocks_of data len))%nat
         <-> (i < 3)%nat /\ 32 * Z.of_nat i < len)
        /\ ((i < length (blocks_of data len))%nat ->
            nth i (blocks_of data len) []
            = firstn here (skipn (32 * i) data) ++ repeat 0 (32 - here)))
  /\ (96 < len ->
      blocks_of data len
      = [firstn 32 data; firstn 32 (skipn 32 data); firstn 32 (skipn 64 data)]
      /\ se_encrypted_write data_slot write_kn write_key data len s
         = se_encrypted_write data_slot write_kn write_key (firstn 96 data) 96 s
      /\ forall s1 s2 s3,
           se_encrypted_write32 data_slot 0 write_kn write_key (firstn 32 data) s
           = Some (0, s1) ->
           se_encrypted_write32 data_slot 1 write_kn write_key
                                (firstn 32 (skipn 32 data)) s1
           = Some (0, s2) ->
           se_encrypted_write32 data_slot 2 write_kn write_key
                                (firstn 32 (skipn 64 data)) s2
           = Some (0, s3) ->
           se_encrypted_write data_slot write_kn write_key data len s
           = Some (0, s3)).
Proof.
  intros Hlen.
  assert (Hrun : forall d l,
             se_encrypted_write data_slot write_kn write_key d l s
             = write_blocks data_slot write_kn write_key 0 (blocks_of d l) s)
    by (intros; apply encrypted_write_loop_blocks).
  split; [apply Hrun|].
  split; [|split; [|split; [|split; [|intros H96; split; [|split]]]]].
  - unfold blocks_of. apply Forall_map, Forall_forall. intros blk Hin.
    apply filter_In in Hin. destruct Hin as [Hin _].
    apply padded_block_length; [|exact Hlen].
    cbn in Hin. lia.
  - unfold blocks_of. apply map_ext_in. intros blk Hin.
    apply filter_In in Hin. destruct Hin as [Hin _].
    apply padded_block_prefix; [cbn in Hin|]; lia.
  - unfold blocks_of. rewrite length_map.
    apply (Nat.le_trans _ _ _ (filter_length_le _ _)). cbn. lia.
  - intros i. apply blocks_of_nth.
  - apply blocks_of_full. lia.
  - rewrite !Hrun. f_equal.
    rewrite !blocks_of_full by lia.
    pose proof (padded_block_prefix data 96) as Hp.
    rewrite <- (blocks_of_full (firstn 96 data) 96) by lia.
    rewrite <- (blocks_of_full data 96) by lia.
    unfold blocks_of. apply map_ext_in. intros blk Hin.
    apply filter_In in Hin. destruct Hin as [Hin _]. symmetry.
    apply (padded_block_prefix data 96 blk 96); [cbn in Hin|]; lia.
  - intros s1 s2 s3 H0 H1 H2.
    rewrite Hrun, blocks_of_full by lia. cbn [write_blocks].
    erewrite bind_some by exact H0. change (0 <? 0) with false. cbv iota.
    change (0 + 1) with 1.
    erewrite bind_some by exact H1. change (0 <? 0) with false. cbv iota.
    change (1 + 1) with 2.
    erewrite bind_some by exact H2. reflexivity.
Qed.

End BlockWrites.

(** ** BitLink: buffers through the codec *)

Lemma serialize_length (l : list Z) : lenZ (serialize l) = 8 * lenZ l.
Proof.
  unfold lenZ. induction l as [|b l IH]; [reflexivity|].
  unfold serialize in *. cbn [flat_map]. rewrite length_app, Nat2Z.inj_add, IH.
  change (length (serialize_byte b)) with 8%nat. cbn [length]. lia.
Qed.

Lemma serialize_cons (b : Z) (l : list Z) :
  serialize (b :: l) = serialize_byte b ++ serialize l.
Proof. reflexivity. Qed.

(** The first byte of a serialized buffer, whatever follows its pulses. *)
Lemma deserialize_bits_head (b : Z) (rest : list Z) :
  is_byte b ->
  deserialize_bits 8 0 0x1 0 (serialize_byte b ++ rest) = b.
Proof.
  intros Hb.
  pose proof (forall_bytes codec_check codec_check_all b Hb) as Hc.
  apply andb_true_iff in Hc. destruct Hc as [_ Hd]. apply Z.eqb_eq in Hd.
  rewrite <- Hd at 2. reflexivity.
Qed.

Lemma offs_serialize_byte (b : Z) (rest : list Z) :
  offs (serialize_byte b ++ rest) 8 = rest.
Proof. reflexivity. Qed.

(** The bytes [deserialize] stores for a serialized buffer: all of them, or
    as many as [max_into] allows -- but at least one.  Of the pulses only
    those of the bytes stored are looked at. *)
Lemma deserialize_loop_serialize (l : list Z) :
  forall (fuel : nat) (tail : list Z) (max_into : Z) (m : nat),
    bytes l -> (length l <= fuel)%nat ->
    (8 * Nat.min (length l) (Z.to_nat (Z.max 1 max_into)) <= m)%nat ->
    deserialize_loop fuel (firstn m (serialize l ++ tail)) (8 * lenZ l) max_into
    = firstn (Z.to_nat (Z.max 1 max_into)) l.
Proof.
  induction l as [|b l IH]; intros fuel tail max_into m Hl Hfuel Hm.
  - destruct fuel; cbn [deserialize_loop]; rewrite ?firstn_nil; reflexivity.
  - destruct fuel as [|fuel]; [cbn in Hfuel; lia|].
    apply Forall_cons_iff in Hl. destruct Hl as [Hb Hl].
    cbn [deserialize_loop].
    assert (Hlen : lenZ (b :: l) = 1 + lenZ l) by (unfold lenZ; cbn [length]; lia).
    pose proof (len_nonneg l) as Hn.
    cbn [length] in Hm, Hfuel.
    replace (0 <? 8 * lenZ (b :: l)) with true by (symmetry; apply Z.ltb_lt; lia).
    rewrite serialize_cons, <- app_assoc, firstn_app.
    change (length (serialize_byte b)) with 8%nat.
    rewrite (firstn_all2 (serialize_byte b))
      by (change (length (serialize_byte b)) with 8%nat; lia).
    rewrite deserialize_bits_head by exact Hb.
    rewrite offs_serialize_byte.
    destruct (Z.leb_spec (max_into - 1) 0) as [Hle|Hgt].
    + replace (Z.to_nat (Z.max 1 max_into)) with 1%nat by lia. reflexivity.
    + replace (Z.to_nat (Z.max 1 max_into))
        with (S (Z.to_nat (Z.max 1 (max_into - 1)))) in * by lia.
      cbn [firstn]. f_equal.
      replace (8 * lenZ (b :: l) - 8) with (8 * lenZ l) by lia.
      apply IH; [exact Hl | lia | lia].
Qed.

Lemma deserialize_serialize (l into : list Z) (max_into : Z) :
  bytes l ->
  let stored := firstn (Z.to_nat (Z.max 1 max_into)) l in
  deserialize (serialize l) (8 * lenZ l) into max_into
  = stored ++ skipn (length stored) into.
Proof.
  intros Hl stored. unfold deserialize.
  pose proof (len_nonneg l) as Hn.
  pose proof (serialize_length l) as Hs. unfold lenZ in Hs.
  assert (Hfrom : serialize l
                  = firstn (length (serialize l)) (serialize l ++ []))
    by (rewrite app_nil_r, firstn_all; reflexivity).
  rewrite Hfrom, deserialize_loop_serialize; cycle 1.
  - exact Hl.
  - unfold lenZ in *. lia.
  - lia.
  - fold stored. unfold memcpy, lenZ. rewrite Nat2Z.id, firstn_all. reflexivity.
Qed.

(** X1. [deserialize] undoes [_send_serialized]: the pulses
    [_send_serialized] puts on the wire for a buffer of bytes, eight per
    byte, are turned back by [deserialize] into the bytes themselves, in
    order, with the rest of [into] left as it was.  [deserialize] stores at
    most [max_into] of them -- except that with [max_into <= 0] and pulses
    to read it still stores one byte. *)
Theorem serialized_buffer_roundtrip (l into : list Z) (max_into : Z) (s : state) :
  bytes l ->
  exists wire,
    _send_serialized l (lenZ l) s = Some (tt, push_tdr wire s) /\
    lenZ wire = 8 * lenZ l /\
    let stored := firstn (Z.to_nat (Z.max 1 max_into)) l in
    deserialize wire (8 * lenZ l) into max_into
    = stored ++ skipn (length stored) into.
Proof.
  intros Hl. exists (serialize l). split; [|split].
  - rewrite send_serialized_tdr by (pose proof (len_nonneg l); lia).
    unfold lenZ. rewrite Nat2Z.id, firstn_all. reflexivity.
  - apply serialize_length.
  - apply deserialize_serialize. exact Hl.
Qed.

(** ** FrameTransport: frames through the line *)

Lemma low7_stored (run : list Z) :
  map (fun b => u8 (Z.land b 0x7f)) run = low7 run.
Proof.
  unfold low7. apply map_ext. intros b. apply u8_small.
  change 127 with (Z.ones 7). rewrite Z.land_ones by lia.
  change (2 ^ 7) with 128.
  pose proof (Z.mod_pos_bound b 128 ltac:(lia)) as H. unfold is_byte. lia.
Qed.

Lemma low7_length (run : list Z) : lenZ (low7 run) = lenZ run.
Proof. unfold low7, lenZ. rewrite length_map. reflexivity. Qed.

(** A run that carries the pulses of [frame], and after them fewer pulses
    than make a byte, decodes to [frame]. *)
Lemma received_frame (frame stray run : list Z) (max_len : Z) :
  bytes frame ->
  low7 run = serialize frame ++ stray ->
  (length stray < 8)%nat ->
  1 <= max_len ->
  received_count run = lenZ frame /\
  received max_len run = firstn (Z.to_nat max_len) frame.
Proof.
  intros Hb Hrun Hstray Hmax.
  pose proof (len_nonneg frame) as Hn.
  assert (Hlen : lenZ run = 8 * lenZ frame + Z.of_nat (length stray)).
  { rewrite <- low7_length, Hrun, len_app, serialize_length. reflexivity. }
  assert (Hdiv : lenZ run / 8 = lenZ frame).
  { rewrite Hlen. symmetry. apply (Z.div_unique _ 8 _ (Z.of_nat (length stray))); lia. }
  split.
  - rewrite received_count_div. exact Hdiv.
  - unfold received. rewrite low7_stored, Hrun.
    rewrite land_lnot_7 by apply len_nonneg. rewrite Hdiv.
    rewrite deserialize_loop_serialize.
    + f_equal. lia.
    + exact Hb.
    + unfold lenZ. lia.
    + lia.
Qed.

(** X2. [se_read_response] undoes what the chip does to a frame: when the
    line delivers the pulses of [frame] -- with any top bit, and followed by
    fewer stray pulses than make a byte -- it reports the number of bytes of
    [frame] and stores them at the start of [buf], at most [max_len] of them,
    leaving the rest of [buf] as it was. *)
Theorem read_response_decodes_frame (frame stray buf run : list Z)
                            (rest : list (list Z)) (max_len : Z) (s : state) :
  bytes frame ->
  uart_rx s = run :: rest ->
  low7 run = serialize frame ++ stray ->
  (length stray < 8)%nat ->
  1 <= max_len ->
  let stored := firstn (Z.to_nat max_len) frame in
  se_read_response buf max_len s
  = Some ((lenZ frame, stored ++ skipn (length stored) buf), after_response s).
Proof.
  intros Hb Hrx Hrun Hstray Hmax stored.
  rewrite se_read_response_eq, Hrx. cbn [hd].
  destruct (received_frame frame stray run max_len Hb Hrun Hstray Hmax)
    as [-> ->].
  fold stored. unfold memcpy, lenZ. rewrite Nat2Z.id, firstn_all. reflexivity.
Qed.

Lemma rd_app_l (a b : list Z) (i : Z) :
  0 <= i < lenZ a -> rd (a ++ b) i = rd a i.
Proof. intros H. unfold rd, lenZ in *. apply app_nth1. lia. Qed.

Lemma rd_app_r (a b : list Z) (i : Z) :
  lenZ a <= i -> rd (a ++ b) i = rd b (i - lenZ a).
Proof.
  intros H. unfold rd, lenZ in *. rewrite app_nth2 by lia.
  f_equal. lia.
Qed.

Lemma firstn_app_exact (a b : list Z) : firstn (length a) (a ++ b) = a.
Proof.
  rewrite firstn_app, Nat.sub_diag, firstn_all, firstn_O. apply app_nil_r.
Qed.

(** The CRC over a buffer does not look past its [length] bytes. *)
Lemma se_crc16_chain_prefix (a b crc : list Z) :
  lenZ a <= 255 ->
  CRC.se_crc16_chain (lenZ a) (a ++ b) crc = CRC.se_crc16_chain (lenZ a) a crc.
Proof.
  intros H. unfold lenZ in *.
  rewrite !se_crc16_chain_fold by (rewrite ?length_app; lia).
  rewrite firstn_app_exact, firstn_all. reflexivity.
Qed.

(** [check_crc] on a body followed by two more bytes. *)
Lemma check_crc_trailer (body : list Z) (c0 c1 : Z) :
  1 <= lenZ body -> lenZ body + 2 <= 255 ->
  rd body 0 = lenZ body + 2 ->
  check_crc (body ++ [c0; c1]) (lenZ body + 2)
  = (rd (CRC.se_crc16_chain (lenZ body) body [0; 0]) 0 =? c0)
    && (rd (CRC.se_crc16_chain (lenZ body) body [0; 0]) 1 =? c1).
Proof.
  intros Hlen Hmax Hcount. unfold check_crc.
  rewrite (u8_small (lenZ body + 2)) by lia.
  rewrite rd_app_l, Hcount, Z.eqb_refl by lia. cbn [negb].
  replace (lenZ body + 2 - 2) with (lenZ body) by lia.
  rewrite se_crc16_chain_prefix by lia.
  rewrite !rd_app_r by lia.
  replace (lenZ body - lenZ body) with 0 by lia.
  replace (lenZ body + 2 - 1 - lenZ body) with 1 by lia.
  reflexivity.
Qed.

Lemma check_crc_framed (body : list Z) :
  1 <= lenZ body -> lenZ body + 2 <= 255 ->
  rd body 0 = lenZ body + 2 ->
  check_crc (body ++ CRC.se_crc16_chain (lenZ body) body [0; 0]) (lenZ body + 2)
  = true.
Proof.
  intros Hlen Hmax Hcount.
  set (crc := CRC.se_crc16_chain (lenZ body) body [0; 0]).
  assert (Hcrc : crc = [rd crc 0; rd crc 1]) by reflexivity.
  rewrite Hcrc at 1. rewrite check_crc_trailer by assumption.
  fold crc. rewrite !Z.eqb_refl. reflexivity.
Qed.

(** X3. [check_crc] accepts a frame exactly when its last two bytes are the
    chained CRC, seeded with zero, of everything before them: for a body
    whose first byte is the length of the whole frame, the frame made of the
    body and two more bytes passes if and only if those two bytes are what
    [se_crc16_chain] computes over the body. *)
Theorem check_crc_accepts_iff (body : list Z) (c0 c1 : Z) :
  1 <= lenZ body -> lenZ body + 2 <= 255 ->
  rd body 0 = lenZ body + 2 ->
  check_crc (body ++ [c0; c1]) (lenZ body + 2) = true
  <-> CRC.se_crc16_chain (lenZ body) body [0; 0] = [c0; c1].
Proof.
  intros Hlen Hmax Hcount.
  rewrite check_crc_trailer by assumption.
  set (crc := CRC.se_crc16_chain (lenZ body) body [0; 0]).
  assert (Hcrc : crc = [rd crc 0; rd crc 1]) by reflexivity.
  rewrite andb_true_iff, !Z.eqb_eq. split.
  - intros [H0 H1]. rewrite Hcrc, H0, H1. reflexivity.
  - intros H. rewrite H. split; reflexivity.
Qed.

(** ** FrameTransport: a response through [se_read] *)

Section ReadRoundTrip.
Context {seh : se_h}.

Lemma response_frame_checks (payload : list Z) :
  bytes payload -> 1 <= lenZ payload <= 252 ->
  bytes (response_frame payload) /\
  lenZ (response_frame payload) = lenZ payload + 3 /\
  rd (response_frame payload) 0 = lenZ payload + 3 /\
  check_crc (response_frame payload) (lenZ payload + 3) = true.
Proof.
  intros Hb Hlen. unfold response_frame.
  set (body := (lenZ payload + 3) :: payload).
  assert (Hbody : lenZ body = lenZ payload + 1)
    by (unfold body, lenZ; cbn [length]; lia).
  destruct (se_crc16_chain_bytes (lenZ body) body [0; 0]) as [Hcb Hcl].
  split; [|split; [|split]].
  - apply Forall_app. split; [|exact Hcb].
    constructor; [unfold is_byte; lia | exact Hb].
  - assert (Hc2 : lenZ (CRC.se_crc16_chain (lenZ body) body [0; 0]) = 2)
      by (unfold lenZ at 1; rewrite Hcl; reflexivity).
    rewrite len_app, Hc2, Hbody. lia.
  - reflexivity.
  - replace (lenZ payload + 3) with (lenZ body + 2) by lia.
    apply check_crc_framed; [lia | lia |].
    change (rd body 0) with (lenZ payload + 3). lia.
Qed.

(** A pass of the loop of [se_read] over a run that carries a well-formed
    response. *)
Lemma se_read_loop_frame (n : nat) (payload data tmp stray run : list Z)
                         (rest : list (list Z)) (s : state) :
  bytes payload -> 1 <= lenZ payload <= 252 ->
  lenZ payload <= lenZ data ->
  lenZ tmp = lenZ payload + 3 ->
  uart_rx s = run :: rest ->
  low7 run = serialize (response_frame payload) ++ stray ->
  (length stray < 8)%nat ->
  se_read_loop (S n) (lenZ payload) data tmp s
  = Some ((0, payload ++ skipn (length payload) data),
          push_tdr (serialize_byte IOFLAG_IDLE) (after_response s)).
Proof.
  intros Hb Hlen Hdata Htmp Hrx Hrun Hstray.
  set (len := lenZ payload) in *.
  destruct (response_frame_checks payload Hb Hlen) as (Hfb & Hfl & Hf0 & Hcrc).
  fold len in Hfl, Hf0, Hcrc.
  destruct (received_frame (response_frame payload) stray run (len + 3)
              Hfb Hrun Hstray ltac:(lia)) as [Hcount Hrecv].
  rewrite Hfl in Hcount.
  assert (Hfirst : firstn (Z.to_nat (len + 3)) (response_frame payload)
                   = response_frame payload).
  { apply firstn_all2. unfold lenZ in Hfl. lia. }
  rewrite Hfirst in Hrecv.
  rewrite se_read_loop_S.
  destruct (attempt_valid len data tmp s) as [tmp' Hatt].
  - lia.
  - exact Htmp.
  - exact Hdata.
  - rewrite Hrx. cbn [hd]. unfold valid_frame. rewrite Hcount, Hrecv.
    repeat split; [lia|]. right. split; assumption.
  - erewrite bind_some by exact Hatt. cbv beta iota.
    rewrite Hrx. cbn [hd]. rewrite Hrecv. unfold ret. do 3 f_equal.
    unfold response_frame, offs. change (Z.to_nat 1) with 1%nat.
    cbn [app skipn]. unfold memcpy, len, lenZ. rewrite Nat2Z.id.
    rewrite firstn_app_exact. reflexivity.
Qed.

(** [se_read] on a line whose next run carries a well-formed response. *)
Lemma se_read_response_frame (payload data stray run : list Z)
                             (rest : list (list Z)) (s : state) :
  bytes payload -> 1 <= lenZ payload <= 252 ->
  lenZ payload <= lenZ data ->
  uart_rx s = run :: rest ->
  low7 run = serialize (response_frame payload) ++ stray ->
  (length stray < 8)%nat ->
  se_read data (lenZ payload) s
  = Some ((0, payload ++ skipn (length payload) data),
          push_tdr (serialize_byte IOFLAG_IDLE) (after_response s)).
Proof.
  intros Hb Hlen Hdata Hrx Hrun Hstray.
  rewrite se_read_eq by (unfold is_byte; lia).
  change 101%nat with (S 100).
  apply se_read_loop_frame with (stray := stray) (run := run) (rest := rest);
    try assumption.
  apply uninit_tmp_length. lia.
Qed.

End ReadRoundTrip.

(** X4. A response goes through [se_read] unchanged: when the next run on
    the line carries the frame the chip builds for [payload] (length byte,
    payload, CRC) -- followed by fewer stray pulses than make a byte --
    [se_read] returns 0 on the first pass, has stored [payload] at the start
    of [data] and left the rest of [data] alone, and has sent one TX flag
    and one IDLE flag. *)
Theorem read_delivers_payload {seh : se_h}
    (payload data stray run : list Z) (rest : list (list Z)) (s : state) :
  bytes payload -> 1 <= lenZ payload <= 252 ->
  lenZ payload <= lenZ data ->
  uart_rx s = run :: rest ->
  low7 run = serialize (response_frame payload) ++ stray ->
  (length stray < 8)%nat ->
  exists s',
    se_read data (lenZ payload) s
    = Some ((0, payload ++ skipn (length payload) data), s') /\
    uart_rx s' = rest /\
    uart_tdr s'
    = uart_tdr s ++ serialize_byte IOFLAG_TX ++ serialize_byte IOFLAG_IDLE /\
    ln_retry s' = ln_retry s.
Proof.
  intros Hb Hlen Hdata Hrx Hrun Hstray. eexists. split.
  - eapply se_read_response_frame; eassumption.
  - rewrite uart_rx_push_tdr, after_response_uart_rx, Hrx.
    rewrite uart_tdr_push_tdr, after_response_uart_tdr, <- app_assoc.
    repeat split.
    rewrite <- (after_response_ln_retry s).
    destruct (after_response s); reflexivity.
Qed.

(** ** FrameTransport: every way out of [se_read] *)

Lemma deserialize_bits_byte (from : list Z) :
  is_byte (deserialize_bits 8 0 0x1 0 from).
Proof.
  cbn [deserialize_bits].
  change (0 + 1) with 1. change (1 + 1) with 2. change (2 + 1) with 3.
  change (3 + 1) with 4. change (4 + 1) with 5. change (5 + 1) with 6.
  change (6 + 1) with 7.
  generalize (Z.lxor (rd from 0) 127 <? 2) (Z.lxor (rd from 1) 127 <? 2)
             (Z.lxor (rd from 2) 127 <? 2) (Z.lxor (rd from 3) 127 <? 2)
             (Z.lxor (rd from 4) 127 <? 2) (Z.lxor (rd from 5) 127 <? 2)
             (Z.lxor (rd from 6) 127 <? 2) (Z.lxor (rd from 7) 127 <? 2).
  intros c0 c1 c2 c3 c4 c5 c6 c7.
  destruct c0, c1, c2, c3, c4, c5, c6, c7; vm_compute; (split; [discriminate | reflexivity]).
Qed.

Lemma deserialize_loop_bytes (fuel : nat) :
  forall (from : list Z) (from_len max_into : Z),
    bytes (deserialize_loop fuel from from_len max_into).
Proof.
  induction fuel as [|fuel IH]; intros from from_len max_into;
    cbn [deserialize_loop].
  - constructor.
  - destruct (0 <? from_len); [|constructor].
    constructor; [apply deserialize_bits_byte|].
    destruct (max_into - 1 <=? 0); [constructor | apply IH].
Qed.

Lemma received_bytes (max_len : Z) (run : list Z) : bytes (received max_len run).
Proof. apply deserialize_loop_bytes. Qed.

Lemma rd_byte (l : list Z) (i : Z) : bytes l -> is_byte (rd l i).
Proof.
  intros Hl. unfold rd.
  destruct (nth_in_or_default (Z.to_nat i) l 0) as [Hin| ->].
  - unfold bytes in Hl. rewrite Forall_forall in Hl. apply Hl. exact Hin.
  - unfold is_byte. lia.
Qed.

Lemma memcpy_bytes (dst src : list Z) (n : Z) :
  bytes dst -> bytes src -> bytes (memcpy dst src n).
Proof.
  intros Hd Hs. unfold memcpy, bytes in *.
  rewrite <- (firstn_skipn (Z.to_nat n) src) in Hs.
  rewrite <- (firstn_skipn (Z.to_nat n) dst) in Hd.
  apply Forall_app in Hs, Hd. apply Forall_app. split; tauto.
Qed.

Lemma uninit_bytes (n : nat) : bytes (uninit n).
Proof.
  unfold bytes, uninit. apply Forall_forall. intros x Hx.
  apply repeat_spec in Hx. subst x. unfold is_byte. lia.
Qed.

Lemma memcpy_length (dst src : list Z) (n : Z) :
  n <= lenZ src -> n <= lenZ dst -> length (memcpy dst src n) = length dst.
Proof.
  intros Hs Hd. unfold memcpy, lenZ in *.
  rewrite length_app, length_firstn, length_skipn. lia.
Qed.

Lemma memcpy_skipn (dst src : list Z) (n : Z) :
  0 <= n <= lenZ src ->
  skipn (Z.to_nat n) (memcpy dst src n) = skipn (Z.to_nat n) dst.
Proof.
  intros Hn. unfold memcpy, lenZ in *.
  rewrite skipn_app, length_firstn.
  replace (Z.to_nat n - Nat.min (Z.to_nat n) (length src))%nat with O by lia.
  rewrite skipn_all2 by (rewrite length_firstn; lia). reflexivity.
Qed.

Section ReadOutcome.
Context {seh : se_h}.

(** What one pass of the loop leaves behind, by the way it ends.  A pass
    that delivers has seen at least four bytes and copies all but three of
    them; unless the command is Info it has also seen the expected length
    byte and a matching CRC. *)
Lemma attempt_cases (len : Z) (data tmp tmp' : list Z) (s s1 : state) (r : attempt) :
  se_read_attempt len data tmp s = Some ((r, tmp'), s1) ->
  let run := hd [] (uart_rx s) in
  let n := received_count run in
  let f := memcpy tmp (received (len + 3) run) (lenZ (received (len + 3) run)) in
  tmp' = f /\
  uart_rx s1 = tl (uart_rx s) /\
  current_opcode s1 = current_opcode s /\
  rng_tape s1 = rng_tape s /\
  (r = TryAgain \/
   r = Return (-1) data \/
   (r = Return 0 (memcpy data (offs f 1) (n - 3)) /\
    4 <= n /\ n - 3 <= len + 2 /\ n - 3 <= lenZ data /\
    (current_opcode s <> OP_Info -> rd f 0 = len + 3 /\ check_crc f n = true))).
Proof.
  intros Hrun run n f. revert Hrun.
  unfold se_read_attempt.
  erewrite bind_some by apply se_read_response_eq.
  cbv beta iota. fold run. fold n. fold f.
  assert (Hst : uart_rx (after_response s) = tl (uart_rx s) /\
                current_opcode (after_response s) = current_opcode s /\
                rng_tape (after_response s) = rng_tape s).
  { rewrite after_response_uart_rx, after_response_current_opcode,
      after_response_rng_tape. auto. }
  destruct Hst as (Hrx & Hop & Htape).
  assert (Hd : forall r0 s0,
             4 <= n ->
             (current_opcode s <> OP_Info -> rd f 0 = len + 3 /\ check_crc f n = true) ->
             se_read_deliver len data f n (after_response s) = Some (r0, s0) ->
             uart_rx s0 = tl (uart_rx s) /\
             current_opcode s0 = current_opcode s /\
             rng_tape s0 = rng_tape s /\
             (r0 = TryAgain \/
              r0 = Return (-1) data \/
              (r0 = Return 0 (memcpy data (offs f 1) (n - 3)) /\
               4 <= n /\ n - 3 <= len + 2 /\ n - 3 <= lenZ data /\
               (current_opcode s <> OP_Info ->
                rd f 0 = len + 3 /\ check_crc f n = true)))).
  { intros r0 s0 Hn Hchk. unfold se_read_deliver.
    destruct (Z.leb_spec (n - 3) (len + 2)); [|discriminate].
    destruct (Z.leb_spec (n - 3) (lenZ data)); [|discriminate].
    cbn [andb]. erewrite bind_some by apply send_bits_tdr.
    intros H'; injection H' as <- <-; state_simpl.
    repeat split; auto.
    right. right. repeat split; auto; apply Hchk; assumption. }
  destruct (Z.ltb_spec n 4) as [Hlt|Hge].
  - destruct (n =? 0); intros H; injection H as <- <- <-; state_simpl; auto 10.
  - unfold bind at 1, gets at 1. rewrite Hop.
    destruct (Z.eqb_spec (current_opcode s) OP_Info) as [Hinfo|Hinfo]; cbn [negb].
    + unfold bind at 1.
      destruct (se_read_deliver len data f n (after_response s))
        as [[r0 s0]|] eqn:E; [|discriminate].
      intros H; injection H as <- <- <-. split; [reflexivity|].
      eapply Hd; [exact Hge | intros Hne; contradiction | reflexivity].
    + destruct (Z.eqb_spec (rd f 0) (len + 3)) as [Hf0|Hf0]; cbn [negb].
      * destruct (check_crc f n) eqn:Hcrc; cbn [negb].
        -- unfold bind at 1.
           destruct (se_read_deliver len data f n (after_response s))
             as [[r0 s0]|] eqn:E; [|discriminate].
           intros H; injection H as <- <- <-. split; [reflexivity|].
           eapply Hd; [exact Hge | auto | reflexivity].
        -- intros H; injection H as <- <- <-; state_simpl; auto 10.
      * erewrite bind_some by apply incr_eq.
        destruct (rd f 0 =? 4).
        -- erewrite bind_some by apply incr_eq.
           destruct (rd f 1 =? 238);
             intros H; injection H as <- <- <-; state_simpl; auto 10.
        -- intros H; injection H as <- <- <-; state_simpl; auto 10.
Qed.

Lemma check_crc_count (f : list Z) (n : Z) :
  check_crc f n = true -> rd f 0 = u8 n.
Proof.
  unfold check_crc. destruct (Z.eqb_spec (rd f 0) (u8 n)); [auto|discriminate].
Qed.

(** A pass that delivers for a command other than Info copies [len] bytes. *)
Lemma delivered_count (len n : Z) (f : list Z) :
  0 <= len -> 4 <= n -> n - 3 <= len + 2 ->
  rd f 0 = len + 3 -> check_crc f n = true ->
  n = len + 3.
Proof.
  intros Hlen Hn Hmax Hf0 Hcrc. apply check_crc_count in Hcrc.
  pose proof (u8_range n) as Hr. unfold u8 in *.
  pose proof (Z.div_mod n 256 ltac:(lia)) as Hdm.
  assert (Hq : n / 256 = 0 \/ 1 <= n / 256) .
  { assert (0 <= n / 256) by (apply Z.div_pos; lia). lia. }
  lia.
Qed.

Lemma received_tmp (len : Z) (tmp run : list Z) :
  0 <= len -> lenZ tmp = len + 3 -> bytes tmp ->
  let f := memcpy tmp (received (len + 3) run) (lenZ (received (len + 3) run)) in
  lenZ f = len + 3 /\ bytes f.
Proof.
  intros Hlen Htmp Hb f.
  pose proof (received_length (len + 3) run ltac:(lia)) as Hl.
  split.
  - unfold f, lenZ at 1. rewrite memcpy_all_length; [exact Htmp|].
    unfold lenZ in *. lia.
  - apply memcpy_bytes; [exact Hb | apply received_bytes].
Qed.

(** What [se_read] has done when it returns: it has failed and left [data]
    alone, or it has copied [m] bytes, at least one, out of a frame [f] just
    received; for a command other than Info, [m] is [len]. *)
Lemma se_read_loop_outcome (n : nat) :
  forall (len : Z) (data tmp d : list Z) (s s' : state) (rc : Z),
    0 <= len -> lenZ tmp = len + 3 -> bytes tmp ->
    se_read_loop n len data tmp s = Some ((rc, d), s') ->
    current_opcode s' = current_opcode s /\
    rng_tape s' = rng_tape s /\
    (exists k, (k <= n)%nat /\ uart_rx s' = skipn k (uart_rx s)) /\
    (rc = -1 /\ d = data \/
     rc = 0 /\
     exists f m,
       d = memcpy data (offs f 1) m /\
       lenZ f = len + 3 /\ bytes f /\
       1 <= m <= len + 2 /\ m <= lenZ data /\
       (current_opcode s <> OP_Info -> m = len)).
Proof.
  induction n as [|n IH]; intros len data tmp d s s' rc Hlen Htmp Hb;
    cbn [se_read_loop].
  - erewrite bind_some by apply incr_eq.
    intros H; injection H as <- <- <-; state_simpl.
    repeat split; auto. exists O. split; [lia | reflexivity].
  - unfold bind at 1.
    destruct (se_read_attempt len data tmp s) as [[[r tmp1] s1]|] eqn:Hatt;
      [|discriminate].
    apply attempt_cases in Hatt. cbv zeta in Hatt.
    destruct (received_tmp len tmp (hd [] (uart_rx s)) Hlen Htmp Hb) as [Hfl Hfb].
    destruct Hatt as (Htmp1 & Hrx & Hop & Htape & Hr).
    destruct Hr as [->|[->|(-> & Hn & Hmax & Hdata & Hchk)]].
    + erewrite bind_some by apply incr_eq. intros H.
      apply IH in H; [|exact Hlen|subst tmp1; exact Hfl|subst tmp1; exact Hfb].
      revert H. state_simpl. rewrite Hop, Htape, Hrx.
      intros (H1 & H2 & (k & Hk & H3) & H4).
      repeat split; auto.
      exists (S k). split; [lia|]. rewrite H3. apply skipn_tl.
    + intros H; injection H as <- <- <-.
      repeat split; auto. exists 1%nat. split; [lia|].
      rewrite Hrx. destruct (uart_rx s); reflexivity.
    + intros H; injection H as <- <- <-.
      repeat split; auto.
      * exists 1%nat. split; [lia|].
        rewrite Hrx. destruct (uart_rx s); reflexivity.
      * right. split; [reflexivity|].
        eexists _, _. split; [reflexivity|].
        split; [exact Hfl|]. split; [exact Hfb|].
        split; [lia|]. split; [lia|].
        intros Hne. destruct (Hchk Hne) as [Hf0 Hcrc].
        pose proof (delivered_count len _ _ Hlen Hn Hmax Hf0 Hcrc). lia.
Qed.

End ReadOutcome.

(** X5. However [se_read] returns, the result is 0 or -1; [data] keeps its
    length; after -1 [data] is exactly as it was; after 0 only the first
    [len + 2] bytes of [data] can have changed, and for a command other than
    Info only the first [len]; the opcode in flight and the random source
    are untouched; and at most 101 responses have been taken off the
    line. *)
Theorem read_outcome {seh : se_h} (data d : list Z) (len rc : Z) (s s' : state) :
  is_byte len ->
  se_read data len s = Some ((rc, d), s') ->
  (rc = 0 \/ rc = -1) /\
  length d = length data /\
  (rc = -1 -> d = data) /\
  skipn (Z.to_nat (len + 2)) d = skipn (Z.to_nat (len + 2)) data /\
  (current_opcode s <> OP_Info ->
   skipn (Z.to_nat len) d = skipn (Z.to_nat len) data) /\
  current_opcode s' = current_opcode s /\
  rng_tape s' = rng_tape s /\
  exists k, (k <= 101)%nat /\ uart_rx s' = skipn k (uart_rx s).
Proof.
  intros Hlen. rewrite se_read_eq by exact Hlen. intros H.
  unfold is_byte in Hlen.
  apply se_read_loop_outcome in H;
    [|lia|apply uninit_tmp_length; lia|apply uninit_bytes].
  destruct H as (Hop & Htape & Hk & [[-> ->]|(-> & f & m & -> & Hfl & Hfb & Hm & Hmd & Hinfo)]).
  - repeat split; auto.
  - assert (Hfl' : lenZ (offs f 1) = len + 2).
    { unfold offs, lenZ in *. rewrite length_skipn. lia. }
    split; [auto|]. split; [apply memcpy_length; lia|].
    split; [discriminate|].
    split; [|split; [|auto]].
    + unfold memcpy. rewrite skipn_app, length_firstn.
      unfold lenZ in *.
      rewrite skipn_all2 by (rewrite length_firstn; lia).
      rewrite skipn_skipn. cbn [app]. f_equal. lia.
    + intros Hne. rewrite (Hinfo Hne). apply memcpy_skipn. lia.
Qed.

(** ** FrameTransport: the copy out of the receive buffer *)

Section ReadSafety.
Context {seh : se_h}.

(** A pass over a response shorter than 259 bytes, for a command other
    than Info, has a result. *)
Lemma attempt_total (len : Z) (data tmp : list Z) (s : state) :
  0 <= len -> len <= lenZ data ->
  current_opcode s <> OP_Info ->
  received_count (hd [] (uart_rx s)) < 259 ->
  exists r tmp' s1, se_read_attempt len data tmp s = Some ((r, tmp'), s1).
Proof.
  intros Hlen Hdata Hop Hcount.
  unfold se_read_attempt.
  erewrite bind_some by apply se_read_response_eq.
  cbv beta iota.
  set (run := hd [] (uart_rx s)) in *.
  set (n := received_count run) in *.
  set (f := memcpy tmp _ _).
  destruct (Z.ltb_spec n 4) as [Hlt|Hge].
  - destruct (n =? 0); erewrite bind_some by apply incr_eq; unfold ret; eauto.
  - unfold bind at 1, gets at 1. rewrite after_response_current_opcode.
    replace (current_opcode s =? OP_Info) with false
      by (symmetry; apply Z.eqb_neq; exact Hop).
    cbn [negb].
    destruct (Z.eqb_spec (rd f 0) (len + 3)) as [Hf0|Hf0]; cbn [negb].
    + destruct (check_crc f n) eqn:Hcrc; cbn [negb].
      * assert (Hn : n = len + 3).
        { apply check_crc_count in Hcrc. rewrite Hf0 in Hcrc.
          pose proof (u8_range n) as Hr. unfold u8 in *.
          pose proof (Z.div_mod n 256 ltac:(lia)) as Hdm.
          assert (0 <= n / 256) by (apply Z.div_pos; lia).
          assert (Hq : n / 256 = 0 \/ 1 <= n / 256) by lia.
          lia. }
        unfold se_read_deliver. rewrite Hn.
        replace (len + 3 - 3) with len by lia.
        replace (len <=? len + 2) with true by (symmetry; apply Z.leb_le; lia).
        replace (len <=? lenZ data) with true by (symmetry; apply Z.leb_le; lia).
        cbn [andb]. rewrite bind_assoc.
        erewrite bind_some by apply send_bits_tdr.
        rewrite !bind_ret_l. unfold ret. eauto.
      * erewrite bind_some by apply incr_eq. unfold ret. eauto.
    + erewrite bind_some by apply incr_eq.
      destruct (rd f 0 =? 4).
      * erewrite bind_some by apply incr_eq.
        destruct (rd f 1 =? 238).
        -- erewrite bind_some by apply incr_eq. unfold ret. eauto.
        -- rewrite bind_ret_l. unfold ret. eauto.
      * unfold ret. eauto.
Qed.

Lemma se_read_loop_total (n : nat) :
  forall (len : Z) (data tmp : list Z) (s : state),
    0 <= len -> len <= lenZ data ->
    current_opcode s <> OP_Info ->
    Forall (fun run => lenZ run < 2072) (uart_rx s) ->
    exists r s', se_read_loop n len data tmp s = Some (r, s').
Proof.
  induction n as [|n IH]; intros len data tmp s Hlen Hdata Hop Hline;
    cbn [se_read_loop].
  - erewrite bind_some by apply incr_eq. unfold ret. eauto.
  - assert (Hcount : received_count (hd [] (uart_rx s)) < 259).
    { rewrite received_count_div.
      apply Z.div_lt_upper_bound; [lia|].
      destruct (uart_rx s) as [|run rest]; cbn [hd].
      - unfold lenZ. cbn. lia.
      - apply Forall_inv in Hline. lia. }
    destruct (attempt_total len data tmp s Hlen Hdata Hop Hcount)
      as (r & tmp' & s1 & Hatt).
    erewrite bind_some by exact Hatt. cbv beta iota.
    pose proof (attempt_cases _ _ _ _ _ _ _ Hatt) as Hc. cbv zeta in Hc.
    destruct Hc as (_ & Hrx & Hop1 & _ & _).
    destruct r as [rc d|].
    + unfold ret. eauto.
    + erewrite bind_some by apply incr_eq.
      apply IH; try assumption.
      * state_simpl. rewrite Hop1. exact Hop.
      * state_simpl. rewrite Hrx.
        destruct (uart_rx s); [constructor|].
        apply Forall_inv_tail in Hline. exact Hline.
Qed.

End ReadSafety.

(** X6. [se_read] stays inside its buffers: for a command other than Info,
    with room for [len] bytes in [data], and as long as no response on the
    line is 2072 pulses (259 bytes) long or longer, every copy it makes fits
    both the receive buffer and [data], and it returns. *)
Theorem read_stays_in_bounds {seh : se_h} (data : list Z) (len : Z) (s : state) :
  is_byte len ->
  len <= lenZ data ->
  current_opcode s <> OP_Info ->
  Forall (fun run => lenZ run < 2072) (uart_rx s) ->
  exists rc d s',
    se_read data len s = Some ((rc, d), s') /\ length d = length data.
Proof.
  intros Hlen Hdata Hop Hline.
  rewrite se_read_eq by exact Hlen.
  destruct (se_read_loop_total 101 len data (uninit (Z.to_nat (1 + len + 2))) s)
    as ([rc d] & s' & H); try assumption.
  { unfold is_byte in Hlen. lia. }
  exists rc, d, s'. split; [exact H|].
  unfold is_byte in Hlen.
  apply se_read_loop_outcome in H;
    [|lia|apply uninit_tmp_length; lia|apply uninit_bytes].
  destruct H as (_ & _ & _ & [[_ ->]|(_ & f & m & -> & Hfl & _ & Hm & Hmd & _)]).
  - reflexivity.
  - apply memcpy_length; [|lia].
    unfold offs, lenZ in *. rewrite length_skipn. lia.
Qed.

(** X7. The bound of 259 bytes cannot be dropped: [check_crc] takes the
    byte count as a [uint8_t], so a response that is a well-formed frame for
    [payload] followed by 256 more bytes passes both the length check and
    the CRC check, and the copy that follows asks for 256 bytes more than
    the receive buffer holds -- [se_read] has no defined result. *)
Theorem read_overlong_response_overruns {seh : se_h}
    (payload extra data stray run : list Z) (rest : list (list Z)) (s : state) :
  bytes payload -> 1 <= lenZ payload <= 252 ->
  bytes extra -> lenZ extra = 256 ->
  uart_rx s = run :: rest ->
  low7 run = serialize (response_frame payload ++ extra) ++ stray ->
  (length stray < 8)%nat ->
  se_read data (lenZ payload) s = None.
Proof.
  intros Hb Hlen Hbe Hle Hrx Hrun Hstray.
  set (len := lenZ payload) in *.
  destruct (response_frame_checks payload Hb Hlen) as (Hfb & Hfl & Hf0 & Hcrc).
  fold len in Hfl, Hf0, Hcrc.
  destruct (received_frame (response_frame payload ++ extra) stray run (len + 3))
    as [Hcount Hrecv]; try assumption.
  { apply Forall_app. split; assumption. }
  { lia. }
  rewrite len_app, Hfl, Hle in Hcount.
  assert (Hfirst : firstn (Z.to_nat (len + 3)) (response_frame payload ++ extra)
                   = response_frame payload).
  { replace (Z.to_nat (len + 3)) with (length (response_frame payload))
      by (unfold lenZ in Hfl; lia).
    apply firstn_app_exact. }
  rewrite Hfirst in Hrecv.
  rewrite se_read_eq by (unfold is_byte; lia).
  change 101%nat with (S 100). rewrite se_read_loop_S.
  unfold se_read_attempt. rewrite bind_assoc.
  erewrite bind_some by apply se_read_response_eq.
  cbv beta iota. rewrite Hrx. cbn [hd]. rewrite Hcount, Hrecv.
  rewrite memcpy_all_same
    by (pose proof (uninit_tmp_length len ltac:(lia)) as Ht;
        unfold lenZ in *; lia).
  replace (len + 3 + 256 <? 4) with false by (symmetry; apply Z.ltb_ge; lia).
  assert (Hchk : check_crc (response_frame payload) (len + 3 + 256) = true).
  { unfold check_crc in *. unfold u8 in *.
    replace ((len + 3 + 256) mod 256) with ((len + 3) mod 256); [exact Hcrc|].
    rewrite <- (Z_mod_plus_full (len + 3) 1 256). f_equal. }
  assert (Hnone : forall B (k : attempt -> M B) s0,
             (r <- se_read_deliver len data (response_frame payload)
                     (len + 3 + 256) ;; k r) s0 = None).
  { intros B k s0. unfold bind, se_read_deliver.
    replace (len + 3 + 256 - 3 <=? len + 2) with false
      by (symmetry; apply Z.leb_gt; lia).
    reflexivity. }
  rewrite bind_assoc. unfold bind at 1, gets at 1.
  destruct (negb (current_opcode (after_response s) =? OP_Info)).
  - rewrite Hf0, Z.eqb_refl, Hchk. cbn [negb].
    rewrite bind_assoc. apply Hnone.
  - rewrite bind_assoc. apply Hnone.
Qed.

(** ** FrameTransport: Info, and single bytes *)

Section ReadInfo.
Context {seh : se_h}.

(** The start of the receive buffer after a response, past its first byte. *)
Lemma firstn_tl_stored (frame rest : list Z) (j k : nat) :
  (k + 1 <= j)%nat -> (k + 1 <= length frame)%nat ->
  firstn k (skipn 1 (firstn j frame ++ rest)) = firstn k (tl frame).
Proof.
  intros Hj Hf.
  destruct frame as [|b frame]; [cbn in Hf; lia|].
  destruct j as [|j]; [lia|].
  cbn [firstn app skipn tl]. cbn [length] in Hf.
  rewrite firstn_app, firstn_firstn, length_firstn.
  replace (Nat.min k j) with k by lia.
  replace (k - Nat.min j (length frame))%nat with O by lia.
  rewrite firstn_O. apply app_nil_r.
Qed.

Lemma se_read_info (frame data stray run : list Z) (rest : list (list Z))
                   (len : Z) (s : state) :
  current_opcode s = OP_Info ->
  is_byte len ->
  bytes frame -> 4 <= lenZ frame <= len + 5 ->
  lenZ frame - 3 <= lenZ data ->
  uart_rx s = run :: rest ->
  low7 run = serialize frame ++ stray ->
  (length stray < 8)%nat ->
  se_read data len s
  = Some ((0, firstn (length frame - 3) (tl frame)
              ++ skipn (length frame - 3) data),
          push_tdr (serialize_byte IOFLAG_IDLE) (after_response s)).
Proof.
  intros Hop Hlen Hb Hn Hdata Hrx Hrun Hstray. unfold is_byte in Hlen.
  destruct (received_frame frame stray run (len + 3) Hb Hrun Hstray ltac:(lia))
    as [Hcount Hrecv].
  rewrite se_read_eq by exact Hlen.
  change 101%nat with (S 100). rewrite se_read_loop_S.
  unfold se_read_attempt. rewrite bind_assoc.
  erewrite bind_some by apply se_read_response_eq.
  cbv beta iota. rewrite Hrx. cbn [hd]. rewrite Hcount, Hrecv.
  replace (lenZ frame <? 4) with false by (symmetry; apply Z.ltb_ge; lia).
  rewrite bind_assoc. unfold bind at 1, gets at 1.
  rewrite after_response_current_opcode, Hop, Z.eqb_refl. cbn [negb].
  unfold se_read_deliver.
  replace (lenZ frame - 3 <=? len + 2) with true by (symmetry; apply Z.leb_le; lia).
  replace (lenZ frame - 3 <=? lenZ data) with true by (symmetry; apply Z.leb_le; lia).
  cbn [andb]. rewrite !bind_assoc.
  erewrite bind_some by apply send_bits_tdr.
  rewrite !bind_ret_l. unfold ret. do 3 f_equal.
  unfold memcpy at 1. unfold offs. change (Z.to_nat 1) with 1%nat.
  replace (Z.to_nat (lenZ frame - 3)) with (length frame - 3)%nat
    by (unfold lenZ; lia).
  f_equal. unfold memcpy. unfold lenZ in *.
  rewrite Nat2Z.id, firstn_all.
  apply firstn_tl_stored; lia.
Qed.

(** The value [se_read1] returns is -1 or one byte. *)
Lemma se_read1_range (s s' : state) (r : Z) :
  se_read1 s = Some (r, s') -> r = -1 \/ is_byte r.
Proof.
  unfold se_read1. intros H. apply bind_inv in H.
  destruct H as ([rc d] & s1 & Hread & Hk).
  rewrite se_read_eq in Hread by (unfold is_byte; lia).
  apply se_read_loop_outcome in Hread;
    [|lia|apply uninit_tmp_length; lia|apply uninit_bytes].
  destruct Hread as (_ & _ & _ & [[-> ->]|(-> & f & m & -> & Hfl & Hfb & Hm & Hmd & _)]).
  - injection Hk as <- _. left. reflexivity.
  - cbn [Z.ltb Z.compare] in Hk. injection Hk as <- _. right.
    change (lenZ (uninit 1)) with 1 in Hmd.
    assert (m = 1) by lia. subst m.
    apply rd_byte, memcpy_bytes; [apply uninit_bytes|].
    unfold offs, bytes in *.
    rewrite <- (firstn_skipn (Z.to_nat 1) f) in Hfb.
    apply Forall_app in Hfb. tauto.
Qed.

End ReadInfo.

(** X8. With an Info command in flight [se_read] checks neither the length
    byte nor the CRC: whatever frame of at least four bytes arrives is taken
    on the first pass, and all of it but the first byte and the last two is
    copied into [data] -- up to [len + 2] bytes, two more than were asked
    for, when the frame is longer than [len + 3]. *)
Theorem read_info_unchecked {seh : se_h}
    (frame data stray run : list Z) (rest : list (list Z)) (len : Z) (s : state) :
  current_opcode s = OP_Info ->
  is_byte len ->
  bytes frame -> 4 <= lenZ frame <= len + 5 ->
  lenZ frame - 3 <= lenZ data ->
  uart_rx s = run :: rest ->
  low7 run = serialize frame ++ stray ->
  (length stray < 8)%nat ->
  exists s',
    se_read data len s
    = Some ((0, firstn (length frame - 3) (tl frame)
                ++ skipn (length frame - 3) data), s') /\
    uart_rx s' = rest /\
    ln_retry s' = ln_retry s /\
    crc_errors s' = crc_errors s /\
    len_error s' = len_error s.
Proof.
  intros Hop Hlen Hb Hn Hdata Hrx Hrun Hstray. eexists. split.
  - eapply se_read_info; eassumption.
  - rewrite uart_rx_push_tdr, after_response_uart_rx, Hrx.
    rewrite <- (after_response_ln_retry s), <- (after_response_len_error s).
    assert (Hcrc : crc_errors (after_response s) = crc_errors s).
    { destruct s as [? ? ? ? ? ? ? ? ? ? ? ? ? rx ?]. destruct rx; reflexivity. }
    rewrite <- Hcrc.
    destruct (after_response s); repeat split; reflexivity.
Qed.

(** X9. [se_read1] returns -1 or a value from 0 to 255, whatever arrives
    on the line: a failure can never be mistaken for a byte read. *)
Theorem read1_returns_byte_or_failure {seh : se_h} (s s' : state) (r : Z) :
  se_read1 s = Some (r, s') ->
  r = -1 \/ 0 <= r <= 255.
Proof.
  intros H. apply se_read1_range in H. unfold is_byte in H. lia.
Qed.

(** ** FrameTransport: the command frame meets the checks of a receiver *)

Lemma pulses_only (n : nat) :
  forall mask tx, Forall (fun p => p = BIT0 \/ p = BIT1) (pulses n mask tx).
Proof.
  induction n as [|n IH]; intros mask tx; cbn [pulses].
  - constructor.
  - constructor; [|apply IH].
    destruct (_ =? _); auto.
Qed.

Lemma serialize_pulses (l : list Z) :
  Forall (fun p => p = BIT0 \/ p = BIT1) (serialize l).
Proof.
  unfold serialize. induction l as [|b l IH]; cbn [flat_map].
  - constructor.
  - apply Forall_app. split; [apply pulses_only | exact IH].
Qed.

Section WriteFrame.
Context {seh : se_h}.

Lemma command_frame_checks (opcode p1 p2 : Z) (data : list Z) (data_len : Z) :
  u8 data_len <= lenZ data -> u8 data_len <= 248 ->
  let frame := tl (command_frame opcode p1 p2 data data_len) in
  lenZ frame = u8 data_len + 7 /\
  check_crc frame (lenZ frame) = true.
Proof.
  intros Hdata Hmax. pose proof (u8_range data_len) as Hr.
  unfold command_frame. set (dl := u8 data_len) in *.
  set (hdr := [u8 (dl + 7); u8 opcode; u8 p1; u8 (Z.land (u16 p2) 255);
               u8 (Z.land (Z.shiftr (u16 p2) 8) 255)]).
  change (offs (IOFLAG_CMD :: hdr) 1) with hdr.
  set (body := firstn (Z.to_nat dl) data).
  assert (Hbody : lenZ body = dl).
  { unfold body, lenZ in *. rewrite length_firstn. lia. }
  assert (Hhdr : lenZ hdr = 5) by reflexivity.
  assert (Hcrc : CRC.se_crc16_chain dl data (CRC.se_crc16_chain 5 hdr [0; 0])
                 = CRC.se_crc16_chain (lenZ (hdr ++ body)) (hdr ++ body) [0; 0]).
  { rewrite len_app, <- crc_chain_app by lia. rewrite Hhdr.
    rewrite <- (se_crc16_chain_prefix body (skipn (Z.to_nat dl) data)) by lia.
    unfold body. rewrite firstn_skipn. fold body. rewrite Hbody. reflexivity. }
  rewrite Hcrc.
  cbv zeta.
  change (tl ((IOFLAG_CMD :: hdr) ++ body
              ++ CRC.se_crc16_chain (lenZ (hdr ++ body)) (hdr ++ body) [0; 0]))
    with (hdr ++ body
          ++ CRC.se_crc16_chain (lenZ (hdr ++ body)) (hdr ++ body) [0; 0]).
  rewrite app_assoc.
  assert (Hhb : lenZ (hdr ++ body) = dl + 5) by (rewrite len_app; lia).
  assert (Hlen : lenZ ((hdr ++ body)
                       ++ CRC.se_crc16_chain (lenZ (hdr ++ body)) (hdr ++ body) [0; 0])
                 = dl + 7).
  { rewrite len_app, Hhb.
    destruct (se_crc16_chain_bytes (dl + 5) (hdr ++ body) [0; 0]) as [_ Hl].
    unfold lenZ at 1. rewrite Hl. lia. }
  split; [exact Hlen|]. rewrite Hlen.
  replace (dl + 7) with (lenZ (hdr ++ body) + 2) by lia.
  apply check_crc_framed; [lia | lia |].
  rewrite Hhb. change (rd (hdr ++ body) 0) with (u8 (dl + 7)).
  rewrite u8_small; unfold is_byte; lia.
Qed.

End WriteFrame.

(** X10. What [se_write] puts on the wire is a frame its own receive path
    would take: after the wake byte come only BIT0 and BIT1 pulses; they
    spell the command flag and a frame of [data_len + 7] bytes that starts
    with its own length and passes [check_crc].  The opcode is remembered,
    and nothing is taken off the line. *)
Theorem write_frame_checks {seh : se_h}
    (opcode p1 p2 : Z) (data : list Z) (data_len : Z) (s : state) :
  u8 data_len <= lenZ data -> u8 data_len <= 248 ->
  let frame := tl (command_frame opcode p1 p2 data data_len) in
  exists s',
    se_write opcode p1 p2 data data_len s = Some (tt, s') /\
    uart_tdr s' = uart_tdr s ++ 0 :: serialize (IOFLAG_CMD :: frame) /\
    Forall (fun p => p = BIT0 \/ p = BIT1) (serialize (IOFLAG_CMD :: frame)) /\
    lenZ frame = u8 data_len + 7 /\
    rd frame 0 = lenZ frame /\
    check_crc frame (lenZ frame) = true /\
    current_opcode s' = opcode /\
    uart_rx s' = uart_rx s.
Proof.
  intros Hdata Hmax frame.
  destruct (command_frame_checks opcode p1 p2 data data_len Hdata Hmax)
    as [Hlen Hcrc]. fold frame in Hlen, Hcrc.
  eexists. split; [apply se_write_tdr; exact Hdata|].
  split; [rewrite uart_tdr_push_tdr, uart_tdr_set_current_opcode; reflexivity|].
  split; [apply serialize_pulses|].
  split; [exact Hlen|].
  split.
  { rewrite (check_crc_count _ _ Hcrc). apply u8_small.
    pose proof (u8_range data_len). lia. }
  split; [exact Hcrc|].
  split; [reflexivity|].
  rewrite uart_rx_push_tdr. destruct s; reflexivity.
Qed.

(** ** AuthProtocol: command and answer *)

Lemma low7_serialize (l : list Z) : low7 (serialize l) = serialize l.
Proof.
  unfold low7. pose proof (serialize_pulses l) as H.
  induction H as [|p ps Hp _ IH]; [reflexivity|].
  cbn [map]. rewrite IH. f_equal.
  destruct Hp as [-> | ->]; reflexivity.
Qed.

Lemma bytes_eqb_eq (a b : list Z) : bytes_eqb a b = true <-> a = b.
Proof.
  revert b. induction a as [|x a IH]; intros [|y b]; cbn [bytes_eqb];
    try (split; [discriminate | discriminate || reflexivity]).
  - split; reflexivity.
  - rewrite andb_true_iff, Z.eqb_eq, IH. split.
    + intros [-> ->]. reflexivity.
    + intros H. injection H as -> ->. auto.
Qed.

Lemma uart_rx_asleep (s : state) : uart_rx (asleep s) = uart_rx s.
Proof. apply uart_rx_push_tdr. Qed.

Lemma asleep_ends_asleep (s : state) : ends_asleep (asleep s).
Proof. exists (uart_tdr s). apply uart_tdr_push_tdr. Qed.

Lemma uart_rx_rng_after (n : nat) (s : state) : uart_rx (rng_after n s) = uart_rx s.
Proof. destruct s; reflexivity. Qed.

Lemma uart_rx_answered (opcode p1 p2 : Z) (body : list Z) (data_len : Z) (s : state) :
  uart_rx (answered opcode p1 p2 body data_len s) = tl (uart_rx s).
Proof.
  unfold answered.
  rewrite uart_rx_push_tdr, after_response_uart_rx, uart_rx_push_tdr.
  destruct s; reflexivity.
Qed.

Lemma rng_tape_push_tdr (l : list Z) (s : state) :
  rng_tape (push_tdr l s) = rng_tape s.
Proof. destruct s; reflexivity. Qed.

Lemma rng_tape_answered (opcode p1 p2 : Z) (body : list Z) (data_len : Z) (s : state) :
  rng_tape (answered opcode p1 p2 body data_len s) = rng_tape s.
Proof.
  unfold answered.
  rewrite rng_tape_push_tdr, after_response_rng_tape, rng_tape_push_tdr.
  destruct s; reflexivity.
Qed.

Section Exchange.
Context {seh : se_h}.

(** A command answered at once with a well-formed frame. *)
Lemma exchange_ok (opcode p1 p2 : Z) (body : list Z) (data_len : Z)
                  (payload data : list Z) (rest : list (list Z)) (s : state) :
  u8 data_len <= lenZ body ->
  bytes payload -> 1 <= lenZ payload <= 252 ->
  lenZ payload <= lenZ data ->
  uart_rx s = response_run payload :: rest ->
  (se_write opcode p1 p2 body data_len ;; se_read data (lenZ payload)) s
  = Some ((0, payload ++ skipn (length payload) data),
          answered opcode p1 p2 body data_len s).
Proof.
  intros Hbody Hb Hlen Hdata Hrx.
  erewrite bind_some by (apply se_write_tdr; exact Hbody).
  apply se_read_response_frame with (stray := []) (run := response_run payload)
                                    (rest := rest); try assumption.
  - unfold response_run. rewrite low7_serialize, app_nil_r. reflexivity.
  - cbn. lia.
Qed.

(** The same for a one-byte answer read with [se_read1]. *)
Lemma exchange1_ok (opcode p1 p2 : Z) (body : list Z) (data_len : Z)
                   (b : Z) (rest : list (list Z)) (s : state) :
  u8 data_len <= lenZ body ->
  is_byte b ->
  uart_rx s = response_run [b] :: rest ->
  (se_write opcode p1 p2 body data_len ;; se_read1) s
  = Some (b, answered opcode p1 p2 body data_len s).
Proof.
  intros Hbody Hb Hrx. unfold se_read1. rewrite <- bind_assoc.
  change (se_read (uninit 1) 1) with (se_read (uninit 1) (lenZ [b])).
  erewrite bind_some; cycle 1.
  { apply exchange_ok with (rest := rest); try assumption.
    - constructor; [exact Hb | constructor].
    - change (lenZ [b]) with 1. lia.
    - change (lenZ [b]) with 1. change (lenZ (uninit 1)) with 1. lia. }
  reflexivity.
Qed.

(** An error frame in answer to a command other than Info, read with
    [se_read] for a payload of more than one byte. *)
Lemma exchange_error (opcode p1 p2 : Z) (body : list Z) (data_len : Z)
                     (code len : Z) (data : list Z) (rest : list (list Z))
                     (s : state) :
  u8 data_len <= lenZ body ->
  opcode <> OP_Info ->
  is_byte code -> 2 <= len <= 255 ->
  uart_rx s = response_run [code] :: rest ->
  exists s1,
    (se_write opcode p1 p2 body data_len ;; se_read data len) s
    = Some ((-1, data), s1) /\
    uart_rx s1 = rest /\
    uart_tdr s1
    = uart_tdr s ++ (0 :: serialize (command_frame opcode p1 p2 body data_len))
      ++ serialize_byte IOFLAG_TX.
Proof.
  intros Hbody Hop Hcode Hlen Hrx.
  erewrite bind_some by (apply se_write_tdr; exact Hbody).
  set (s0 := push_tdr _ _).
  assert (Hrx0 : uart_rx s0 = response_run [code] :: rest) by exact Hrx.
  assert (Hop0 : current_opcode s0 = opcode) by reflexivity.
  assert (Htdr0 : uart_tdr s0
                  = uart_tdr s ++ 0 :: serialize (command_frame opcode p1 p2 body data_len)).
  { unfold s0. rewrite uart_tdr_push_tdr, uart_tdr_set_current_opcode. reflexivity. }
  clearbody s0.
  assert (Hfb : bytes (response_frame [code])).
  { apply response_frame_checks; [constructor; [exact Hcode|constructor]|].
    change (lenZ [code]) with 1. lia. }
  destruct (received_frame (response_frame [code]) [] (response_run [code])
              (len + 3) Hfb) as [Hcount Hrecv].
  { unfold response_run. rewrite low7_serialize, app_nil_r. reflexivity. }
  { cbn. lia. }
  { lia. }
  change (lenZ (response_frame [code])) with 4 in Hcount.
  rewrite firstn_all2 in Hrecv
    by (change (length (response_frame [code])) with 4%nat; lia).
  rewrite se_read_eq by (unfold is_byte; lia).
  change 101%nat with (S 100). rewrite se_read_loop_S.
  destruct (attempt_error len data (uninit (Z.to_nat (1 + len + 2))) s0)
    as [tmp' Hatt].
  - lia.
  - apply uninit_tmp_length. lia.
  - rewrite Hop0. exact Hop.
  - rewrite Hrx0. cbn [hd]. rewrite Hcount. lia.
  - rewrite Hrx0. cbn [hd]. rewrite Hrecv.
    change (rd (response_frame [code]) 0) with 4. lia.
  - rewrite Hrx0. cbn [hd]. rewrite Hrecv. reflexivity.
  - erewrite bind_some by exact Hatt. cbv beta iota.
    eexists. split; [reflexivity|].
    unfold after_error_frame. cbv zeta.
    set (sr := after_response s0).
    assert (Hr1 : uart_rx sr = rest)
      by (unfold sr; rewrite after_response_uart_rx, Hrx0; reflexivity).
    assert (Hr2 : uart_tdr sr = uart_tdr s0 ++ serialize_byte IOFLAG_TX)
      by apply after_response_uart_tdr.
    rewrite Htdr0, <- app_assoc in Hr2.
    clearbody sr.
    destruct (_ =? 238); state_simpl; auto.
Qed.

End Exchange.

(** ** AuthProtocol: nonce and digest against an answering chip *)

Section AnsweredAuth.
Context {seh : se_h} {sha : sha256_h} {secrets : secrets_h}.

Lemma sha_memcpy (dst m : list Z) :
  length dst = 32%nat -> memcpy dst (SHA256 m) 32 = SHA256 m.
Proof.
  intros H. apply (memcpy_full _ _ 32); [apply SHA256_length | exact H].
Qed.

Lemma sha_firstn (m : list Z) : firstn 32 (SHA256 m) = SHA256 m.
Proof. apply firstn_exact, SHA256_length. Qed.

Lemma uart_rx_nonce_done (num_in : list Z) (s : state) :
  uart_rx (nonce_done num_in s) = tl (uart_rx s).
Proof. unfold nonce_done. rewrite uart_rx_asleep. apply uart_rx_answered. Qed.

Lemma uart_rx_gendig_done (slot_num : Z) (s : state) :
  uart_rx (gendig_done slot_num s) = tl (tl (uart_rx s)).
Proof.
  unfold gendig_done.
  rewrite uart_rx_asleep, uart_rx_answered, uart_rx_nonce_done, uart_rx_rng_after.
  reflexivity.
Qed.

Lemma pick_nonce_ok (num_in tempkey randout : list Z) (rest : list (list Z))
                    (s : state) :
  (20 <= length num_in)%nat ->
  length tempkey = 32%nat ->
  bytes randout -> length randout = 32%nat ->
  uart_rx s = response_run randout :: rest ->
  se_pick_nonce num_in tempkey s
  = Some ((0, nonce_tempkey randout num_in), nonce_done num_in s).
Proof.
  intros Hnum Htk Hb Hl Hrx.
  assert (Hlz : lenZ randout = 32) by (unfold lenZ; rewrite Hl; reflexivity).
  erewrite se_pick_nonce_eq; cycle 1.
  { rewrite <- Hlz. apply exchange_ok with (rest := rest); try assumption.
    - change (u8 20) with 20. unfold lenZ. lia.
    - lia.
    - rewrite Hlz. change (lenZ (uninit 32)) with 32. lia. }
  cbv beta iota. change (0 <? 0) with false. cbv iota.
  rewrite Hl. change (skipn 32 (uninit 32)) with (@nil Z).
  rewrite app_nil_r, (firstn_exact randout 32 Hl).
  rewrite sha_memcpy by exact Htk. reflexivity.
Qed.

Lemma gendig_answered (slot_num status : Z) (slot_contents digest randout : list Z)
                      (rest : list (list Z)) (s : state) :
  length digest = 32%nat ->
  bytes randout -> length randout = 32%nat ->
  is_byte status ->
  uart_rx s = response_run randout :: response_run [status] :: rest ->
  se_gendig_slot slot_num slot_contents digest s
  = Some (if status =? 0
          then (0, slot_digest slot_num slot_contents
                     (nonce_tempkey randout (rng_next 20 s)))
          else (-1, digest),
          gendig_done slot_num s).
Proof.
  intros Hd Hb Hl Hst Hrx.
  erewrite se_gendig_slot_eq; cycle 1.
  - apply pick_nonce_ok with (randout := randout)
                             (rest := response_run [status] :: rest);
      try assumption.
    + rewrite rng_next_length. lia.
    + reflexivity.
  - apply exchange1_ok with (b := status) (rest := rest).
    + change (u8 0) with 0. change (lenZ []) with 0. lia.
    + exact Hst.
    + fold (nonce_done (rng_next 20 s) (rng_after 20 s)).
      rewrite uart_rx_nonce_done, uart_rx_rng_after, Hrx. reflexivity.
  - cbv beta iota. destruct (status =? 0); [|reflexivity].
    unfold nonce_tempkey at 1. rewrite sha_firstn, sha_memcpy by exact Hd.
    reflexivity.
Qed.

End AnsweredAuth.

(** ** AuthProtocol: checking the tempkey *)

Section TempkeyCheck.
Context {seh : se_h} {sha : sha256_h} {secrets : secrets_h} {serial : serial_h}.

(** [se_is_correct_tempkey], given what the MAC command and the read of its
    response do. *)
Lemma se_is_correct_tempkey_eq (expected_tempkey resp : list Z) (rc : Z)
                               (s s1 : state) :
  (se_write OP_MAC 0x41 KEYNUM_pairing [] 0 ;; se_read (uninit 32) 32) s
  = Some ((rc, resp), s1) ->
  se_is_correct_tempkey expected_tempkey s
  = Some (if rc <? 0 then false
          else bytes_eqb (SHA256 (mac_message expected_tempkey)) (firstn 32 resp),
          asleep s1).
Proof.
  intros H. unfold se_is_correct_tempkey. cbv zeta.
  change (u8 (Z.lor (Z.lor (Z.lor (Z.shiftl 1 6) (Z.shiftl 0 2)) (Z.shiftl 0 1))
                    (Z.shiftl 1 0))) with 65.
  rewrite <- bind_assoc. erewrite bind_some by exact H. cbv beta iota.
  erewrite bind_some by apply se_sleep_eq.
  destruct (rc <? 0); [reflexivity|].
  unfold ret, check_equal, sha256_final, sha256_update, sha256_init, offs.
  change (Z.to_nat 32) with 32%nat. change (Z.to_nat 16) with 16%nat.
  change (Z.to_nat 4) with 4%nat. change (Z.to_nat 0) with 0%nat.
  cbn [app skipn]. rewrite (firstn_exact pairing_secret 32 pairing_secret_length).
  change (Z.of_nat 32) with 32.
  rewrite sha_memcpy by reflexivity. rewrite sha_firstn.
  unfold mac_message. rewrite <- !app_assoc. reflexivity.
Qed.

Lemma is_correct_tempkey_ok (expected_tempkey mac : list Z)
                            (rest : list (list Z)) (s : state) :
  bytes mac -> length mac = 32%nat ->
  uart_rx s = response_run mac :: rest ->
  se_is_correct_tempkey expected_tempkey s
  = Some (bytes_eqb (SHA256 (mac_message expected_tempkey)) mac, mac_done s).
Proof.
  intros Hb Hl Hrx.
  assert (Hlz : lenZ mac = 32) by (unfold lenZ; rewrite Hl; reflexivity).
  erewrite se_is_correct_tempkey_eq; cycle 1.
  { rewrite <- Hlz. apply exchange_ok with (rest := rest); try assumption.
    - change (u8 0) with 0. change (lenZ []) with 0. lia.
    - lia.
    - rewrite Hlz. change (lenZ (uninit 32)) with 32. lia. }
  cbv beta iota. change (0 <? 0) with false. cbv iota.
  rewrite Hl. change (skipn 32 (uninit 32)) with (@nil Z).
  rewrite app_nil_r, (firstn_exact mac 32 Hl). reflexivity.
Qed.

End TempkeyCheck.

(** X11. [se_is_correct_tempkey] answers whether the chip's MAC is the one
    the host computes: when the chip answers the MAC command with a
    well-formed frame of 32 bytes, the result is true exactly when those
    bytes are the SHA-256 of the pairing secret, the expected tempkey, the
    sixteen fixed bytes (opcode, mode 0x41, key number, zeros, 0xEE) and the
    two halves of the serial number, second half first.  Either way the
    chip is put to sleep. *)
Theorem tempkey_check_compares_mac
    {seh : se_h} {sha : sha256_h} {secrets : secrets_h} {serial : serial_h}
    (expected_tempkey mac : list Z) (rest : list (list Z)) (s : state) :
  bytes mac -> length mac = 32%nat ->
  uart_rx s = response_run mac :: rest ->
  exists ok s',
    se_is_correct_tempkey expected_tempkey s = Some (ok, s') /\
    (ok = true <-> mac = SHA256 (mac_message expected_tempkey)) /\
    uart_rx s' = rest /\
    ends_asleep s'.
Proof.
  intros Hb Hl Hrx. eexists _, _.
  split; [exact (is_correct_tempkey_ok expected_tempkey mac rest s Hb Hl Hrx)|].
  split; [rewrite bytes_eqb_eq; split; intros H; symmetry; exact H|].
  split; [|apply asleep_ends_asleep].
  unfold mac_done. rewrite uart_rx_asleep, uart_rx_answered, Hrx. reflexivity.
Qed.

Section HardCheck.
Context {seh : se_h} {sha : sha256_h} {secrets : secrets_h} {serial : serial_h}.

(** [se_checkmac_hard], given what its two steps do. *)
Lemma se_checkmac_hard_eq (keynum : Z) (secret digest : list Z) (ok : bool)
                          (s s1 s2 : state) :
  se_gendig_slot (u8 keynum) secret (uninit 32) s = Some ((0, digest), s1) ->
  se_is_correct_tempkey digest s1 = Some (ok, s2) ->
  se_checkmac_hard keynum secret s = Some (if ok then 0 else -2, s2).
Proof.
  intros Hg Hc. unfold se_checkmac_hard.
  erewrite bind_some by exact Hg. cbv beta iota.
  change (0 <? 0) with false. cbv iota.
  erewrite bind_some by exact Hc. destruct ok; reflexivity.
Qed.

Lemma se_checkmac_hard_no_digest (keynum rc : Z) (secret digest : list Z)
                                 (s s1 : state) :
  se_gendig_slot (u8 keynum) secret (uninit 32) s = Some ((rc, digest), s1) ->
  rc < 0 ->
  se_checkmac_hard keynum secret s = Some (-1, s1).
Proof.
  intros Hg Hrc. unfold se_checkmac_hard.
  erewrite bind_some by exact Hg. cbv beta iota.
  replace (rc <? 0) with true by (symmetry; apply Z.ltb_lt; exact Hrc).
  reflexivity.
Qed.

End HardCheck.

(** X12. [se_checkmac_hard] end to end: the chip answers the Nonce command
    with 32 random bytes, the GenDig command with status 0 and the MAC
    command with 32 bytes.  The host derives the tempkey from the random
    bytes and its own 20 bytes of entropy, the digest from the secret and the
    tempkey, and the MAC it expects from the pairing secret and the digest;
    the call returns 0 when the chip's 32 bytes are that MAC and -2 when they
    are not.  Three responses are taken off the line and the chip is left
    asleep. *)
Theorem checkmac_hard_end_to_end
    {seh : se_h} {sha : sha256_h} {secrets : secrets_h} {serial : serial_h}
    (keynum : Z) (secret randout mac : list Z) (rest : list (list Z)) (s : state) :
  bytes randout -> length randout = 32%nat ->
  bytes mac -> length mac = 32%nat ->
  uart_rx s
  = response_run randout :: response_run [0] :: response_run mac :: rest ->
  let tempkey := nonce_tempkey randout (rng_next 20 s) in
  let digest := slot_digest (u8 keynum) secret tempkey in
  let expected := SHA256 (mac_message digest) in
  exists r s',
    se_checkmac_hard keynum secret s = Some (r, s') /\
    (mac = expected -> r = 0) /\
    (mac <> expected -> r = -2) /\
    uart_rx s' = rest /\
    ends_asleep s'.
Proof.
  intros Hrb Hrl Hmb Hml Hrx tempkey digest expected.
  pose proof (gendig_answered (u8 keynum) 0 secret (uninit 32) randout
                (response_run mac :: rest) s eq_refl Hrb Hrl
                ltac:(unfold is_byte; lia) Hrx) as Hg.
  change (0 =? 0) with true in Hg. cbv iota in Hg. fold tempkey digest in Hg.
  assert (Hrx1 : uart_rx (gendig_done (u8 keynum) s) = response_run mac :: rest)
    by (rewrite uart_rx_gendig_done, Hrx; reflexivity).
  pose proof (is_correct_tempkey_ok digest mac rest _ Hmb Hml Hrx1) as Hc.
  fold expected in Hc.
  eexists _, _. split; [exact (se_checkmac_hard_eq _ _ _ _ _ _ _ Hg Hc)|].
  split; [|split; [|split]].
  - intros ->. replace (bytes_eqb expected expected) with true; [reflexivity|].
    symmetry. apply bytes_eqb_eq. reflexivity.
  - intros Hne. destruct (bytes_eqb expected mac) eqn:E; [|reflexivity].
    apply bytes_eqb_eq in E. congruence.
  - unfold mac_done. rewrite uart_rx_asleep, uart_rx_answered, Hrx1. reflexivity.
  - apply asleep_ends_asleep.
Qed.

(** X13. The two ways [se_checkmac_hard] fails against an answering chip.
    A GenDig status other than 0 gives -1, and no MAC command is sent: the
    chip has been sent the Nonce and GenDig commands only, and the rest of
    the line is left unread.  An error frame in answer to the MAC command
    -- a failed read, not a MAC that differs -- gives -2 all the same. *)
Theorem checkmac_hard_failures
    {seh : se_h} {sha : sha256_h} {secrets : secrets_h} {serial : serial_h}
    (keynum status code : Z) (secret randout : list Z)
    (rest : list (list Z)) (s : state) :
  bytes randout -> length randout = 32%nat ->
  is_byte status -> is_byte code ->
  OP_MAC <> OP_Info ->
  (status <> 0 ->
   uart_rx s = response_run randout :: response_run [status] :: rest ->
   se_checkmac_hard keynum secret s = Some (-1, gendig_done (u8 keynum) s) /\
   uart_rx (gendig_done (u8 keynum) s) = rest) /\
  (uart_rx s
   = response_run randout :: response_run [0] :: response_run [code] :: rest ->
   exists s',
     se_checkmac_hard keynum secret s = Some (-2, s') /\
     uart_rx s' = rest /\
     ends_asleep s').
Proof.
  intros Hrb Hrl Hst Hcode Hop. split.
  - intros Hne Hrx.
    pose proof (gendig_answered (u8 keynum) status secret (uninit 32) randout
                  rest s eq_refl Hrb Hrl Hst Hrx) as Hg.
    replace (status =? 0) with false in Hg by (symmetry; apply Z.eqb_neq; exact Hne).
    split; [exact (se_checkmac_hard_no_digest _ _ _ _ _ _ Hg ltac:(lia))|].
    rewrite uart_rx_gendig_done, Hrx. reflexivity.
  - intros Hrx.
    pose proof (gendig_answered (u8 keynum) 0 secret (uninit 32) randout
                  (response_run [code] :: rest) s eq_refl Hrb Hrl
                  ltac:(unfold is_byte; lia) Hrx) as Hg.
    change (0 =? 0) with true in Hg. cbv iota in Hg.
    set (digest := slot_digest _ _ _) in Hg.
    assert (Hrx1 : uart_rx (gendig_done (u8 keynum) s)
                   = response_run [code] :: rest)
      by (rewrite uart_rx_gendig_done, Hrx; reflexivity).
    destruct (exchange_error OP_MAC 0x41 KEYNUM_pairing [] 0 code 32 (uninit 32)
                rest (gendig_done (u8 keynum) s))
      as (s1 & Hread & Hrest & _); try assumption.
    { change (u8 0) with 0. change (lenZ []) with 0. lia. }
    { lia. }
    pose proof (se_is_correct_tempkey_eq digest _ _ _ _ Hread) as Hc.
    cbv beta iota in Hc. change (-1 <? 0) with true in Hc. cbv iota in Hc.
    eexists. split; [exact (se_checkmac_hard_eq _ _ _ _ _ _ _ Hg Hc)|].
    split; [rewrite uart_rx_asleep; exact Hrest | apply asleep_ends_asleep].
Qed.

(** ** Reading the configuration zone *)

Lemma uart_tdr_answered {seh : se_h} (opcode p1 p2 : Z) (body : list Z)
                        (data_len : Z) (s : state) :
  uart_tdr (answered opcode p1 p2 body data_len s)
  = uart_tdr s ++ (0 :: serialize (command_frame opcode p1 p2 body data_len))
    ++ serialize_byte IOFLAG_TX ++ serialize_byte IOFLAG_IDLE.
Proof.
  unfold answered.
  rewrite uart_tdr_push_tdr, after_response_uart_tdr, uart_tdr_push_tdr,
    uart_tdr_set_current_opcode.
  rewrite <- !app_assoc. reflexivity.
Qed.

Section ConfigRead.
Context {seh : se_h}.

Lemma config_read_done_facts (n : nat) :
  forall (blk : Z) (s : state),
    uart_rx (config_read_done n blk s) = skipn n (uart_rx s) /\
    uart_tdr (config_read_done n blk s) = uart_tdr s ++ config_read_wire n blk.
Proof.
  induction n as [|n IH]; intros blk s; cbn [config_read_done config_read_wire].
  - split; [reflexivity | symmetry; apply app_nil_r].
  - destruct (IH (blk + 1) (answered OP_Read 0x80 (Z.shiftl blk 3) [] 0 s))
      as [Hrx Htdr].
    rewrite Hrx, Htdr, uart_rx_answered, uart_tdr_answered. split.
    + apply skipn_tl.
    + rewrite <- !app_assoc. reflexivity.
Qed.

(** One block stored into [config]. *)
Lemma config_block_stored (config p : list Z) (blk : Z) :
  0 <= blk -> length p = 32%nat -> 32 * (blk + 1) <= lenZ config ->
  let config' := firstn (Z.to_nat (32 * blk)) config
                 ++ p ++ skipn (length p) (offs config (32 * blk)) in
  firstn (Z.to_nat (32 * (blk + 1))) config'
  = firstn (Z.to_nat (32 * blk)) config ++ p /\
  (forall k, 32 * (blk + 1) <= k ->
             skipn (Z.to_nat k) config' = skipn (Z.to_nat k) config) /\
  lenZ config' = lenZ config.
Proof.
  intros Hblk Hp Hlen config'. unfold lenZ in *.
  assert (Hf : length (firstn (Z.to_nat (32 * blk)) config) = Z.to_nat (32 * blk))
    by (rewrite length_firstn; lia).
  assert (Hfp : length (firstn (Z.to_nat (32 * blk)) config ++ p)
                = Z.to_nat (32 * (blk + 1)))
    by (rewrite length_app, Hf, Hp; lia).
  unfold config', offs. rewrite Hp, skipn_skipn. split; [|split].
  - rewrite app_assoc, <- Hfp. apply firstn_app_exact.
  - intros k Hk. rewrite app_assoc, skipn_app, Hfp.
    rewrite skipn_all2 by lia. cbn [app]. rewrite skipn_skipn. f_equal. lia.
  - rewrite !length_app, Hf, Hp, length_skipn. lia.
Qed.

(** The loop of [se_config_read] against a chip that answers each Read
    with a block of 32 bytes. *)
Lemma config_read_loop_ok (blocks : list (list Z)) :
  forall (blk : Z) (config : list Z) (rest : list (list Z)) (s : state),
    0 <= blk ->
    Forall (fun p => bytes p /\ length p = 32%nat) blocks ->
    32 * (blk + Z.of_nat (length blocks)) <= lenZ config ->
    uart_rx s = map response_run blocks ++ rest ->
    config_read_loop (length blocks) blk config s
    = Some ((0, firstn (Z.to_nat (32 * blk)) config ++ concat blocks
                ++ skipn (Z.to_nat (32 * (blk + Z.of_nat (length blocks)))) config),
            config_read_done (length blocks) blk s).
Proof.
  induction blocks as [|p blocks IH]; intros blk config rest s Hblk Hall Hlen Hrx.
  - cbn [length config_read_loop config_read_done concat app].
    change (Z.of_nat 0) with 0. rewrite Z.add_0_r, firstn_skipn. reflexivity.
  - apply Forall_cons_iff in Hall. destruct Hall as [[Hpb Hpl] Hall].
    assert (Hl : Z.of_nat (length (p :: blocks)) = 1 + Z.of_nat (length blocks))
      by (cbn [length]; lia).
    assert (Hlz : lenZ p = 32) by (unfold lenZ; rewrite Hpl; reflexivity).
    cbn [length config_read_loop config_read_done map app] in *.
    assert (Hex := exchange_ok OP_Read 0x80 (Z.shiftl blk 3) [] 0 p
                     (offs config (32 * blk)) (map response_run blocks ++ rest) s).
    rewrite Hlz in Hex.
    rewrite <- bind_assoc. erewrite bind_some; cycle 1.
    { apply Hex; try assumption.
      - change (u8 0) with 0. change (lenZ []) with 0. lia.
      - lia.
      - unfold offs, lenZ in *. rewrite length_skipn. lia. }
    clear Hex.
    cbv beta iota. change (0 <? 0) with false. cbv iota.
    destruct (config_block_stored config p blk Hblk Hpl ltac:(lia))
      as (Hfirst & Hskip & Hsame).
    rewrite (IH (blk + 1) _ rest); try assumption.
    + rewrite Hfirst, Hskip by lia. cbn [concat].
      replace (blk + 1 + Z.of_nat (length blocks))
        with (blk + Z.of_nat (S (length blocks))) by lia.
      rewrite <- !app_assoc. reflexivity.
    + lia.
    + rewrite Hsame. lia.
    + rewrite uart_rx_answered, Hrx. reflexivity.
Qed.

(** The same when the chip answers the Read of the block after [blocks]
    with an error frame. *)
Lemma config_read_loop_error (blocks : list (list Z)) :
  forall (n : nat) (blk code : Z) (config : list Z) (rest : list (list Z))
         (s : state),
    0 <= blk -> (length blocks < n)%nat ->
    OP_Read <> OP_Info -> is_byte code ->
    Forall (fun p => bytes p /\ length p = 32%nat) blocks ->
    32 * (blk + Z.of_nat (length blocks)) <= lenZ config ->
    uart_rx s = map response_run blocks ++ response_run [code] :: rest ->
    exists s1,
      config_read_loop n blk config s
      = Some ((-1, firstn (Z.to_nat (32 * blk)) config ++ concat blocks
                   ++ skipn (Z.to_nat (32 * (blk + Z.of_nat (length blocks)))) config), s1) /\
      uart_rx s1 = rest /\
      uart_tdr s1
      = uart_tdr s ++ config_read_wire (length blocks) blk
        ++ (0 :: serialize (command_frame OP_Read 0x80
                              (Z.shiftl (blk + Z.of_nat (length blocks)) 3) [] 0))
        ++ serialize_byte IOFLAG_TX.
Proof.
  induction blocks as [|p blocks IH];
    intros n blk code config rest s Hblk Hn Hop Hcode Hall Hlen Hrx;
    (destruct n as [|n]; [cbn in Hn; lia|]).
  - cbn [length config_read_loop config_read_wire concat app map] in *.
    change (Z.of_nat 0) with 0. rewrite Z.add_0_r.
    destruct (exchange_error OP_Read 0x80 (Z.shiftl blk 3) [] 0 code 32
                (offs config (32 * blk)) rest s)
      as (s1 & Hread & Hrest & Htdr); try assumption.
    { change (u8 0) with 0. change (lenZ []) with 0. lia. }
    { lia. }
    rewrite <- bind_assoc. erewrite bind_some by exact Hread.
    cbv beta iota. change (-1 <? 0) with true. cbv iota.
    exists s1. unfold ret, offs. rewrite firstn_skipn. auto.
  - apply Forall_cons_iff in Hall. destruct Hall as [[Hpb Hpl] Hall].
    assert (Hl : Z.of_nat (length (p :: blocks)) = 1 + Z.of_nat (length blocks))
      by (cbn [length]; lia).
    assert (Hlz : lenZ p = 32) by (unfold lenZ; rewrite Hpl; reflexivity).
    cbn [length config_read_loop config_read_wire map app] in *.
    assert (Hex := exchange_ok OP_Read 0x80 (Z.shiftl blk 3) [] 0 p
                     (offs config (32 * blk))
                     (map response_run blocks ++ response_run [code] :: rest) s).
    rewrite Hlz in Hex.
    rewrite <- bind_assoc. erewrite bind_some; cycle 1.
    { apply Hex; try assumption.
      - change (u8 0) with 0. change (lenZ []) with 0. lia.
      - lia.
      - unfold offs, lenZ in *. rewrite length_skipn. lia. }
    clear Hex.
    cbv beta iota. change (0 <? 0) with false. cbv iota.
    destruct (config_block_stored config p blk Hblk Hpl ltac:(lia))
      as (Hfirst & Hskip & Hsame).
    destruct (IH n (blk + 1) code
                 (firstn (Z.to_nat (32 * blk)) config
                  ++ p ++ skipn (length p) (offs config (32 * blk)))
                 rest (answered OP_Read 0x80 (Z.shiftl blk 3) [] 0 s))
      as (s1 & Hloop & Hrest & Htdr); try assumption.
    + lia.
    + lia.
    + rewrite Hsame. lia.
    + rewrite uart_rx_answered, Hrx. reflexivity.
    + exists s1. split; [|split].
      * rewrite Hloop, Hfirst, Hskip by lia. cbn [concat].
        replace (blk + 1 + Z.of_nat (length blocks))
          with (blk + Z.of_nat (S (length blocks))) by lia.
        rewrite <- !app_assoc. reflexivity.
      * exact Hrest.
      * rewrite Htdr, uart_tdr_answered.
        replace (blk + 1 + Z.of_nat (length blocks))
          with (blk + Z.of_nat (S (length blocks))) by lia.
        rewrite <- !app_assoc. reflexivity.
Qed.

End ConfigRead.

(** X14. [se_config_read] against a chip that answers every Read at once:
    the four blocks of 32 bytes arrive in [config] in order, whatever
    follows the first 128 bytes of [config] is left alone, and the result is
    0.  On the wire go four Read commands for the word addresses 0, 8, 16
    and 24 of the configuration zone, each followed by the TX and IDLE
    flags, and at the end the SLEEP flag. *)
Theorem config_read_blocks {seh : se_h}
    (blocks : list (list Z)) (config : list Z) (rest : list (list Z)) (s : state) :
  length blocks = 4%nat ->
  Forall (fun p => bytes p /\ length p = 32%nat) blocks ->
  128 <= lenZ config ->
  uart_rx s = map response_run blocks ++ rest ->
  exists s',
    se_config_read config s
    = Some ((0, concat blocks ++ skipn 128 config), s') /\
    uart_rx s' = rest /\
    uart_tdr s'
    = uart_tdr s ++ config_read_wire 4 0 ++ serialize_byte IOFLAG_SLEEP.
Proof.
  intros Hn Hall Hlen Hrx.
  pose proof (config_read_loop_ok blocks 0 config rest s ltac:(lia) Hall
                ltac:(rewrite Hn; lia) Hrx) as Hloop.
  rewrite Hn in Hloop. change (Z.to_nat (32 * 0)) with 0%nat in Hloop.
  change (Z.to_nat (32 * (0 + Z.of_nat 4))) with 128%nat in Hloop.
  cbn [firstn app] in Hloop.
  destruct (config_read_done_facts 4 0 s) as [Hrx4 Htdr4].
  eexists. split; [|split].
  - unfold se_config_read. erewrite bind_some by exact Hloop. cbv beta iota.
    erewrite bind_some by apply send_bits_tdr. reflexivity.
  - rewrite uart_rx_push_tdr, Hrx4, Hrx.
    rewrite <- Hn, <- (length_map response_run blocks).
    rewrite skipn_app, Nat.sub_diag, skipn_all. reflexivity.
  - rewrite uart_tdr_push_tdr, Htdr4, <- app_assoc. reflexivity.
Qed.

(** X15. [se_config_read] stops at the first block that fails: when the
    chip answers the Read of block [k] with an error frame, the result is
    -1; the [k] blocks read before are in [config] and the rest of [config]
    is as it was; no further block is asked for; and the chip is sent to
    sleep all the same. *)
Theorem config_read_stops_at_error {seh : se_h}
    (blocks : list (list Z)) (code : Z) (config : list Z)
    (rest : list (list Z)) (s : state) :
  (length blocks < 4)%nat ->
  OP_Read <> OP_Info -> is_byte code ->
  Forall (fun p => bytes p /\ length p = 32%nat) blocks ->
  32 * Z.of_nat (length blocks) <= lenZ config ->
  uart_rx s = map response_run blocks ++ response_run [code] :: rest ->
  exists s',
    se_config_read config s
    = Some ((-1, concat blocks ++ skipn (32 * length blocks) config), s') /\
    uart_rx s' = rest /\
    uart_tdr s'
    = uart_tdr s ++ config_read_wire (length blocks) 0
      ++ (0 :: serialize (command_frame OP_Read 0x80
                            (Z.shiftl (Z.of_nat (length blocks)) 3) [] 0))
      ++ serialize_byte IOFLAG_TX ++ serialize_byte IOFLAG_SLEEP.
Proof.
  intros Hn Hop Hcode Hall Hlen Hrx.
  destruct (config_read_loop_error blocks 4 0 code config rest s)
    as (s1 & Hloop & Hrest & Htdr); try assumption; try lia.
  change (Z.to_nat (32 * 0)) with 0%nat in Hloop.
  rewrite Z.add_0_l in Hloop, Htdr. cbn [firstn app] in Hloop.
  replace (Z.to_nat (32 * Z.of_nat (length blocks)))
    with (32 * length blocks)%nat in Hloop by lia.
  eexists. split; [|split].
  - unfold se_config_read. erewrite bind_some by exact Hloop. cbv beta iota.
    erewrite bind_some by apply send_bits_tdr. reflexivity.
  - rewrite uart_rx_push_tdr. exact Hrest.
  - rewrite uart_tdr_push_tdr, Htdr, <- !app_assoc. reflexivity.
Qed.

(** ** AuthProtocol: pairing against an answering chip *)

Section Pairing.
Context {seh : se_h} {sha : sha256_h} {secrets : secrets_h}.

Lemma checkmac_request_length (secret tempkey od : list Z) :
  length od = 32%nat ->
  length (checkmac_request secret tempkey od) = 77%nat.
Proof.
  intros Hod. unfold checkmac_request.
  rewrite !length_app, SHA256_length, !length_firstn, Hod. reflexivity.
Qed.

Lemma skipn_rng_after (n : nat) (s : state) :
  rng_tape (rng_after n s) = skipn n (rng_tape s).
Proof. destruct s; reflexivity. Qed.

(** One CheckMac exchange with a chip that answers the Nonce command with
    32 random bytes and the CheckMac command with a status byte. *)
Lemma checkmac_answered (keynum status : Z) (secret randout : list Z)
                        (rest : list (list Z)) (s : state) :
  bytes randout -> length randout = 32%nat ->
  is_byte status ->
  uart_rx s = response_run randout :: response_run [status] :: rest ->
  exists s',
    se_checkmac keynum secret s = Some (if status =? 0 then 0 else -2, s') /\
    uart_rx s' = rest /\
    rng_tape s' = skipn 52 (rng_tape s) /\
    ends_asleep s'.
Proof.
  intros Hb Hl Hst Hrx.
  set (s0 := rng_after 32 s).
  set (num_in := rng_next 20 s0).
  set (s1 := nonce_done num_in (rng_after 20 s0)).
  assert (Hn : se_pick_nonce num_in (uninit 32) (rng_after 20 s0)
               = Some ((0, nonce_tempkey randout num_in), s1)).
  { apply pick_nonce_ok with (rest := response_run [status] :: rest);
      try assumption.
    - unfold num_in. rewrite rng_next_length. lia.
    - reflexivity. }
  assert (Hrx1 : uart_rx s1 = response_run [status] :: rest).
  { unfold s1. rewrite uart_rx_nonce_done, uart_rx_rng_after.
    unfold s0. rewrite uart_rx_rng_after, Hrx. reflexivity. }
  set (req := checkmac_request secret (nonce_tempkey randout num_in) (rng_next 32 s)).
  assert (Hc : (se_write OP_CheckMac 0x01 (u8 keynum) req 77 ;; se_read1) s1
               = Some (status, answered OP_CheckMac 0x01 (u8 keynum) req 77 s1)).
  { apply exchange1_ok with (rest := rest); try assumption.
    change (u8 77) with 77. unfold lenZ, req.
    rewrite checkmac_request_length by apply rng_next_length. lia. }
  eexists. split; [exact (se_checkmac_eq keynum secret _ _ _ _ _ Hn Hc)|].
  split; [|split].
  - rewrite uart_rx_asleep, uart_rx_answered, Hrx1. reflexivity.
  - unfold asleep. rewrite rng_tape_push_tdr, rng_tape_answered.
    unfold s1, nonce_done, asleep.
    rewrite rng_tape_push_tdr, rng_tape_answered, skipn_rng_after.
    unfold s0. rewrite skipn_rng_after, skipn_skipn. reflexivity.
  - apply asleep_ends_asleep.
Qed.

Lemma pair_unlock_loop_refused (tries : list (list Z * Z)) :
  forall (n : nat) (rest : list (list Z)) (s : state),
    Forall well_formed_try tries ->
    Forall (fun t => snd t <> 0) tries ->
    uart_rx s = attempts_line tries ++ rest ->
    exists s1,
      uart_rx s1 = rest /\
      rng_tape s1 = skipn (52 * length tries) (rng_tape s) /\
      (tries = [] -> s1 = s) /\
      (tries <> [] -> ends_asleep s1) /\
      pair_unlock_loop (length tries + n) s = pair_unlock_loop n s1.
Proof.
  induction tries as [|[randout status] tries IH]; intros n rest s Hwf Hnz Hrx.
  - exists s. cbn in *. repeat split; auto. intros H. contradiction.
  - apply Forall_cons_iff in Hwf. destruct Hwf as [(Hb & Hl & Hst) Hwf].
    apply Forall_cons_iff in Hnz. destruct Hnz as [Hne Hnz].
    cbn [fst snd attempts_line app length Nat.add] in *.
    destruct (checkmac_answered KEYNUM_pairing status pairing_secret randout
                (attempts_line tries ++ rest) s Hb Hl Hst Hrx)
      as (s1 & Hc & Hrx1 & Htape1 & Hz1).
    replace (status =? 0) with false in Hc by (symmetry; apply Z.eqb_neq; exact Hne).
    destruct (IH n rest s1 Hwf Hnz Hrx1) as (s2 & Hrx2 & Htape2 & Hs2 & Hz2 & Hloop).
    exists s2. split; [exact Hrx2|]. split; [|split; [|split]].
    + rewrite Htape2, Htape1, skipn_skipn. f_equal. lia.
    + discriminate.
    + intros _. destruct tries as [|t tries'].
      * rewrite Hs2 by reflexivity. exact Hz1.
      * apply Hz2. discriminate.
    + cbn [pair_unlock_loop]. erewrite bind_some by exact Hc.
      change (-2 =? 0) with false. cbv iota. exact Hloop.
Qed.

End Pairing.

Lemma attempts_line_app (a b : list (list Z * Z)) :
  attempts_line (a ++ b) = attempts_line a ++ attempts_line b.
Proof.
  induction a as [|[r st] a IH]; [reflexivity|].
  cbn [attempts_line app]. rewrite IH. reflexivity.
Qed.

(** X16. [se_pair_unlock] against an answering chip: it repeats the
    CheckMac exchange, each time with a fresh nonce and fresh random bytes,
    until the chip answers with status 0, and gives up after the third
    refusal.  So after at most two refusals followed by an acceptance it
    returns 0, and after three refusals -1 (never the -2 that [se_checkmac]
    returned each time).  In both cases exactly the responses of the
    attempts made are taken off the line, 52 random bytes are used per
    attempt, and the chip is left asleep. *)
Theorem pair_unlock_retries
    {seh : se_h} {sha : sha256_h} {secrets : secrets_h}
    (tries : list (list Z * Z)) (randout : list Z)
    (rest : list (list Z)) (s : state) :
  Forall well_formed_try tries ->
  Forall (fun t => snd t <> 0) tries ->
  bytes randout -> length randout = 32%nat ->
  ((length tries < 3)%nat ->
   uart_rx s = attempts_line (tries ++ [(randout, 0)]) ++ rest ->
   exists s',
     se_pair_unlock s = Some (0, s') /\
     uart_rx s' = rest /\
     rng_tape s' = skipn (52 * (length tries + 1)) (rng_tape s) /\
     ends_asleep s') /\
  (length tries = 3%nat ->
   uart_rx s = attempts_line tries ++ rest ->
   exists s',
     se_pair_unlock s = Some (-1, s') /\
     uart_rx s' = rest /\
     rng_tape s' = skipn (52 * 3) (rng_tape s) /\
     ends_asleep s').
Proof.
  intros Hwf Hnz Hb Hl. split.
  - intros Hn Hrx. rewrite attempts_line_app, <- app_assoc in Hrx.
    destruct (pair_unlock_loop_refused tries (3 - length tries)
                (attempts_line [(randout, 0)] ++ rest) s Hwf Hnz Hrx)
      as (s1 & Hrx1 & Htape1 & _ & _ & Hloop).
    cbn [attempts_line app] in Hrx1.
    destruct (checkmac_answered KEYNUM_pairing 0 pairing_secret randout rest s1
                Hb Hl ltac:(unfold is_byte; lia) Hrx1)
      as (s2 & Hc & Hrx2 & Htape2 & Hz2).
    change (0 =? 0) with true in Hc. cbv iota in Hc.
    exists s2. split; [|split; [exact Hrx2|split; [|exact Hz2]]].
    + unfold se_pair_unlock. cbv zeta.
      replace 3%nat with (length tries + (3 - length tries))%nat at 1 by lia.
      rewrite Hloop.
      replace (3 - length tries)%nat with (S (2 - length tries)) by lia.
      cbn [pair_unlock_loop]. erewrite bind_some by exact Hc. reflexivity.
    + rewrite Htape2, Htape1, skipn_skipn. f_equal. lia.
  - intros Hn Hrx.
    destruct (pair_unlock_loop_refused tries 0 rest s Hwf Hnz Hrx)
      as (s1 & Hrx1 & Htape1 & _ & Hz1 & Hloop).
    exists s1. split; [|split; [exact Hrx1|split]].
    + unfold se_pair_unlock. cbv zeta.
      replace 3%nat with (length tries + 0)%nat by lia.
      rewrite Hloop. reflexivity.
    + rewrite Htape1, Hn. reflexivity.
    + apply Hz1. intros ->. discriminate.
Qed.

(** ** AuthProtocol: the chip is always sent back to sleep *)

Section Asleep.
Context {seh : se_h} {sha : sha256_h} {secrets : secrets_h} {serial : serial_h}.

Lemma pick_nonce_asleep (num_in tempkey : list Z) :
  leaves_asleep (se_pick_nonce num_in tempkey).
Proof.
  intros s a s'. unfold se_pick_nonce. rewrite <- bind_assoc. unfold bind at 1.
  destruct ((se_write OP_Nonce 0 0 num_in 20;; se_read (uninit 32) 32) s)
    as [[[rc0 randout] s1]|]; [|discriminate].
  erewrite bind_some by apply se_sleep_eq.
  destruct (rc0 <? 0); intros H; injection H as <- <-; apply asleep_ends_asleep.
Qed.

Lemma gendig_slot_asleep (slot_num : Z) (slot_contents digest : list Z) :
  leaves_asleep (se_gendig_slot slot_num slot_contents digest).
Proof.
  intros s a s'. unfold se_gendig_slot.
  erewrite bind_some by apply rng_buffer_eq.
  unfold bind at 1.
  destruct (se_pick_nonce _ _ _) as [[[rc0 tk] s1]|] eqn:E; [|discriminate].
  apply pick_nonce_asleep in E.
  destruct (rc0 <? 0).
  - intros H; injection H as <- <-. exact E.
  - rewrite <- bind_assoc. unfold bind at 1.
    destruct ((se_write OP_GenDig 2 slot_num [] 0;; se_read1) s1)
      as [[rc1 s2]|]; [|discriminate].
    erewrite bind_some by apply se_sleep_eq.
    destruct (negb (rc1 =? 0)); intros H; injection H as <- <-;
      apply asleep_ends_asleep.
Qed.

Lemma checkmac_asleep (keynum : Z) (secret : list Z) :
  leaves_asleep (se_checkmac keynum secret).
Proof.
  intros s a s'. unfold se_checkmac. cbv zeta.
  erewrite bind_some by apply rng_buffer_eq.
  erewrite bind_some by apply rng_buffer_eq.
  unfold bind at 1.
  destruct (se_pick_nonce _ _ _) as [[[rc0 tk] s1]|] eqn:E; [|discriminate].
  apply pick_nonce_asleep in E.
  destruct (rc0 <? 0).
  - intros H; injection H as <- <-. exact E.
  - rewrite <- bind_assoc. unfold bind at 1.
    match goal with
    | |- context [(se_write OP_CheckMac 1 (u8 keynum) ?req 77;; se_read1) s1] =>
        destruct ((se_write OP_CheckMac 1 (u8 keynum) req 77;; se_read1) s1)
          as [[rc1 s2]|]; [|discriminate]
    end.
    erewrite bind_some by apply se_sleep_eq.
    destruct (negb (rc1 =? 0)); intros H; injection H as <- <-;
      apply asleep_ends_asleep.
Qed.

Lemma pair_unlock_loop_asleep (n : nat) :
  forall s r s',
    pair_unlock_loop n s = Some (r, s') ->
    (n = O /\ s' = s) \/ ends_asleep s'.
Proof.
  induction n as [|n IH]; intros s r s'; cbn [pair_unlock_loop].
  - intros H; injection H as <- <-. auto.
  - unfold bind at 1.
    destruct (se_checkmac KEYNUM_pairing pairing_secret s) as [[rc s1]|] eqn:E;
      [|discriminate].
    apply checkmac_asleep in E.
    destruct (rc =? 0).
    + intros H; injection H as <- <-. auto.
    + intros H. apply IH in H. destruct H as [[_ ->]|H]; auto.
Qed.

Lemma pair_unlock_asleep : leaves_asleep se_pair_unlock.
Proof.
  unfold leaves_asleep, se_pair_unlock. cbv zeta. intros s a s' H.
  apply (pair_unlock_loop_asleep 3) in H.
  destruct H as [[H _]|H]; [discriminate|exact H].
Qed.

Lemma encrypted_write32_asleep (data_slot blk write_kn : Z)
                               (write_key data : list Z) :
  leaves_asleep (se_encrypted_write32 data_slot blk write_kn write_key data).
Proof.
  intros s a s'. unfold se_encrypted_write32. unfold bind at 1.
  destruct (se_pair_unlock s) as [[rc s1]|] eqn:Ep; [|discriminate].
  apply pair_unlock_asleep in Ep.
  destruct (rc <? 0).
  - intros H; injection H as <- <-. exact Ep.
  - unfold bind at 1.
    destruct (se_gendig_slot write_kn write_key (uninit 32) s1)
      as [[[rc1 digest] s2]|] eqn:Eg; [|discriminate].
    apply gendig_slot_asleep in Eg.
    destruct (rc1 <? 0).
    + intros H; injection H as <- <-. exact Eg.
    + cbv zeta. rewrite <- bind_assoc. unfold bind at 1.
      match goal with
      | |- context [(se_write OP_Write ?p1 ?p2 ?body 64;; se_read1) s2] =>
          destruct ((se_write OP_Write p1 p2 body 64;; se_read1) s2)
            as [[rc2 s3]|]; [|discriminate]
      end.
      erewrite bind_some by apply se_sleep_eq.
      destruct (negb (rc2 =? 0)); intros H; injection H as <- <-;
        apply asleep_ends_asleep.
Qed.

Lemma encrypted_write_loop_step (fuel : nat) (blk data_slot write_kn : Z)
                                (write_key data : list Z) (len : Z) :
  encrypted_write_loop (S fuel) blk data_slot write_kn write_key data len
  = if (blk <? 3) && (0 <? len) then
      rv <- se_encrypted_write32 data_slot blk write_kn write_key
              (memcpy (zeros 32) (offs data (32 * blk)) (Z.min 32 len)) ;;
      if rv <? 0 then ret (-1)
      else encrypted_write_loop fuel (blk + 1) data_slot write_kn write_key
                                data (len - 32)
    else ret 0.
Proof. reflexivity. Qed.

Lemma encrypted_write_loop_asleep (fuel : nat) :
  forall blk data_slot write_kn write_key data len s r s',
    encrypted_write_loop fuel blk data_slot write_kn write_key data len s
    = Some (r, s') ->
    (r = 0 /\ s' = s) \/ ends_asleep s'.
Proof.
  induction fuel as [|fuel IH];
    intros blk data_slot write_kn write_key data len s r s'.
  - intros H; injection H as <- <-. auto.
  - rewrite encrypted_write_loop_step.
    destruct ((blk <? 3) && (0 <? len)).
    + unfold bind at 1.
      destruct (se_encrypted_write32 _ _ _ _ _ s) as [[rv s1]|] eqn:E;
        [|discriminate].
      apply encrypted_write32_asleep in E.
      destruct (rv <? 0).
      * intros H; injection H as <- <-. auto.
      * intros H. apply IH in H. destruct H as [[_ ->]|H]; auto.
    + intros H; injection H as <- <-. auto.
Qed.

Lemma is_correct_tempkey_asleep (expected_tempkey : list Z) :
  leaves_asleep (se_is_correct_tempkey expected_tempkey).
Proof.
  intros s a s'. unfold se_is_correct_tempkey. cbv zeta.
  rewrite <- bind_assoc. unfold bind at 1.
  match goal with
  | |- context [(se_write OP_MAC ?mode KEYNUM_pairing [] 0;; ?r) s] =>
      destruct ((se_write OP_MAC mode KEYNUM_pairing [] 0;; r) s)
        as [[[rc resp] s1]|]; [|discriminate]
  end.
  erewrite bind_some by apply se_sleep_eq.
  destruct (rc <? 0); intros H; injection H as <- <-; apply asleep_ends_asleep.
Qed.

Lemma checkmac_hard_asleep (keynum : Z) (secret : list Z) :
  leaves_asleep (se_checkmac_hard keynum secret).
Proof.
  intros s a s'. unfold se_checkmac_hard. cbv zeta. unfold bind at 1.
  destruct (se_gendig_slot (u8 keynum) secret (uninit 32) s)
    as [[[rc digest] s1]|] eqn:Eg; [|discriminate].
  apply gendig_slot_asleep in Eg.
  destruct (rc <? 0).
  - intros H; injection H as <- <-. exact Eg.
  - unfold bind at 1.
    destruct (se_is_correct_tempkey digest s1) as [[ok s2]|] eqn:Ec;
      [|discriminate].
    apply is_correct_tempkey_asleep in Ec.
    destruct (negb ok); intros H; injection H as <- <-; exact Ec.
Qed.

Lemma config_read_asleep (config : list Z) :
  leaves_asleep (se_config_read config).
Proof.
  intros s a s'. unfold se_config_read. unfold bind at 1.
  destruct (config_read_loop 4 0 config s) as [[[rval c] s1]|]; [|discriminate].
  erewrite bind_some by apply send_bits_tdr.
  intros H; injection H as <- <-. apply asleep_ends_asleep.
Qed.

End Asleep.

(** X17. No protocol function leaves the chip awake.  Whatever the line
    does -- answers, garbage, silence -- when [se_pick_nonce],
    [se_gendig_slot], [se_checkmac], [se_pair_unlock],
    [se_encrypted_write32], [se_is_correct_tempkey], [se_checkmac_hard] or
    [se_config_read] returns, on any path and with any result, the last
    eight pulses sent are those of the SLEEP flag.  [se_encrypted_write]
    does the same, except when it has nothing to write: for [len <= 0] it
    returns 0 without sending anything. *)
Theorem protocol_leaves_chip_asleep
    {seh : se_h} {sha : sha256_h} {secrets : secrets_h} {serial : serial_h} :
  (forall num_in tempkey, leaves_asleep (se_pick_nonce num_in tempkey)) /\
  (forall slot_num slot_contents digest,
      leaves_asleep (se_gendig_slot slot_num slot_contents digest)) /\
  (forall keynum secret, leaves_asleep (se_checkmac keynum secret)) /\
  leaves_asleep se_pair_unlock /\
  (forall data_slot blk write_kn write_key data,
      leaves_asleep (se_encrypted_write32 data_slot blk write_kn write_key data)) /\
  (forall expected_tempkey,
      leaves_asleep (se_is_correct_tempkey expected_tempkey)) /\
  (forall keynum secret, leaves_asleep (se_checkmac_hard keynum secret)) /\
  (forall config, leaves_asleep (se_config_read config)) /\
  (forall data_slot write_kn write_key data len s r s',
      se_encrypted_write data_slot write_kn write_key data len s = Some (r, s') ->
      if 0 <? len then ends_asleep s' else r = 0 /\ s' = s).
Proof.
  split; [exact pick_nonce_asleep|].
  split; [exact gendig_slot_asleep|].
  split; [exact checkmac_asleep|].
  split; [exact pair_unlock_asleep|].
  split; [exact encrypted_write32_asleep|].
  split; [exact is_correct_tempkey_asleep|].
  split; [exact checkmac_hard_asleep|].
  split; [exact config_read_asleep|].
  intros data_slot write_kn write_key data len s r s'.
  unfold se_encrypted_write. change 4%nat with (S 3).
  rewrite encrypted_write_loop_step. change (0 <? 3) with true. cbn [andb].
  destruct (0 <? len).
  - unfold bind at 1.
    destruct (se_encrypted_write32 _ _ _ _ _ s) as [[rv s1]|] eqn:E;
      [|discriminate].
    apply encrypted_write32_asleep in E.
    destruct (rv <? 0).
    + intros H; injection H as <- <-. exact E.
    + intros H. apply encrypted_write_loop_asleep in H.
      destruct H as [[_ ->]|H]; assumption.
  - intros H; injection H as <- <-. auto.
Qed.

(** ** AuthProtocol: an encrypted write against an answering chip *)

Section Write32.
Context {seh : se_h} {sha : sha256_h} {secrets : secrets_h}.

Lemma pair_unlock_accepted (randout : list Z) (rest : list (list Z)) (s : state) :
  bytes randout -> length randout = 32%nat ->
  uart_rx s = response_run randout :: response_run [0] :: rest ->
  exists s1,
    se_pair_unlock s = Some (0, s1) /\
    uart_rx s1 = rest /\
    rng_tape s1 = skipn 52 (rng_tape s).
Proof.
  intros Hb Hl Hrx.
  destruct (checkmac_answered KEYNUM_pairing 0 pairing_secret randout rest s
              Hb Hl ltac:(unfold is_byte; lia) Hrx)
    as (s1 & Hc & Hrx1 & Htape1 & _).
  change (0 =? 0) with true in Hc. cbv iota in Hc.
  exists s1. split; [|auto].
  unfold se_pair_unlock. cbv zeta. change 3%nat with (S 2).
  cbn [pair_unlock_loop]. erewrite bind_some by exact Hc. reflexivity.
Qed.

Lemma slot_digest_length (slot_num : Z) (slot_contents tempkey : list Z) :
  length (slot_digest slot_num slot_contents tempkey) = 32%nat.
Proof. apply SHA256_length. Qed.

Lemma slot_digest_bytes (slot_num : Z) (slot_contents tempkey : list Z) :
  bytes (slot_digest slot_num slot_contents tempkey).
Proof. apply SHA256_bytes. Qed.

(** The three exchanges of [se_encrypted_write32], the last one answered
    with [status]. *)
Lemma encrypted_write32_answered (data_slot blk write_kn status : Z)
                                 (write_key data r1 r2 : list Z)
                                 (rest : list (list Z)) (s : state) :
  bytes data -> length data = 32%nat ->
  bytes r1 -> length r1 = 32%nat -> bytes r2 -> length r2 = 32%nat ->
  is_byte status ->
  uart_rx s = response_run r1 :: response_run [0]
              :: response_run r2 :: response_run [0]
              :: response_run [status] :: rest ->
  exists s',
    se_encrypted_write32 data_slot blk write_kn write_key data s
    = Some (if status =? 0 then 0 else -1, s') /\
    uart_rx s' = rest /\
    rng_tape s' = skipn 72 (rng_tape s) /\
    ends_asleep s'.
Proof.
  intros Hdb Hdl Hb1 Hl1 Hb2 Hl2 Hst Hrx.
  destruct (pair_unlock_accepted r1 _ s Hb1 Hl1 Hrx) as (s1 & Hp & Hrx1 & Htape1).
  pose proof (gendig_answered write_kn 0 write_key (uninit 32) r2
                (response_run [status] :: rest) s1 eq_refl Hb2 Hl2
                ltac:(unfold is_byte; lia) Hrx1) as Hg.
  change (0 =? 0) with true in Hg. cbv iota in Hg.
  set (digest := slot_digest _ _ _) in Hg.
  set (s2 := gendig_done write_kn s1) in *.
  assert (Hrx2 : uart_rx s2 = response_run [status] :: rest)
    by (unfold s2; rewrite uart_rx_gendig_done, Hrx1; reflexivity).
  assert (Htape2 : rng_tape s2 = skipn 20 (rng_tape s1)).
  { unfold s2, gendig_done, nonce_done, asleep.
    rewrite !rng_tape_push_tdr, !rng_tape_answered, rng_tape_push_tdr,
      rng_tape_answered.
    apply skipn_rng_after. }
  rewrite (se_encrypted_write32_eq _ _ _ _ _ _ _ _ _ Hdb Hdl Hp Hg).
  rewrite <- bind_assoc. erewrite bind_some; cycle 1.
  { apply exchange1_ok with (b := status) (rest := rest);
      [|exact Hst|exact Hrx2].
    change (u8 64) with 64. unfold lenZ.
    rewrite write_body_length; [lia | exact Hdl | apply slot_digest_length]. }
  erewrite bind_some by apply se_sleep_eq.
  eexists. split; [destruct (status =? 0); reflexivity|].
  split; [|split; [|apply asleep_ends_asleep]].
  - rewrite uart_rx_asleep, uart_rx_answered, Hrx2. reflexivity.
  - unfold asleep. rewrite rng_tape_push_tdr, rng_tape_answered, Htape2, Htape1.
    rewrite skipn_skipn. reflexivity.
Qed.

End Write32.

Section Write32Failures.
Context {seh : se_h} {sha : sha256_h} {secrets : secrets_h}.

Lemma encrypted_write32_unpaired (data_slot blk write_kn rc : Z)
                                 (write_key data : list Z) (s s1 : state) :
  se_pair_unlock s = Some (rc, s1) -> rc < 0 ->
  se_encrypted_write32 data_slot blk write_kn write_key data s = Some (-1, s1).
Proof.
  intros Hp Hrc. unfold se_encrypted_write32.
  erewrite bind_some by exact Hp.
  replace (rc <? 0) with true by (symmetry; apply Z.ltb_lt; exact Hrc).
  reflexivity.
Qed.

Lemma encrypted_write32_no_digest (data_slot blk write_kn rc : Z)
                                  (write_key data digest : list Z)
                                  (s s1 s2 : state) :
  se_pair_unlock s = Some (0, s1) ->
  se_gendig_slot write_kn write_key (uninit 32) s1 = Some ((rc, digest), s2) ->
  rc < 0 ->
  se_encrypted_write32 data_slot blk write_kn write_key data s = Some (-1, s2).
Proof.
  intros Hp Hg Hrc. unfold se_encrypted_write32.
  erewrite bind_some by exact Hp. change (0 <? 0) with false. cbv iota.
  erewrite bind_some by exact Hg. cbv beta iota.
  replace (rc <? 0) with true by (symmetry; apply Z.ltb_lt; exact Hrc).
  reflexivity.
Qed.

End Write32Failures.

(** X18. [se_encrypted_write32] against an answering chip is three
    exchanges in a row -- pairing, digest, write -- and each one gates the
    next.  When pairing and GenDig are accepted, the result is 0 or -1 by
    the status byte of the Write alone; five responses are read, 72 random
    bytes used, and the chip is left asleep.  When GenDig is refused, the
    result is -1 and the call ends in the state digest generation ended in:
    no Write command is sent.  When pairing is refused three times, the
    result is -1 and the call ends in the state pairing ended in: neither
    GenDig nor Write is sent. *)
Theorem encrypted_write32_exchanges
    {seh : se_h} {sha : sha256_h} {secrets : secrets_h}
    (data_slot blk write_kn status : Z) (write_key data r1 r2 : list Z)
    (tries : list (list Z * Z)) (rest : list (list Z)) (s : state) :
  bytes data -> length data = 32%nat ->
  bytes r1 -> length r1 = 32%nat ->
  bytes r2 -> length r2 = 32%nat ->
  is_byte status ->
  (uart_rx s = response_run r1 :: response_run [0]
               :: response_run r2 :: response_run [0]
               :: response_run [status] :: rest ->
   exists s',
     se_encrypted_write32 data_slot blk write_kn write_key data s
     = Some (if status =? 0 then 0 else -1, s') /\
     uart_rx s' = rest /\
     rng_tape s' = skipn 72 (rng_tape s) /\
     ends_asleep s') /\
  (status <> 0 ->
   uart_rx s = response_run r1 :: response_run [0]
               :: response_run r2 :: response_run [status] :: rest ->
   exists s1 s2,
     se_pair_unlock s = Some (0, s1) /\
     se_gendig_slot write_kn write_key (uninit 32) s1
     = Some ((-1, uninit 32), s2) /\
     se_encrypted_write32 data_slot blk write_kn write_key data s
     = Some (-1, s2) /\
     uart_rx s2 = rest) /\
  (Forall well_formed_try tries -> Forall (fun t => snd t <> 0) tries ->
   length tries = 3%nat ->
   uart_rx s = attempts_line tries ++ rest ->
   exists s1,
     se_pair_unlock s = Some (-1, s1) /\
     se_encrypted_write32 data_slot blk write_kn write_key data s
     = Some (-1, s1) /\
     uart_rx s1 = rest).
Proof.
  intros Hdb Hdl Hb1 Hl1 Hb2 Hl2 Hst. split; [|split].
  - intros Hrx.
    exact (encrypted_write32_answered data_slot blk write_kn status write_key
             data r1 r2 rest s Hdb Hdl Hb1 Hl1 Hb2 Hl2 Hst Hrx).
  - intros Hne Hrx.
    destruct (pair_unlock_accepted r1 _ s Hb1 Hl1 Hrx) as (s1 & Hp & Hrx1 & _).
    pose proof (gendig_answered write_kn status write_key (uninit 32) r2
                  rest s1 eq_refl Hb2 Hl2 Hst Hrx1) as Hg.
    replace (status =? 0) with false in Hg by (symmetry; apply Z.eqb_neq; exact Hne).
    exists s1, (gendig_done write_kn s1).
    split; [exact Hp|]. split; [exact Hg|]. split.
    + exact (encrypted_write32_no_digest _ _ _ _ _ _ _ _ _ _ Hp Hg ltac:(lia)).
    + rewrite uart_rx_gendig_done, Hrx1. reflexivity.
  - intros Hwf Hnz Hn Hrx.
    destruct (pair_unlock_loop_refused tries 0 rest s Hwf Hnz Hrx)
      as (s1 & Hrx1 & _ & _ & _ & Hloop).
    assert (Hp : se_pair_unlock s = Some (-1, s1)).
    { unfold se_pair_unlock. cbv zeta.
      replace 3%nat with (length tries + 0)%nat by lia.
      rewrite Hloop. reflexivity. }
    exists s1. split; [exact Hp|]. split; [|exact Hrx1].
    exact (encrypted_write32_unpaired _ _ _ _ _ _ _ _ Hp ltac:(lia)).
Qed.

(** ** CRC16Chain: the register is linear over GF(2) *)

Lemma all_bits_spec (w : nat) :
  forall (acc : Z) (f : Z -> bool),
    all_bits w acc f = true ->
    forall y, 0 <= y < 2 ^ Z.of_nat w -> f (acc * 2 ^ Z.of_nat w + y) = true.
Proof.
  induction w as [|w IH]; intros acc f H y Hy; cbn [all_bits] in H.
  - change (2 ^ Z.of_nat 0) with 1 in *. replace (acc * 1 + y) with acc by lia.
    exact H.
  - apply andb_true_iff in H. destruct H as [H0 H1].
    rewrite Nat2Z.inj_succ, Z.pow_succ_r in * by lia.
    set (p := 2 ^ Z.of_nat w) in *.
    assert (Hp : 0 < p) by (apply Z.pow_pos_nonneg; lia).
    destruct (Z_lt_le_dec y p) as [Hlt|Hge].
    + replace (acc * (2 * p) + y) with (2 * acc * p + y) by lia.
      apply IH; [exact H0 | lia].
    + replace (acc * (2 * p) + y) with ((2 * acc + 1) * p + (y - p)) by lia.
      apply IH; [exact H1 | lia].
Qed.

Lemma forall_u16 (f : Z -> bool) :
  all_bits 16 0 f = true -> forall x, 0 <= x < 65536 -> f x = true.
Proof.
  intros H x Hx. apply (all_bits_spec 16 0 f H x). exact Hx.
Qed.

Lemma forall_u8 (f : Z -> bool) :
  all_bits 8 0 f = true -> forall x, 0 <= x < 256 -> f x = true.
Proof.
  intros H x Hx. apply (all_bits_spec 8 0 f H x). exact Hx.
Qed.

Lemma lxor_u16 (a b : Z) :
  0 <= a < 65536 -> 0 <= b < 65536 -> 0 <= Z.lxor a b < 65536.
Proof.
  intros Ha Hb.
  assert (Hn : 0 <= Z.lxor a b) by (apply Z.lxor_nonneg; lia).
  split; [exact Hn|].
  destruct (Z.eq_dec (Z.lxor a b) 0) as [->|Hnz]; [lia|].
  change 65536 with (2 ^ 16). apply Z.log2_lt_pow2; [lia|].
  apply Z.le_lt_trans with (Z.max (Z.log2 a) (Z.log2 b)).
  - apply Z.log2_lxor; lia.
  - assert (Hl : forall x, 0 <= x < 65536 -> Z.log2 x < 16).
    { intros x Hx. destruct (Z.eq_dec x 0) as [->|Hx0]; [cbn; lia|].
      apply Z.log2_lt_pow2; [lia|]. change (2 ^ 16) with 65536. lia. }
    pose proof (Hl a Ha). pose proof (Hl b Hb). lia.
Qed.

Lemma lxor_u8 (a b : Z) : is_byte a -> is_byte b -> is_byte (Z.lxor a b).
Proof.
  unfold is_byte. intros Ha Hb.
  assert (Hn : 0 <= Z.lxor a b) by (apply Z.lxor_nonneg; lia).
  split; [exact Hn|].
  destruct (Z.eq_dec (Z.lxor a b) 0) as [->|Hnz]; [lia|].
  change 256 with (2 ^ 8). apply Z.log2_lt_pow2; [lia|].
  apply Z.le_lt_trans with (Z.max (Z.log2 a) (Z.log2 b)).
  - apply Z.log2_lxor; lia.
  - assert (Hl : forall x, 0 <= x < 256 -> Z.log2 x < 8).
    { intros x Hx. destruct (Z.eq_dec x 0) as [->|Hx0]; [cbn; lia|].
      apply Z.log2_lt_pow2; [lia|]. change (2 ^ 8) with 256. lia. }
    pose proof (Hl a Ha). pose proof (Hl b Hb). lia.
Qed.

(** The step as a shift and a conditional XOR. *)
Lemma crc_step_xor (data_byte mask r : Z) :
  0 <= r < 65536 ->
  CRC.crc_step data_byte mask r
  = Z.lxor (u16 (Z.shiftl r 1))
           (if crc_feedback data_byte mask r then CRC.polynom else 0).
Proof.
  intros Hr. unfold CRC.crc_step, crc_feedback.
  destruct (negb _).
  - apply u16_small. apply lxor_u16; [apply u16_range | unfold CRC.polynom; lia].
  - symmetry. apply Z.lxor_0_r.
Qed.

Lemma mask_check_all : all_bits 8 0 mask_check = true.
Proof. vm_compute. reflexivity. Qed.

Lemma data_bit_testbit (b m : Z) :
  is_byte b -> In m [1; 2; 4; 8; 16; 32; 64; 128] ->
  negb (Z.land b m =? 0) = Z.testbit b (Z.log2 m).
Proof.
  intros Hb Hm.
  pose proof (forall_u8 _ mask_check_all b Hb) as H.
  unfold mask_check in H. rewrite forallb_forall in H.
  apply Bool.eqb_prop. apply H. exact Hm.
Qed.

Lemma data_bit_xor (b1 b2 m : Z) :
  is_byte b1 -> is_byte b2 -> In m [1; 2; 4; 8; 16; 32; 64; 128] ->
  negb (Z.land (Z.lxor b1 b2) m =? 0)
  = xorb (negb (Z.land b1 m =? 0)) (negb (Z.land b2 m =? 0)).
Proof.
  intros H1 H2 Hm.
  rewrite !data_bit_testbit by (assumption || apply lxor_u8; assumption).
  apply Z.lxor_spec.
Qed.

Lemma top_bit (r : Z) :
  0 <= r < 65536 -> Z.shiftr r 15 = 0 \/ Z.shiftr r 15 = 1.
Proof.
  intros Hr. rewrite Z.shiftr_div_pow2 by lia. change (2 ^ 15) with 32768.
  assert (0 <= r / 32768 < 2).
  { split; [apply Z.div_pos; lia | apply Z.div_lt_upper_bound; lia]. }
  lia.
Qed.

Lemma crc_feedback_xor (b1 b2 m r1 r2 : Z) :
  is_byte b1 -> is_byte b2 -> In m [1; 2; 4; 8; 16; 32; 64; 128] ->
  0 <= r1 < 65536 -> 0 <= r2 < 65536 ->
  crc_feedback (Z.lxor b1 b2) m (Z.lxor r1 r2)
  = xorb (crc_feedback b1 m r1) (crc_feedback b2 m r2).
Proof.
  intros H1 H2 Hm Hr1 Hr2. unfold crc_feedback.
  rewrite Z.shiftr_lxor.
  pose proof (data_bit_xor b1 b2 m H1 H2 Hm) as Hd.
  destruct (Z.land (Z.lxor b1 b2) m =? 0), (Z.land b1 m =? 0),
    (Z.land b2 m =? 0); cbn [negb xorb] in Hd; try discriminate;
    destruct (top_bit r1 Hr1) as [-> | ->], (top_bit r2 Hr2) as [-> | ->];
    reflexivity.
Qed.

Lemma u16_lxor (a b : Z) : u16 (Z.lxor a b) = Z.lxor (u16 a) (u16 b).
Proof.
  unfold u16. change 65536 with (2 ^ 16). rewrite <- !Z.land_ones by lia.
  apply Z.bits_inj'. intros n Hn.
  rewrite !Z.land_spec, !Z.lxor_spec, !Z.land_spec.
  destruct (Z.testbit a n), (Z.testbit b n), (Z.testbit (Z.ones 16) n);
    reflexivity.
Qed.

Lemma lxor_swap (a b c d : Z) :
  Z.lxor (Z.lxor a b) (Z.lxor c d) = Z.lxor (Z.lxor a c) (Z.lxor b d).
Proof.
  apply Z.bits_inj'. intros n Hn. rewrite !Z.lxor_spec.
  destruct (Z.testbit a n), (Z.testbit b n), (Z.testbit c n), (Z.testbit d n);
    reflexivity.
Qed.

(** One step on the XOR of two registers and of two data bytes. *)
Lemma crc_step_lxor (b1 b2 m r1 r2 : Z) :
  is_byte b1 -> is_byte b2 -> In m [1; 2; 4; 8; 16; 32; 64; 128] ->
  0 <= r1 < 65536 -> 0 <= r2 < 65536 ->
  CRC.crc_step (Z.lxor b1 b2) m (Z.lxor r1 r2)
  = Z.lxor (CRC.crc_step b1 m r1) (CRC.crc_step b2 m r2).
Proof.
  intros H1 H2 Hm Hr1 Hr2.
  rewrite !crc_step_xor by (assumption || apply lxor_u16; assumption).
  rewrite crc_feedback_xor by assumption.
  rewrite Z.shiftl_lxor, u16_lxor, lxor_swap. f_equal.
  destruct (crc_feedback b1 m r1), (crc_feedback b2 m r2); reflexivity.
Qed.

Lemma crc_steps_lxor (masks : list Z) :
  forall b1 b2 r1 r2,
    is_byte b1 -> is_byte b2 ->
    (forall m, In m masks -> In m [1; 2; 4; 8; 16; 32; 64; 128]) ->
    0 <= r1 < 65536 -> 0 <= r2 < 65536 ->
    fold_left (fun r m => CRC.crc_step (Z.lxor b1 b2) m r) masks (Z.lxor r1 r2)
    = Z.lxor (fold_left (fun r m => CRC.crc_step b1 m r) masks r1)
             (fold_left (fun r m => CRC.crc_step b2 m r) masks r2).
Proof.
  induction masks as [|m masks IH]; intros b1 b2 r1 r2 H1 H2 Hin Hr1 Hr2;
    cbn [fold_left].
  - reflexivity.
  - rewrite crc_step_lxor by (assumption || apply Hin; left; reflexivity).
    apply IH; try assumption; try apply crc_step_range.
    intros m' Hm'. apply Hin. right. exact Hm'.
Qed.

(** One byte on the XOR of two registers and of two data bytes. *)
Lemma crc_byte_lxor (b1 b2 r1 r2 : Z) :
  is_byte b1 -> is_byte b2 -> 0 <= r1 < 65536 -> 0 <= r2 < 65536 ->
  crc_byte (Z.lxor r1 r2) (Z.lxor b1 b2)
  = Z.lxor (crc_byte r1 b1) (crc_byte r2 b2).
Proof.
  intros H1 H2 Hr1 Hr2. unfold crc_byte.
  apply crc_steps_lxor; auto.
Qed.

Lemma kernel_check_byte_all : all_bits 8 0 kernel_check_byte = true.
Proof. vm_compute. reflexivity. Qed.

Lemma kernel_check_register_all : all_bits 16 0 kernel_check_register = true.
Proof. vm_compute. reflexivity. Qed.

Lemma crc_steps_kernel (masks : list Z) :
  forall x,
    0 <= x < 65536 ->
    fold_left (fun r m => CRC.crc_step 0 m r) masks x = 0 -> x = 0.
Proof.
  induction masks as [|m masks IH]; intros x Hx H; cbn [fold_left] in H.
  - exact H.
  - apply IH in H; [|apply crc_step_range].
    change (CRC.crc_step 0 m x) with (CRC.crc_step 0 1 x) in H.
    pose proof (forall_u16 _ kernel_check_register_all x Hx) as Hk.
    unfold kernel_check_register in Hk. rewrite H in Hk.
    cbn [Z.eqb negb orb] in Hk. apply Z.eqb_eq in Hk. exact Hk.
Qed.

Lemma crc_byte_kernel (x : Z) : 0 <= x < 65536 -> crc_byte x 0 = 0 -> x = 0.
Proof. intros Hx H. exact (crc_steps_kernel _ x Hx H). Qed.

(** From the same register, two different bytes lead to different
    registers. *)
Lemma crc_byte_inj_data (r b1 b2 : Z) :
  0 <= r < 65536 -> is_byte b1 -> is_byte b2 ->
  crc_byte r b1 = crc_byte r b2 -> b1 = b2.
Proof.
  intros Hr H1 H2 Heq.
  pose proof (crc_byte_lxor b1 b2 r r H1 H2 Hr Hr) as Hl.
  rewrite Heq, !Z.lxor_nilpotent in Hl.
  pose proof (forall_u8 _ kernel_check_byte_all _ (lxor_u8 b1 b2 H1 H2)) as Hk.
  unfold kernel_check_byte in Hk. rewrite Hl, Z.eqb_refl in Hk.
  cbn [negb orb] in Hk. apply Z.eqb_eq in Hk. apply Z.lxor_eq. exact Hk.
Qed.

(** With the same byte, two different registers lead to different
    registers. *)
Lemma crc_byte_inj_register (r1 r2 b : Z) :
  0 <= r1 < 65536 -> 0 <= r2 < 65536 -> is_byte b ->
  crc_byte r1 b = crc_byte r2 b -> r1 = r2.
Proof.
  intros Hr1 Hr2 Hb Heq.
  pose proof (crc_byte_lxor b b r1 r2 Hb Hb Hr1 Hr2) as Hl.
  rewrite Heq, !Z.lxor_nilpotent in Hl.
  apply Z.lxor_eq. apply crc_byte_kernel; [apply lxor_u16; assumption|].
  exact Hl.
Qed.

Lemma crc_fold_inj_register (l : list Z) :
  forall r1 r2,
    bytes l -> 0 <= r1 < 65536 -> 0 <= r2 < 65536 ->
    fold_left crc_byte l r1 = fold_left crc_byte l r2 -> r1 = r2.
Proof.
  induction l as [|b l IH]; intros r1 r2 Hl Hr1 Hr2 Heq; cbn [fold_left] in Heq.
  - exact Heq.
  - apply Forall_cons_iff in Hl. destruct Hl as [Hb Hl].
    apply IH in Heq; try assumption; try apply crc_byte_range.
    apply (crc_byte_inj_register r1 r2 b); assumption.
Qed.

(** Two buffers that differ in exactly one byte never have the same
    register after the last byte. *)
Lemma crc_fold_one_byte (pre post : list Z) (b1 b2 r : Z) :
  bytes post -> is_byte b1 -> is_byte b2 -> b1 <> b2 ->
  0 <= r < 65536 ->
  fold_left crc_byte (pre ++ b1 :: post) r
  <> fold_left crc_byte (pre ++ b2 :: post) r.
Proof.
  intros Hpost H1 H2 Hne Hr Heq.
  rewrite !fold_left_app in Heq. cbn [fold_left] in Heq.
  assert (Hr' : 0 <= fold_left crc_byte pre r < 65536)
    by (apply crc_fold_range; exact Hr).
  apply crc_fold_inj_register in Heq; try assumption; try apply crc_byte_range.
  apply crc_byte_inj_data in Heq; try assumption. contradiction.
Qed.

Lemma crc_store_inj (r1 r2 : Z) :
  0 <= r1 < 65536 -> 0 <= r2 < 65536 -> crc_store r1 = crc_store r2 -> r1 = r2.
Proof.
  intros H1 H2 Heq.
  rewrite <- (crc_load_store r1 H1), <- (crc_load_store r2 H2), Heq. reflexivity.
Qed.

Lemma se_crc16_chain_one_byte (pre post : list Z) (b1 b2 : Z) (crc : list Z) :
  bytes post -> is_byte b1 -> is_byte b2 -> b1 <> b2 ->
  lenZ pre + 1 + lenZ post <= 255 ->
  CRC.se_crc16_chain (lenZ pre + 1 + lenZ post) (pre ++ b1 :: post) crc
  <> CRC.se_crc16_chain (lenZ pre + 1 + lenZ post) (pre ++ b2 :: post) crc.
Proof.
  intros Hpost H1 H2 Hne Hlen Heq.
  assert (Hl : forall b, lenZ pre + 1 + lenZ post = Z.of_nat (length (pre ++ b :: post))).
  { intros b. rewrite length_app. cbn [length]. unfold lenZ. lia. }
  rewrite (Hl b1) in Heq at 1. rewrite (Hl b2) in Heq.
  rewrite !se_crc16_chain_fold in Heq
    by (rewrite length_app; cbn [length]; unfold lenZ in Hlen; lia).
  rewrite !firstn_all in Heq.
  assert (Hr : 0 <= crc_load crc < 65536) by apply u16_range.
  apply crc_store_inj in Heq; try (apply crc_fold_range; exact Hr).
  revert Heq. apply crc_fold_one_byte; assumption.
Qed.

(** X19. [se_crc16_chain] notices every single-byte change: two buffers
    of the same length (at most 255) that differ in exactly one byte, run
    from the same seed, never give the same two CRC bytes. *)
Theorem crc16_detects_byte_change (pre post : list Z) (b1 b2 : Z) (crc : list Z) :
  bytes post -> is_byte b1 -> is_byte b2 -> b1 <> b2 ->
  lenZ pre + 1 + lenZ post <= 255 ->
  CRC.se_crc16_chain (lenZ (pre ++ b1 :: post)) (pre ++ b1 :: post) crc
  <> CRC.se_crc16_chain (lenZ (pre ++ b2 :: post)) (pre ++ b2 :: post) crc.
Proof.
  intros Hpost H1 H2 Hne Hlen.
  assert (Hl : forall b, lenZ (pre ++ b :: post) = lenZ pre + 1 + lenZ post).
  { intros b. rewrite len_app. unfold lenZ. cbn [length]. lia. }
  rewrite !Hl. apply se_crc16_chain_one_byte; assumption.
Qed.

(** ** FrameTransport: what [check_crc] catches *)

Lemma split_last2 (l : list Z) :
  (2 <= length l)%nat -> exists m c0 c1, l = m ++ [c0; c1].
Proof.
  intros H. rewrite <- (firstn_skipn (length l - 2) l).
  assert (Hs : length (skipn (length l - 2) l) = 2%nat)
    by (rewrite length_skipn; lia).
  destruct (skipn (length l - 2) l) as [|c0 [|c1 [|? ?]]]; try discriminate.
  eauto.
Qed.

Lemma crc_pair (n : Z) (data crc : list Z) :
  CRC.se_crc16_chain n data crc
  = [rd (CRC.se_crc16_chain n data crc) 0; rd (CRC.se_crc16_chain n data crc) 1].
Proof. reflexivity. Qed.

(** [check_crc] on a frame split into body and trailer, as a comparison of
    two-byte lists. *)
Lemma check_crc_trailer_eq (body : list Z) (c0 c1 : Z) :
  1 <= lenZ body -> lenZ body + 2 <= 255 ->
  check_crc (body ++ [c0; c1]) (lenZ body + 2) = true
  <-> rd body 0 = lenZ body + 2 /\
      CRC.se_crc16_chain (lenZ body) body [0; 0] = [c0; c1].
Proof.
  intros Hlen Hmax. split.
  - intros H. pose proof (check_crc_count _ _ H) as Hc.
    rewrite rd_app_l, u8_small in Hc by lia.
    rewrite check_crc_trailer in H by assumption.
    apply andb_true_iff in H. destruct H as [H0 H1].
    apply Z.eqb_eq in H0, H1. split; [exact Hc|].
    rewrite crc_pair, H0, H1. reflexivity.
  - intros [Hc Hcrc]. rewrite check_crc_trailer by assumption.
    rewrite Hcrc. change (rd [c0; c1] 0) with c0. change (rd [c0; c1] 1) with c1.
    rewrite !Z.eqb_refl. reflexivity.
Qed.

Lemma check_crc_body_changed (pre mid : list Z) (b1 b2 c0 c1 : Z) :
  bytes mid -> is_byte b1 -> is_byte b2 -> b1 <> b2 ->
  lenZ pre + 1 + lenZ mid + 2 <= 255 ->
  check_crc ((pre ++ b1 :: mid) ++ [c0; c1]) (lenZ pre + 1 + lenZ mid + 2) = true ->
  check_crc ((pre ++ b2 :: mid) ++ [c0; c1]) (lenZ pre + 1 + lenZ mid + 2) = false.
Proof.
  intros Hmid H1 H2 Hne Hlen Hok.
  pose proof (len_nonneg pre) as Hp. pose proof (len_nonneg mid) as Hm.
  assert (Hl : forall b, lenZ (pre ++ b :: mid) = lenZ pre + 1 + lenZ mid).
  { intros b. rewrite len_app. unfold lenZ. cbn [length]. lia. }
  rewrite <- (Hl b1) in Hok. apply check_crc_trailer_eq in Hok;
    [|rewrite Hl; lia|rewrite Hl; lia].
  destruct Hok as [_ Hcrc].
  destruct (check_crc ((pre ++ b2 :: mid) ++ [c0; c1]) _) eqn:E; [|reflexivity].
  rewrite <- (Hl b2) in E. apply check_crc_trailer_eq in E;
    [|rewrite Hl; lia|rewrite Hl; lia].
  destruct E as [_ Hcrc'].
  exfalso.
  apply (se_crc16_chain_one_byte pre mid b1 b2 [0; 0]); try assumption; [lia|].
  rewrite !Hl in *. congruence.
Qed.

Lemma check_crc_trailer_changed (body : list Z) (c0 c1 d0 d1 : Z) :
  1 <= lenZ body -> lenZ body + 2 <= 255 ->
  (c0, c1) <> (d0, d1) ->
  check_crc (body ++ [c0; c1]) (lenZ body + 2) = true ->
  check_crc (body ++ [d0; d1]) (lenZ body + 2) = false.
Proof.
  intros Hlen Hmax Hne Hok.
  apply check_crc_trailer_eq in Hok; try assumption. destruct Hok as [_ Hcrc].
  destruct (check_crc (body ++ [d0; d1]) _) eqn:E; [|reflexivity].
  apply check_crc_trailer_eq in E; try assumption. destruct E as [_ Hcrc'].
  exfalso. apply Hne. congruence.
Qed.

(** A frame that differs in one byte from a frame [check_crc] accepts. *)
Lemma check_crc_one_byte (pre post : list Z) (b1 b2 : Z) :
  bytes post -> is_byte b1 -> is_byte b2 -> b1 <> b2 ->
  lenZ (pre ++ b1 :: post) <= 255 ->
  check_crc (pre ++ b1 :: post) (lenZ (pre ++ b1 :: post)) = true ->
  check_crc (pre ++ b2 :: post) (lenZ (pre ++ b1 :: post)) = false.
Proof.
  intros Hpost H1 H2 Hne Hlen Hok.
  pose proof (len_nonneg pre) as Hp. pose proof (len_nonneg post) as Hq.
  assert (Hl : forall b, lenZ (pre ++ b :: post) = lenZ pre + 1 + lenZ post).
  { intros b. rewrite len_app. unfold lenZ. cbn [length]. lia. }
  rewrite Hl in *.
  destruct pre as [|p0 pre].
  - (* the length byte *)
    cbn [app] in *. apply check_crc_count in Hok.
    change (rd (b1 :: post) 0) with b1 in Hok.
    unfold check_crc. change (rd (b2 :: post) 0) with b2.
    rewrite <- Hok. replace (b2 =? b1) with false
      by (symmetry; apply Z.eqb_neq; congruence).
    reflexivity.
  - assert (Hp1 : lenZ (p0 :: pre) = 1 + lenZ pre)
      by (unfold lenZ; cbn [length]; lia).
    pose proof (len_nonneg pre) as Hp'.
    destruct post as [|q0 post].
    + (* the second CRC byte *)
      change (lenZ []) with 0 in *.
      destruct (exists_last (l := p0 :: pre) ltac:(discriminate))
        as (body & c0 & Hbody).
      rewrite Hbody, <- !app_assoc in *. cbn [app] in *.
      assert (Hb : lenZ (body ++ [c0]) = lenZ body + 1)
        by (rewrite len_app; reflexivity).
      rewrite Hb in *. pose proof (len_nonneg body) as Hb0.
      destruct body as [|h body].
      * (* a frame of two bytes: its length byte cannot be right *)
        exfalso. cbn [app] in Hok. change (lenZ [] + 1 + 1 + 0) with 2 in Hok.
        pose proof (check_crc_count _ _ Hok) as Hc.
        change (rd [c0; b1] 0) with c0 in Hc. change (u8 2) with 2 in Hc.
        subst c0. unfold check_crc in Hok.
        change (rd (CRC.se_crc16_chain (u8 2 - 2) [2; b1] [0; 0]) 0
                =? rd [2; b1] (u8 2 - 2)) with false in Hok.
        rewrite Z.eqb_refl in Hok. discriminate Hok.
      * replace (lenZ (h :: body) + 1 + 1 + 0) with (lenZ (h :: body) + 2) in *
          by lia.
        assert (1 <= lenZ (h :: body)) by (unfold lenZ; cbn [length]; lia).
        apply (check_crc_trailer_changed (h :: body) c0 b1 c0 b2);
          [lia | lia | congruence | exact Hok].
    + destruct post as [|q1 post].
      * (* the first CRC byte *)
        change (lenZ [q0]) with 1 in *.
        replace (lenZ (p0 :: pre) + 1 + 1) with (lenZ (p0 :: pre) + 2) in * by lia.
        apply (check_crc_trailer_changed (p0 :: pre) b1 q0 b2 q0);
          [lia | lia | congruence | exact Hok].
      * (* a byte before the CRC *)
        destruct (split_last2 (q0 :: q1 :: post) ltac:(cbn; lia))
          as (mid & c0 & c1 & Hmid).
        rewrite Hmid in *.
        assert (Hm : lenZ (mid ++ [c0; c1]) = lenZ mid + 2)
          by (rewrite len_app; reflexivity).
        rewrite Hm in *.
        apply Forall_app in Hpost. destruct Hpost as [Hmb _].
        replace ((p0 :: pre) ++ b1 :: mid ++ [c0; c1])
          with (((p0 :: pre) ++ b1 :: mid) ++ [c0; c1]) in Hok
          by (rewrite <- app_assoc; reflexivity).
        replace ((p0 :: pre) ++ b2 :: mid ++ [c0; c1])
          with (((p0 :: pre) ++ b2 :: mid) ++ [c0; c1])
          by (rewrite <- app_assoc; reflexivity).
        replace (lenZ (p0 :: pre) + 1 + (lenZ mid + 2))
          with (lenZ (p0 :: pre) + 1 + lenZ mid + 2) in * by lia.
        apply (check_crc_body_changed (p0 :: pre) mid b1 b2 c0 c1);
          assumption.
Qed.

(** X20. [check_crc] rejects every frame that differs in exactly one byte
    from a frame it accepts -- whether the byte changed is the length byte,
    a byte of the payload, or one of the two CRC bytes. *)
Theorem check_crc_rejects_byte_change (pre post : list Z) (b1 b2 : Z) :
  bytes post -> is_byte b1 -> is_byte b2 -> b1 <> b2 ->
  lenZ (pre ++ b1 :: post) <= 255 ->
  check_crc (pre ++ b1 :: post) (lenZ (pre ++ b1 :: post)) = true ->
  check_crc (pre ++ b2 :: post) (lenZ (pre ++ b2 :: post)) = false.
Proof.
  intros Hpost H1 H2 Hne Hlen Hok.
  replace (lenZ (pre ++ b2 :: post)) with (lenZ (pre ++ b1 :: post))
    by (rewrite !len_app; reflexivity).
  apply check_crc_one_byte; assumption.
Qed.

(** ** FrameTransport: a damaged response is read again *)

Section Healing.
Context {seh : se_h}.

(** A response that differs in one byte from a well-formed one is not a
    frame [se_read] can use, unless the byte changed is the length byte and
    it now reads 4. *)
Lemma damaged_frame_invalid (payload pre post : list Z) (b1 b2 opcode : Z) :
  bytes payload -> 1 <= lenZ payload <= 252 ->
  response_frame payload = pre ++ b1 :: post ->
  is_byte b2 -> b1 <> b2 ->
  (pre = [] -> b2 <> 4) ->
  opcode <> OP_Info ->
  invalid_frame opcode (lenZ payload) (serialize (pre ++ b2 :: post)).
Proof.
  intros Hb Hlen Hframe H2 Hne H4 Hop.
  set (len := lenZ payload) in *.
  destruct (response_frame_checks payload Hb Hlen) as (Hfb & Hfl & Hf0 & Hcrc).
  fold len in Hfl, Hf0, Hcrc. rewrite Hframe in Hfb, Hfl, Hf0, Hcrc.
  assert (Hfb' : bytes (pre ++ b2 :: post)).
  { apply Forall_app in Hfb. destruct Hfb as [Hp Hq].
    apply Forall_cons_iff in Hq. destruct Hq as [_ Hq].
    apply Forall_app. split; [exact Hp|]. constructor; assumption. }
  assert (Hfl' : lenZ (pre ++ b2 :: post) = len + 3)
    by (rewrite <- Hfl, !len_app; reflexivity).
  destruct (received_frame (pre ++ b2 :: post) [] (serialize (pre ++ b2 :: post))
              (len + 3) Hfb') as [Hcount Hrecv].
  { rewrite low7_serialize, app_nil_r. reflexivity. }
  { cbn. lia. }
  { lia. }
  rewrite firstn_all2 in Hrecv by (unfold lenZ in Hfl'; lia).
  unfold invalid_frame. rewrite Hcount, Hrecv, Hfl'.
  destruct pre as [|p0 pre].
  - right. left. cbn [app] in *. change (rd (b2 :: post) 0) with b2.
    change (rd (b1 :: post) 0) with b1 in Hf0.
    repeat split; [exact Hop | lia | apply H4; reflexivity].
  - right. right. split; [exact Hop|]. split; [exact Hf0|].
    rewrite <- Hfl. apply check_crc_one_byte; try assumption.
    + apply Forall_app in Hfb. destruct Hfb as [_ Hq].
      apply Forall_cons_iff in Hq. tauto.
    + apply Forall_app in Hfb. destruct Hfb as [_ Hq].
      apply Forall_cons_iff in Hq. tauto.
    + lia.
    + rewrite Hfl. exact Hcrc.
Qed.

End Healing.

(** X21. One damaged byte costs one retry and nothing else.  When the
    response to a command other than Info arrives with exactly one byte
    changed (and the change does not turn the length byte into 4, the mark
    of an error frame), [se_read] does not deliver it: it counts one retry,
    asks again, and when the chip then sends the frame intact returns 0 with
    the payload, having sent two TX flags and one IDLE flag. *)
Theorem read_recovers_from_byte_damage {seh : se_h}
    (payload pre post data : list Z) (b1 b2 : Z)
    (rest : list (list Z)) (s : state) :
  bytes payload -> 1 <= lenZ payload <= 252 ->
  lenZ payload <= lenZ data ->
  response_frame payload = pre ++ b1 :: post ->
  is_byte b2 -> b1 <> b2 ->
  (pre = [] -> b2 <> 4) ->
  current_opcode s <> OP_Info ->
  uart_rx s = serialize (pre ++ b2 :: post) :: response_run payload :: rest ->
  exists s',
    se_read data (lenZ payload) s
    = Some ((0, payload ++ skipn (length payload) data), s') /\
    uart_rx s' = rest /\
    ln_retry s' = u32 (ln_retry s + 1) /\
    retry_out s' = retry_out s /\
    uart_tdr s'
    = uart_tdr s ++ serialize_byte IOFLAG_TX ++ serialize_byte IOFLAG_TX
      ++ serialize_byte IOFLAG_IDLE.
Proof.
  intros Hb Hlen Hdata Hframe H2 Hne H4 Hop Hrx.
  set (len := lenZ payload) in *.
  rewrite se_read_eq by (unfold is_byte; lia).
  destruct (se_read_loop_invalid 1 100 len data
              (uninit (Z.to_nat (1 + len + 2))) s)
    as (tmp' & s1 & Hloop & Htmp' & Hret).
  - lia.
  - apply uninit_tmp_length. lia.
  - intros j Hj. replace j with O by lia. rewrite Hrx. cbn [nth].
    apply damaged_frame_invalid with (b1 := b1); assumption.
  - change 101%nat with (1 + 100)%nat. rewrite Hloop.
    destruct Hret as (Hrx1 & Htdr1 & Hop1 & Hln1 & Hro1 & _).
    rewrite Hrx in Hrx1. cbn [skipn] in Hrx1.
    cbn [repeat concat] in Htdr1. rewrite app_nil_r in Htdr1.
    eexists. split.
    + change 100%nat with (S 99).
      apply se_read_loop_frame
        with (stray := []) (run := response_run payload) (rest := rest);
        try assumption.
      * unfold response_run. rewrite low7_serialize, app_nil_r. reflexivity.
      * cbn. lia.
    + rewrite uart_rx_push_tdr, after_response_uart_rx, Hrx1.
      rewrite uart_tdr_push_tdr, after_response_uart_tdr, Htdr1, <- !app_assoc.
      split; [reflexivity|].
      assert (Hl : ln_retry (push_tdr (serialize_byte IOFLAG_IDLE) (after_response s1))
                   = ln_retry s1).
      { rewrite <- (after_response_ln_retry s1).
        destruct (after_response s1); reflexivity. }
      assert (Hr : retry_out (push_tdr (serialize_byte IOFLAG_IDLE) (after_response s1))
                   = retry_out s1).
      { rewrite <- (after_response_retry_out s1).
        destruct (after_response s1); reflexivity. }
      rewrite Hl, Hr, Hln1, Hro1. auto.
Qed.

(** X22. A read of no bytes cannot succeed: for a command other than
    Info, [se_read] with [len = 0] expects a frame of three bytes, and a
    response of fewer than four bytes is never taken -- so whatever the line
    does, the result is -1 and [data] is untouched. *)
Theorem read_of_zero_bytes_fails {seh : se_h}
    (data d : list Z) (rc : Z) (s s' : state) :
  current_opcode s <> OP_Info ->
  se_read data 0 s = Some ((rc, d), s') ->
  rc = -1 /\ d = data.
Proof.
  intros Hop H. rewrite se_read_eq in H by (unfold is_byte; lia).
  apply se_read_loop_outcome in H;
    [|lia|apply uninit_tmp_length; lia|apply uninit_bytes].
  destruct H as (_ & _ & _ & [[-> ->]|(_ & f & m & _ & _ & _ & Hm & _ & Hinfo)]).
  - auto.
  - specialize (Hinfo Hop). lia.
Qed.

(** ** FrameTransport: a stray pulse before the frame *)

Lemma shift_check_all : all_bits 8 0 shift_check = true.
Proof. vm_compute. reflexivity. Qed.

(** Only whether the first pulse counts as a one matters. *)
Lemma deserialize_bits_first (p : Z) (l : list Z) :
  deserialize_bits 8 0 0x1 0 (p :: l)
  = deserialize_bits 8 0 0x1 0 (carry_pulse (pulse_bit p) :: l).
Proof.
  cbn [deserialize_bits].
  change (rd (p :: l) 0) with p.
  change (rd (carry_pulse (pulse_bit p) :: l) 0) with (carry_pulse (pulse_bit p)).
  change (Z.lxor p 127 <? 2) with (pulse_bit p).
  destruct (pulse_bit p); reflexivity.
Qed.

Lemma shifted_head (c : bool) (b : Z) (rest : list Z) :
  is_byte b ->
  deserialize_bits 8 0 0x1 0 (carry_pulse c :: serialize_byte b ++ rest)
  = u8 (Z.lor (Z.shiftl b 1) (if c then 1 else 0)) /\
  offs (carry_pulse c :: serialize_byte b ++ rest) 8
  = carry_pulse (Z.testbit b 7) :: rest.
Proof.
  intros Hb.
  pose proof (forall_u8 _ shift_check_all b Hb) as H. unfold shift_check in H.
  apply andb_true_iff in H. destruct H as [H H7].
  apply andb_true_iff in H. destruct H as [H0 H1].
  apply Z.eqb_eq in H0, H1, H7. split.
  - destruct c; [rewrite <- H1 | rewrite <- H0]; reflexivity.
  - rewrite <- H7. reflexivity.
Qed.

Lemma deserialize_loop_shifted (l : list Z) :
  forall (fuel : nat) (c : bool) (tail : list Z) (max_into : Z) (m : nat),
    bytes l -> (length l <= fuel)%nat ->
    (8 * Nat.min (length l) (Z.to_nat (Z.max 1 max_into)) + 1 <= m)%nat ->
    deserialize_loop fuel (firstn m (carry_pulse c :: serialize l ++ tail))
                     (8 * lenZ l) max_into
    = firstn (Z.to_nat (Z.max 1 max_into)) (shifted c l).
Proof.
  induction l as [|b l IH]; intros fuel c tail max_into m Hl Hfuel Hm.
  - destruct fuel; cbn [deserialize_loop shifted]; rewrite ?firstn_nil; reflexivity.
  - destruct fuel as [|fuel]; [cbn in Hfuel; lia|].
    apply Forall_cons_iff in Hl. destruct Hl as [Hb Hl].
    cbn [deserialize_loop shifted].
    assert (Hlen : lenZ (b :: l) = 1 + lenZ l) by (unfold lenZ; cbn [length]; lia).
    pose proof (len_nonneg l) as Hn.
    cbn [length] in Hm, Hfuel.
    replace (0 <? 8 * lenZ (b :: l)) with true by (symmetry; apply Z.ltb_lt; lia).
    assert (Hm9 : (9 <= m)%nat) by lia.
    assert (Hfrom : firstn m (carry_pulse c :: serialize (b :: l) ++ tail)
                    = carry_pulse c :: serialize_byte b
                      ++ firstn (m - 9) (serialize l ++ tail)).
    { rewrite serialize_cons, <- app_assoc.
      destruct m as [|m]; [lia|]. cbn [firstn]. f_equal.
      rewrite firstn_app. change (length (serialize_byte b)) with 8%nat.
      rewrite (firstn_all2 (serialize_byte b))
        by (change (length (serialize_byte b)) with 8%nat; lia).
      reflexivity. }
    rewrite Hfrom.
    destruct (shifted_head c b (firstn (m - 9) (serialize l ++ tail)) Hb)
      as [Hhead Hoffs].
    rewrite Hhead, Hoffs.
    destruct (Z.leb_spec (max_into - 1) 0) as [Hle|Hgt].
    + replace (Z.to_nat (Z.max 1 max_into)) with 1%nat by lia. reflexivity.
    + replace (Z.to_nat (Z.max 1 max_into))
        with (S (Z.to_nat (Z.max 1 (max_into - 1)))) in * by lia.
      cbn [firstn]. f_equal.
      replace (8 * lenZ (b :: l) - 8) with (8 * lenZ l) by lia.
      replace (carry_pulse (Z.testbit b 7) :: firstn (m - 9) (serialize l ++ tail))
        with (firstn (m - 8) (carry_pulse (Z.testbit b 7) :: serialize l ++ tail)).
      * apply IH; [exact Hl | lia | lia].
      * replace (m - 8)%nat with (S (m - 9)) by lia. reflexivity.
Qed.

Lemma deserialize_loop_first (fuel : nat) (p : Z) (l : list Z) (n max_into : Z) :
  deserialize_loop fuel (p :: l) n max_into
  = deserialize_loop fuel (carry_pulse (pulse_bit p) :: l) n max_into.
Proof.
  destruct fuel as [|fuel]; [reflexivity|]. cbn [deserialize_loop].
  rewrite deserialize_bits_first. reflexivity.
Qed.

(** A run that carries one stray pulse and then the pulses of [frame]. *)
Lemma received_shifted (frame run : list Z) (p max_len : Z) :
  bytes frame ->
  low7 run = p :: serialize frame ->
  1 <= max_len ->
  received_count run = lenZ frame /\
  received max_len run
  = firstn (Z.to_nat max_len) (shifted (pulse_bit p) frame).
Proof.
  intros Hb Hrun Hmax.
  pose proof (len_nonneg frame) as Hn.
  assert (Hlen : lenZ run = 8 * lenZ frame + 1).
  { rewrite <- low7_length, Hrun. unfold lenZ at 1. cbn [length].
    pose proof (serialize_length frame) as Hs. unfold lenZ in *. lia. }
  assert (Hdiv : lenZ run / 8 = lenZ frame).
  { rewrite Hlen. symmetry. apply (Z.div_unique _ 8 _ 1); lia. }
  split.
  - rewrite received_count_div. exact Hdiv.
  - unfold received. rewrite low7_stored, Hrun.
    rewrite land_lnot_7 by apply len_nonneg. rewrite Hdiv.
    replace (Z.to_nat ((max_len + 1) * 8))
      with (S (Z.to_nat ((max_len + 1) * 8) - 1)) by lia.
    cbn [firstn]. rewrite deserialize_loop_first.
    replace (carry_pulse (pulse_bit p)
             :: firstn (Z.to_nat ((max_len + 1) * 8) - 1) (serialize frame))
      with (firstn (Z.to_nat ((max_len + 1) * 8))
                   (carry_pulse (pulse_bit p) :: serialize frame ++ [])).
    + rewrite deserialize_loop_shifted.
      * f_equal. lia.
      * exact Hb.
      * unfold lenZ. lia.
      * lia.
    + rewrite app_nil_r.
      replace (Z.to_nat ((max_len + 1) * 8))
        with (S (Z.to_nat ((max_len + 1) * 8) - 1)) at 1 by lia.
      reflexivity.
Qed.

(** X23. A stray pulse before the frame is not absorbed the way stray
    pulses after it are: [se_read_response] groups the pulses by eight from
    the first one it receives, so with one pulse ahead of a frame it still
    reports the frame's number of bytes, but what it stores is every byte
    moved up by one bit -- its lowest bit taken from the top bit of the byte
    before, and for the first byte from the stray pulse. *)
Theorem leading_stray_pulse_shifts_frame
    (frame buf run : list Z) (p : Z) (rest : list (list Z))
    (max_len : Z) (s : state) :
  bytes frame ->
  uart_rx s = run :: rest ->
  low7 run = p :: serialize frame ->
  1 <= max_len ->
  let stored := firstn (Z.to_nat max_len) (shifted (pulse_bit p) frame) in
  se_read_response buf max_len s
  = Some ((lenZ frame, stored ++ skipn (length stored) buf), after_response s).
Proof.
  intros Hb Hrx Hrun Hmax stored.
  rewrite se_read_response_eq, Hrx. cbn [hd].
  destruct (received_shifted frame run p max_len Hb Hrun Hmax) as [-> ->].
  fold stored. unfold memcpy, lenZ. rewrite Nat2Z.id, firstn_all. reflexivity.
Qed.

(** X24. [se_read_response] never stores more than it was given room for,
    whatever arrives: with [1 <= max_len] and [max_len] bytes of room in
    [buf], it returns the number of whole groups of eight pulses in the run
    -- which can be more than [max_len] -- stores that many bytes or
    [max_len], whichever is less, each in 0..255, leaves every byte of [buf]
    after them as it was, and takes exactly one run off the line. *)
Theorem read_response_bounded (buf : list Z) (max_len : Z) (s : state) :
  1 <= max_len <= lenZ buf ->
  exists n buf',
    se_read_response buf max_len s = Some ((n, buf'), after_response s) /\
    n = lenZ (hd [] (uart_rx s)) / 8 /\
    length buf' = length buf /\
    bytes (firstn (Z.to_nat (Z.min n max_len)) buf') /\
    skipn (Z.to_nat (Z.min n max_len)) buf'
    = skipn (Z.to_nat (Z.min n max_len)) buf /\
    uart_rx (after_response s) = tl (uart_rx s).
Proof.
  intros Hmax. set (run := hd [] (uart_rx s)).
  pose proof (received_length max_len run ltac:(lia)) as Hl.
  pose proof (received_count_nonneg run) as Hc.
  rewrite received_count_div in Hl, Hc. fold run.
  set (f := received max_len run) in *.
  exists (lenZ run / 8), (memcpy buf f (lenZ f)).
  split; [rewrite se_read_response_eq, received_count_div; reflexivity|].
  split; [reflexivity|].
  assert (Hf : Z.to_nat (Z.min (lenZ run / 8) max_len) = length f)
    by (rewrite <- Hl; unfold lenZ; lia).
  split; [|split; [|split]].
  - apply memcpy_all_length. unfold lenZ in *. lia.
  - rewrite Hf. unfold memcpy, lenZ. rewrite Nat2Z.id, firstn_all.
    rewrite firstn_app_exact. apply received_bytes.
  - rewrite Hf. unfold memcpy, lenZ. rewrite Nat2Z.id, firstn_all.
    rewrite skipn_app, Nat.sub_diag, skipn_all. reflexivity.
  - apply after_response_uart_rx.
Qed.

(** * The properties on the scenarios *)

Section Runs.
#[local] Existing Instance se_atecc.
#[local] Existing Instance sha256_std.
#[local] Existing Instance secrets_example.
#[local] Existing Instance serial_example.

Lemma crc16_chain_split_witness :
  CRC.se_crc16_chain (lenZ [0x23; 0x28; 0x01; 0x00; 0x07])
                     [0x23; 0x28; 0x01; 0x00; 0x07] [0; 0]
  = CRC.se_crc16_chain (lenZ [0x23; 0x28; 0x01; 0x00; 0x07] - Z.of_nat 2)
      (offs [0x23; 0x28; 0x01; 0x00; 0x07] (Z.of_nat 2))
      (CRC.se_crc16_chain (Z.of_nat 2) [0x23; 0x28; 0x01; 0x00; 0x07] [0; 0]).
Proof. apply crc16_chain_split; [vm_compute; discriminate | cbn; lia]. Defined.

Lemma bit_codec_roundtrip_witness :
  (exists wire,
     _send_bits 0xA5 (reset_state [] []) = Some (tt, push_tdr wire (reset_state [] [])) /\
     wire = map (fun k => if Z.testbit 0xA5 k then 0x7F else 0x7D)
                [0; 1; 2; 3; 4; 5; 6; 7] /\
     deserialize wire 8 [0] 1 = 0xA5 :: skipn 1 [0])
  /\
  Z.testbit (rd (deserialize [0x7F; 0x7E; 0x7D; 0x3F; 0x00; 0x7C; 0x7F; 0x7B] 8 [0] 1) 0) 1
  = (rd [0x7F; 0x7E; 0x7D; 0x3F; 0x00; 0x7C; 0x7F; 0x7B] 1 =? 0x7E)
    || (rd [0x7F; 0x7E; 0x7D; 0x3F; 0x00; 0x7C; 0x7F; 0x7B] 1 =? 0x7F).
Proof.
  apply bit_codec_roundtrip.
  - unfold is_byte. lia.
  - repeat constructor; unfold is_byte; lia.
  - lia.
Defined.

Lemma read_length_mismatch_witness :
  (exists s',
     se_read (uninit 32) 32 line_watchdog = Some ((-1, uninit 32), s') /\
     uart_rx s' = [response_run chip_random] /\
     ln_retry s' = 1 /\
     retry_out s' = 0 /\
     len_error_two s' = 1 /\
     wdgtimeout s' = 1)
  /\
  (exists tmp' s1,
     se_read (uninit 32) 32 line_wrong_length
     = se_read_loop 99 32 (uninit 32) tmp' s1 /\
     uart_rx s1 = [response_run chip_random] /\
     ln_retry s1 = 2 /\
     retry_out s1 = 0 /\
     len_error_two s1 = 0 /\
     wdgtimeout s1 = 0)
  /\
  (exists s',
     se_read (uninit 32) 32 line_late_error = Some ((-1, uninit 32), s') /\
     uart_rx s' = [response_run chip_random] /\
     ln_retry s' = 2 /\
     retry_out s' = 0 /\
     len_error_two s' = 1 /\
     wdgtimeout s' = 0).
Proof.
  assert (Hsilent : forall s, invalid_frame (current_opcode s) 32 []).
  { intros s. left. vm_compute. reflexivity. }
  split; [|split].
  - apply (proj1 (@read_length_mismatch se_atecc line_watchdog (uninit 32) 32 1
                    ltac:(unfold is_byte; lia)
                    ltac:(vm_compute; discriminate)
                    ltac:(lia)
                    ltac:(intros [|j] Hj; [apply Hsilent | lia])
                    ltac:(vm_compute; discriminate)
                    ltac:(vm_compute; discriminate))).
    vm_compute. reflexivity.
  - apply (proj2 (@read_length_mismatch se_atecc line_wrong_length (uninit 32) 32 1
                    ltac:(unfold is_byte; lia)
                    ltac:(vm_compute; discriminate)
                    ltac:(lia)
                    ltac:(intros [|j] Hj; [apply Hsilent | lia])
                    ltac:(vm_compute; discriminate)
                    ltac:(vm_compute; discriminate))).
    vm_compute. discriminate.
  - apply (proj1 (@read_length_mismatch se_atecc line_late_error (uninit 32) 32 2
                    ltac:(unfold is_byte; lia)
                    ltac:(vm_compute; discriminate)
                    ltac:(lia)
                    ltac:(intros [|[|j]] Hj;
                          [apply Hsilent
                          |right; left; vm_compute; repeat split; discriminate
                          |lia])
                    ltac:(vm_compute; discriminate)
                    ltac:(vm_compute; discriminate))).
    vm_compute. reflexivity.
Defined.

Lemma read_retry_budget_witness :
  (exists s',
     se_read (uninit 1) 1 line_dead = Some ((-1, uninit 1), s') /\
     uart_rx s' = skipn 101 (uart_rx line_dead) /\
     uart_tdr s' = uart_tdr line_dead
                   ++ concat (repeat (serialize_byte IOFLAG_TX) 101) /\
     ln_retry s' = 101 /\
     retry_out s' = 1)
  /\
  (exists s',
     se_read (uninit 1) 1 line_late_answer = Some ((0, [0]), s') /\
     uart_rx s' = skipn 2 (uart_rx line_late_answer) /\
     uart_tdr s' = uart_tdr line_late_answer
                   ++ concat (repeat (serialize_byte IOFLAG_TX) 2)
                   ++ serialize_byte IOFLAG_IDLE /\
     ln_retry s' = 1 /\
     retry_out s' = 0).
Proof.
  split.
  - apply (proj1 (@read_retry_budget se_atecc line_dead (uninit 1) 1 0
                    ltac:(unfold is_byte; lia))).
    intros j _. left. destruct j; vm_compute; reflexivity.
  - apply (proj2 (@read_retry_budget se_atecc line_late_answer (uninit 1) 1 1
                    ltac:(unfold is_byte; lia))).
    + lia.
    + intros j Hj. replace j with O by lia. left. vm_compute. reflexivity.
    + split; [vm_compute; discriminate|].
      split; [vm_compute; reflexivity|].
      right. split; vm_compute; reflexivity.
    + vm_compute. discriminate.
Defined.

Lemma read1_error_frame_is_payload_witness :
  (len_error_two (state_after (se_read (uninit 1) 1) line_code_1) = 0 /\
   wdgtimeout (state_after (se_read (uninit 1) 1) line_code_1) = 0)
  /\
  se_read1 line_code_1
  = Some (1, push_tdr (serialize_byte IOFLAG_IDLE) (after_response line_code_1))
  /\
  se_checkmac KEYNUM_pairing pairing_secret (checkmac_line [response_run [1]])
  = Some (-2, asleep (state_after
                        (checkmac_exchange KEYNUM_pairing pairing_secret
                           (checkmac_line [response_run [1]]))
                        (checkmac_after_nonce (checkmac_line [response_run [1]])))).
Proof.
  pose proof (@read1_error_frame_is_payload se_atecc sha256_std secrets_example
                line_code_1 1 (rd (response_frame [1]) 2)
                (rd (response_frame [1]) 3)) as (Hi & Hii & Hiii).
  split; [|split].
  - assert (Hrun : se_read (uninit 1) 1 line_code_1
                   = Some ((0, [1]), state_after (se_read (uninit 1) 1) line_code_1))
      by (vm_compute; reflexivity).
    destruct (Hi _ _ _ _ Hrun) as (H1 & H2 & _).
    split; [exact H1 | exact H2].
  - assert (H1 : current_opcode line_code_1 <> OP_Info)
      by (vm_compute; discriminate).
    assert (H2 : received_count (hd [] (uart_rx line_code_1)) = 4)
      by (vm_compute; reflexivity).
    assert (H3 : received 4 (hd [] (uart_rx line_code_1))
                 = [4; 1; rd (response_frame [1]) 2; rd (response_frame [1]) 3])
      by (vm_compute; reflexivity).
    assert (H4 : check_crc [4; 1; rd (response_frame [1]) 2;
                            rd (response_frame [1]) 3] 4 = true)
      by (vm_compute; reflexivity).
    exact (proj2 (Hii H1 H2 H3 H4)).
  - assert (Hcode : 1 <> 0) by discriminate.
    destruct (Hiii Hcode) as (_ & Hcm & _).
    apply (Hcm KEYNUM_pairing pairing_secret
               (checkmac_tempkey (checkmac_line [response_run [1]]))
               (checkmac_line [response_run [1]])
               (checkmac_after_nonce (checkmac_line [response_run [1]]))).
    + vm_compute. reflexivity.
    + vm_compute. reflexivity.
Defined.

Lemma bytes_of_seq (a n : nat) :
  (a + n <= 256)%nat -> bytes (map Z.of_nat (seq a n)).
Proof.
  intros H. unfold bytes. apply Forall_forall. intros x Hx.
  apply in_map_iff in Hx. destruct Hx as (k & <- & Hk).
  apply in_seq in Hk. unfold is_byte. lia.
Qed.

(** Three runs of [se_checkmac]: the chip silent from the start; the chip
    silent once it has answered the Nonce command; the chip answering the
    CheckMac command with 0. *)
Lemma checkmac_result_codes_witness :
  se_checkmac KEYNUM_pairing pairing_secret (reset_state [] [])
  = Some (-1, checkmac_after_nonce (reset_state [] []))
  /\
  se_checkmac KEYNUM_pairing pairing_secret (checkmac_line [])
  = Some (-2, asleep (state_after
                        (checkmac_exchange KEYNUM_pairing pairing_secret
                                           (checkmac_line []))
                        (checkmac_after_nonce (checkmac_line []))))
  /\
  se_checkmac KEYNUM_pairing pairing_secret (checkmac_line [response_run [0]])
  = Some (0, asleep (state_after
                       (checkmac_exchange KEYNUM_pairing pairing_secret
                                          (checkmac_line [response_run [0]]))
                       (checkmac_after_nonce (checkmac_line [response_run [0]])))).
Proof.
  split; [|split].
  - assert (Hn : se_pick_nonce
                   (rng_next 20 (rng_after 32 (reset_state [] []))) (uninit 32)
                   (rng_after 20 (rng_after 32 (reset_state [] [])))
                 = Some ((-1, uninit 32), checkmac_after_nonce (reset_state [] [])))
      by (vm_compute; reflexivity).
    apply (proj1 (@checkmac_result_codes se_atecc sha256_std KEYNUM_pairing
                    pairing_secret _ _ _ _ Hn)).
    lia.
  - assert (Hn : se_pick_nonce
                   (rng_next 20 (rng_after 32 (checkmac_line []))) (uninit 32)
                   (rng_after 20 (rng_after 32 (checkmac_line [])))
                 = Some ((0, checkmac_tempkey (checkmac_line [])),
                         checkmac_after_nonce (checkmac_line [])))
      by (vm_compute; reflexivity).
    apply (proj2 (@checkmac_result_codes se_atecc sha256_std KEYNUM_pairing
                    pairing_secret _ _ _ _ Hn) ltac:(lia) (-1)).
    vm_compute. reflexivity.
  - assert (Hn : se_pick_nonce
                   (rng_next 20 (rng_after 32 (checkmac_line [response_run [0]])))
                   (uninit 32)
                   (rng_after 20 (rng_after 32 (checkmac_line [response_run [0]])))
                 = Some ((0, checkmac_tempkey (checkmac_line [response_run [0]])),
                         checkmac_after_nonce (checkmac_line [response_run [0]])))
      by (vm_compute; reflexivity).
    apply (proj2 (@checkmac_result_codes se_atecc sha256_std KEYNUM_pairing
                    pairing_secret _ _ _ _ Hn) ltac:(lia) 0).
    vm_compute. reflexivity.
Defined.

(** C1 as stated fails.  The chip answers the Nonce command and then falls
    silent: the nonce exchange succeeds, the read of the CheckMac response
    fails ([se_read1] gives -1 after its retries), the chip has reported
    nothing -- and [se_checkmac] returns -2, not -1. *)
Lemma checkmac_read_failure_counterexample :
  checkmac_nonce (checkmac_line [])
  = Some ((0, checkmac_tempkey (checkmac_line [])),
          checkmac_after_nonce (checkmac_line []))
  /\
  uart_rx (checkmac_after_nonce (checkmac_line [])) = []
  /\
  option_map fst (checkmac_exchange KEYNUM_pairing pairing_secret (checkmac_line [])
                                    (checkmac_after_nonce (checkmac_line [])))
  = Some (-1)
  /\
  option_map fst (se_checkmac KEYNUM_pairing pairing_secret (checkmac_line []))
  = Some (-2)
  /\
  ~ (exists s', se_checkmac KEYNUM_pairing pairing_secret (checkmac_line [])
                = Some (-1, s')).
Proof.
  assert (H : option_map fst (se_checkmac KEYNUM_pairing pairing_secret
                                          (checkmac_line [])) = Some (-2))
    by (vm_compute; reflexivity).
  split; [vm_compute; reflexivity|].
  split; [vm_compute; reflexivity|].
  split; [vm_compute; reflexivity|].
  split; [exact H|].
  intros [s' Hs']. rewrite Hs' in H. discriminate H.
Qed.

Lemma pick_nonce_tempkey_witness :
  se_pick_nonce host_entropy (uninit 32) nonce_line_prompt
  = Some ((0, SHA256 (chip_random ++ host_entropy ++ [0x16; 0; 0])),
          asleep (state_after nonce_exchange nonce_line_prompt))
  /\
  se_pick_nonce host_entropy slot_secret nonce_line_slow
  = Some ((0, SHA256 (chip_random ++ host_entropy ++ [0x16; 0; 0])),
          asleep (state_after nonce_exchange nonce_line_slow)).
Proof.
  apply (@pick_nonce_tempkey se_atecc sha256_std host_entropy chip_random
           (uninit 32) slot_secret nonce_line_prompt
           (state_after nonce_exchange nonce_line_prompt) nonce_line_slow
           (state_after nonce_exchange nonce_line_slow)).
  - reflexivity.
  - reflexivity.
  - reflexivity.
  - reflexivity.
  - vm_compute. reflexivity.
  - vm_compute. reflexivity.
Defined.

Lemma gendig_slot_digest_witness :
  se_gendig_slot 3 slot_secret (uninit 32) gendig_line
  = Some ((0, SHA256 (slot_secret ++ [OP_GenDig; 2; u8 3; 0; 0xEE; 0x01; 0x23]
                      ++ zeros 25 ++ gendig_tempkey)),
          asleep (state_after gendig_exchange gendig_after_nonce))
  /\ (0 <= 3 < 256 -> u8 3 = 3).
Proof.
  apply (@gendig_slot_digest se_atecc sha256_std 3 slot_secret (uninit 32)
           gendig_tempkey gendig_line gendig_after_nonce
           (state_after gendig_exchange gendig_after_nonce)).
  - reflexivity.
  - reflexivity.
  - vm_compute. reflexivity.
  - vm_compute. reflexivity.
Defined.

Lemma encrypted_write32_body_witness :
  exists tail,
    uart_tdr (state_after (se_encrypted_write32 5 1 2 slot_secret plaintext)
                          write_line)
    = uart_tdr write_after_gendig
      ++ [0]
      ++ serialize
           ([IOFLAG_CMD]
            ++ ([71; OP_Write; 0x82; u8 (Z.shiftl 5 3); u8 1]
                ++ xor_bytes plaintext write_digest
                ++ SHA256 (write_digest
                           ++ [OP_Write; 0x82; u8 (Z.shiftl 5 3); u8 1;
                               0xEE; 0x01; 0x23]
                           ++ zeros 25 ++ plaintext))
            ++ CRC.se_crc16_chain 69
                 ([71; OP_Write; 0x82; u8 (Z.shiftl 5 3); u8 1]
                  ++ xor_bytes plaintext write_digest
                  ++ SHA256 (write_digest
                             ++ [OP_Write; 0x82; u8 (Z.shiftl 5 3); u8 1;
                                 0xEE; 0x01; 0x23]
                             ++ zeros 25 ++ plaintext))
                 [0; 0])
      ++ tail.
Proof.
  apply (@encrypted_write32_body se_atecc sha256_std secrets_example
           5 1 2 slot_secret plaintext write_digest write_line
           write_after_pairing write_after_gendig
           (state_after (se_encrypted_write32 5 1 2 slot_secret plaintext)
                        write_line) 0).
  - apply bytes_of_seq. lia.
  - reflexivity.
  - vm_compute. reflexivity.
  - vm_compute. reflexivity.
  - vm_compute. reflexivity.
Defined.

Lemma encrypted_write_blocks_witness :
  (blocks_of long_data 100
   = [firstn 32 long_data; firstn 32 (skipn 32 long_data);
      firstn 32 (skipn 64 long_data)]
   /\ se_encrypted_write 5 2 slot_secret long_data 100 long_line
      = se_encrypted_write 5 2 slot_secret (firstn 96 long_data) 96 long_line
   /\ se_encrypted_write 5 2 slot_secret long_data 100 long_line
      = Some (0, long_line_3)
   /\ uart_rx long_line_3 = [])
  /\
  (length (blocks_of short_data 40) = 2%nat
   /\ nth 0 (blocks_of short_data 40) [] = firstn 32 short_data
   /\ nth 1 (blocks_of short_data 40) []
      = [33; 34; 35; 36; 37; 38; 39; 40] ++ repeat 0 24
   /\ se_encrypted_write 5 2 slot_secret short_data 40 short_line
      = Some (0, short_line_2)
   /\ uart_rx short_line_2 = []).
Proof.
  split.
  - destruct (@encrypted_write_blocks se_atecc sha256_std secrets_example
                5 2 slot_secret long_data 100 long_line
                ltac:(vm_compute; discriminate))
      as (_ & _ & _ & _ & _ & H96).
    destruct (H96 ltac:(lia)) as (Hb & He & Hrun).
    split; [exact Hb|]. split; [exact He|]. split; [|reflexivity].
    apply (Hrun long_line_1 long_line_2 long_line_3).
    + vm_compute. reflexivity.
    + vm_compute. reflexivity.
    + vm_compute. reflexivity.
  - destruct (@encrypted_write_blocks se_atecc sha256_std secrets_example
                5 2 slot_secret short_data 40 short_line
                ltac:(vm_compute; discriminate))
      as (Hw & _ & _ & _ & Hnth & _).
    assert (H2 : length (blocks_of short_data 40) = 2%nat).
    { pose proof (proj2 (proj1 (Hnth 1%nat)) ltac:(split; lia)) as Hlt.
      pose proof (proj1 (proj1 (Hnth 2%nat))) as Hge.
      destruct (length (blocks_of short_data 40)) as [|[|[|n]]]; lia. }
    split; [exact H2|].
    split; [exact (proj2 (Hnth 0%nat) ltac:(rewrite H2; lia))|].
    split; [exact (proj2 (Hnth 1%nat) ltac:(rewrite H2; lia))|].
    split; [|reflexivity].
    assert (H0 : se_encrypted_write32 5 0 2 slot_secret (firstn 32 short_data)
                   short_line = Some (0, short_line_1))
      by (vm_compute; reflexivity).
    assert (H1 : se_encrypted_write32 5 1 2 slot_secret
                   ([33; 34; 35; 36; 37; 38; 39; 40] ++ repeat 0 24)
                   short_line_1 = Some (0, short_line_2))
      by (vm_compute; reflexivity).
    rewrite Hw.
    change (blocks_of short_data 40)
      with [firstn 32 short_data;
            [33; 34; 35; 36; 37; 38; 39; 40] ++ repeat 0 24].
    cbn [write_blocks].
    rewrite (bind_some _ _ _ _ _ H0). change (0 <? 0) with false. cbv iota.
    rewrite (bind_some _ _ _ _ _ H1). reflexivity.
Defined.

Lemma serialized_buffer_roundtrip_witness :
  exists wire,
    _send_serialized [0xA5; 0x3C] (lenZ [0xA5; 0x3C]) (reset_state [] [])
    = Some (tt, push_tdr wire (reset_state [] [])) /\
    lenZ wire = 8 * lenZ [0xA5; 0x3C] /\
    let stored := firstn (Z.to_nat (Z.max 1 1)) [0xA5; 0x3C] in
    deserialize wire (8 * lenZ [0xA5; 0x3C]) [7; 7; 7] 1
    = stored ++ skipn (length stored) [7; 7; 7].
Proof.
  apply (serialized_buffer_roundtrip [0xA5; 0x3C] [7; 7; 7] 1 (reset_state [] [])).
  repeat constructor; unfold is_byte; lia.
Defined.

Lemma read_response_decodes_frame_witness :
  let stored := firstn (Z.to_nat 3) [7; 1; 2; 3; 4] in
  se_read_response [0; 0; 0; 0] 3 (reset_state [noisy (serialize [7; 1; 2; 3; 4])] [])
  = Some ((lenZ [7; 1; 2; 3; 4], stored ++ skipn (length stored) [0; 0; 0; 0]),
          after_response (reset_state [noisy (serialize [7; 1; 2; 3; 4])] [])).
Proof.
  apply (read_response_decodes_frame [7; 1; 2; 3; 4] [0x7F] [0; 0; 0; 0]
           (noisy (serialize [7; 1; 2; 3; 4])) [] 3
           (reset_state [noisy (serialize [7; 1; 2; 3; 4])] [])).
  - repeat constructor; unfold is_byte; lia.
  - reflexivity.
  - vm_compute. reflexivity.
  - cbn. lia.
  - lia.
Defined.

Lemma check_crc_accepts_iff_witness :
  check_crc ([5; 0x11; 0x22] ++ [18; 57]) (lenZ [5; 0x11; 0x22] + 2) = true
  <-> CRC.se_crc16_chain (lenZ [5; 0x11; 0x22]) [5; 0x11; 0x22] [0; 0]
      = [18; 57].
Proof.
  apply (check_crc_accepts_iff [5; 0x11; 0x22] 18 57).
  - vm_compute. discriminate.
  - vm_compute. discriminate.
  - reflexivity.
Defined.

Lemma read_delivers_payload_witness :
  exists s',
    se_read (uninit 40) (lenZ chip_random) line_noisy_nonce
    = Some ((0, chip_random ++ skipn (length chip_random) (uninit 40)), s') /\
    uart_rx s' = [] /\
    uart_tdr s'
    = uart_tdr line_noisy_nonce
      ++ serialize_byte IOFLAG_TX ++ serialize_byte IOFLAG_IDLE /\
    ln_retry s' = ln_retry line_noisy_nonce.
Proof.
  apply (@read_delivers_payload se_atecc chip_random (uninit 40) [0x7F]
           (noisy (response_run chip_random)) [] line_noisy_nonce).
  - apply bytes_of_seq. lia.
  - vm_compute. split; discriminate.
  - vm_compute. discriminate.
  - reflexivity.
  - vm_compute. reflexivity.
  - cbn. lia.
Defined.

Lemma read_outcome_witness :
  (0 = 0 \/ 0 = -1) /\
  length [0x5A] = length (uninit 1) /\
  (0 = -1 -> [0x5A] = uninit 1) /\
  skipn (Z.to_nat (1 + 2)) [0x5A] = skipn (Z.to_nat (1 + 2)) (uninit 1) /\
  (current_opcode line_one_byte <> OP_Info ->
   skipn (Z.to_nat 1) [0x5A] = skipn (Z.to_nat 1) (uninit 1)) /\
  current_opcode (state_after (se_read (uninit 1) 1) line_one_byte)
  = current_opcode line_one_byte /\
  rng_tape (state_after (se_read (uninit 1) 1) line_one_byte)
  = rng_tape line_one_byte /\
  exists k, (k <= 101)%nat /\
            uart_rx (state_after (se_read (uninit 1) 1) line_one_byte)
            = skipn k (uart_rx line_one_byte).
Proof.
  apply (@read_outcome se_atecc (uninit 1) [0x5A] 1 0 line_one_byte
           (state_after (se_read (uninit 1) 1) line_one_byte)).
  - unfold is_byte. lia.
  - vm_compute. reflexivity.
Defined.

Lemma read_stays_in_bounds_witness :
  exists rc d s',
    se_read (uninit 1) 1 line_late_answer = Some ((rc, d), s') /\
    length d = length (uninit 1).
Proof.
  apply (@read_stays_in_bounds se_atecc (uninit 1) 1 line_late_answer).
  - unfold is_byte. lia.
  - vm_compute. discriminate.
  - vm_compute. discriminate.
  - repeat constructor; vm_compute; reflexivity.
Defined.

Lemma read_overlong_response_overruns_witness :
  se_read (uninit 1) (lenZ [0]) line_overlong = None.
Proof.
  apply (@read_overlong_response_overruns se_atecc [0] (map Z.of_nat (seq 0 256))
           (uninit 1) []
           (serialize (response_frame [0] ++ map Z.of_nat (seq 0 256))) []
           line_overlong).
  - repeat constructor; unfold is_byte; lia.
  - vm_compute. split; discriminate.
  - apply bytes_of_seq. lia.
  - vm_compute. reflexivity.
  - reflexivity.
  - rewrite app_nil_r. apply low7_serialize.
  - cbn. lia.
Defined.

Lemma read_info_unchecked_witness :
  exists s',
    se_read (uninit 4) 4 line_info
    = Some ((0, firstn (length [9; 9; 9; 9; 9; 9; 9] - 3) (tl [9; 9; 9; 9; 9; 9; 9])
                ++ skipn (length [9; 9; 9; 9; 9; 9; 9] - 3) (uninit 4)), s') /\
    uart_rx s' = [] /\
    ln_retry s' = ln_retry line_info /\
    crc_errors s' = crc_errors line_info /\
    len_error s' = len_error line_info.
Proof.
  apply (@read_info_unchecked se_atecc [9; 9; 9; 9; 9; 9; 9] (uninit 4) []
           (serialize [9; 9; 9; 9; 9; 9; 9]) [] 4 line_info).
  - reflexivity.
  - unfold is_byte. lia.
  - repeat constructor; unfold is_byte; lia.
  - vm_compute. split; discriminate.
  - vm_compute. discriminate.
  - reflexivity.
  - rewrite app_nil_r. apply low7_serialize.
  - cbn. lia.
Defined.

Lemma read1_returns_byte_or_failure_witness :
  0x5A = -1 \/ 0 <= 0x5A <= 255.
Proof.
  apply (@read1_returns_byte_or_failure se_atecc line_one_byte
           (state_after se_read1 line_one_byte) 0x5A).
  vm_compute. reflexivity.
Defined.

Lemma write_frame_checks_witness :
  let frame := tl (command_frame OP_Nonce 0 0 host_entropy 20) in
  exists s',
    se_write OP_Nonce 0 0 host_entropy 20 (reset_state [] []) = Some (tt, s') /\
    uart_tdr s' = uart_tdr (reset_state [] []) ++ 0 :: serialize (IOFLAG_CMD :: frame) /\
    Forall (fun p => p = BIT0 \/ p = BIT1) (serialize (IOFLAG_CMD :: frame)) /\
    lenZ frame = u8 20 + 7 /\
    rd frame 0 = lenZ frame /\
    check_crc frame (lenZ frame) = true /\
    current_opcode s' = OP_Nonce /\
    uart_rx s' = uart_rx (reset_state [] []).
Proof.
  apply (@write_frame_checks se_atecc OP_Nonce 0 0 host_entropy 20 (reset_state [] [])).
  - vm_compute. discriminate.
  - vm_compute. discriminate.
Defined.

Lemma config_blocks_well_formed (n : nat) :
  Forall (fun p => bytes p /\ length p = 32%nat) (firstn n config_blocks).
Proof.
  unfold config_blocks.
  destruct n as [|[|[|[|n]]]]; cbn [firstn];
    repeat (constructor; [split; [apply bytes_of_seq; lia | reflexivity]|]);
    rewrite ?firstn_nil; constructor.
Qed.

Lemma refusals_well_formed (n : nat) :
  Forall well_formed_try (repeat refusal n) /\
  Forall (fun t => snd t <> 0) (repeat refusal n).
Proof.
  split; apply Forall_forall; intros t Ht; apply repeat_spec in Ht; subst t.
  - split; [apply bytes_of_seq; lia|]. split; [reflexivity|].
    unfold is_byte. cbn. lia.
  - cbn. lia.
Qed.

Lemma tempkey_check_compares_mac_witness :
  exists ok s',
    se_is_correct_tempkey slot_secret (reset_state [response_run chip_random] [])
    = Some (ok, s') /\
    (ok = true <-> chip_random = SHA256 (mac_message slot_secret)) /\
    uart_rx s' = [] /\
    ends_asleep s'.
Proof.
  apply (@tempkey_check_compares_mac se_atecc sha256_std secrets_example
           serial_example slot_secret chip_random []
           (reset_state [response_run chip_random] [])).
  - apply bytes_of_seq. lia.
  - reflexivity.
  - reflexivity.
Defined.

Lemma checkmac_hard_end_to_end_witness :
  let s := hard_line 0 [response_run slot_secret] in
  let tempkey := nonce_tempkey chip_random (rng_next 20 s) in
  let digest := slot_digest (u8 3) plaintext tempkey in
  let expected := SHA256 (mac_message digest) in
  exists r s',
    se_checkmac_hard 3 plaintext s = Some (r, s') /\
    (slot_secret = expected -> r = 0) /\
    (slot_secret <> expected -> r = -2) /\
    uart_rx s' = [] /\
    ends_asleep s'.
Proof.
  apply (@checkmac_hard_end_to_end se_atecc sha256_std secrets_example
           serial_example 3 plaintext chip_random slot_secret []
           (hard_line 0 [response_run slot_secret])).
  - apply bytes_of_seq. lia.
  - reflexivity.
  - apply bytes_of_seq. lia.
  - reflexivity.
  - reflexivity.
Defined.

Lemma checkmac_hard_failures_witness :
  (se_checkmac_hard 3 plaintext (hard_line 1 [])
   = Some (-1, gendig_done (u8 3) (hard_line 1 [])) /\
   uart_rx (gendig_done (u8 3) (hard_line 1 [])) = []) /\
  (exists s',
     se_checkmac_hard 3 plaintext (hard_line 0 [response_run [0x0F]])
     = Some (-2, s') /\
     uart_rx s' = [] /\
     ends_asleep s').
Proof.
  split.
  - apply (proj1 (@checkmac_hard_failures se_atecc sha256_std secrets_example
                    serial_example 3 1 0x0F plaintext chip_random []
                    (hard_line 1 [])
                    (bytes_of_seq 100 32 ltac:(lia)) eq_refl
                    ltac:(unfold is_byte; lia) ltac:(unfold is_byte; lia)
                    ltac:(vm_compute; discriminate))).
    + lia.
    + reflexivity.
  - apply (proj2 (@checkmac_hard_failures se_atecc sha256_std secrets_example
                    serial_example 3 0 0x0F plaintext chip_random []
                    (hard_line 0 [response_run [0x0F]])
                    (bytes_of_seq 100 32 ltac:(lia)) eq_refl
                    ltac:(unfold is_byte; lia) ltac:(unfold is_byte; lia)
                    ltac:(vm_compute; discriminate))).
    reflexivity.
Defined.

Lemma config_read_blocks_witness :
  exists s',
    se_config_read (uninit 130) config_line
    = Some ((0, concat config_blocks ++ skipn 128 (uninit 130)), s') /\
    uart_rx s' = [] /\
    uart_tdr s'
    = uart_tdr config_line ++ config_read_wire 4 0 ++ serialize_byte IOFLAG_SLEEP.
Proof.
  apply (@config_read_blocks se_atecc config_blocks (uninit 130) [] config_line).
  - reflexivity.
  - apply (config_blocks_well_formed 4).
  - vm_compute. discriminate.
  - unfold config_line. cbn [uart_rx reset_state]. rewrite app_nil_r. reflexivity.
Defined.

Lemma config_read_stops_at_error_witness :
  exists s',
    se_config_read (uninit 128) config_line_error
    = Some ((-1, concat (firstn 2 config_blocks)
                 ++ skipn (32 * length (firstn 2 config_blocks)) (uninit 128)), s') /\
    uart_rx s' = [] /\
    uart_tdr s'
    = uart_tdr config_line_error
      ++ config_read_wire (length (firstn 2 config_blocks)) 0
      ++ (0 :: serialize (command_frame OP_Read 0x80
                            (Z.shiftl (Z.of_nat (length (firstn 2 config_blocks))) 3)
                            [] 0))
      ++ serialize_byte IOFLAG_TX ++ serialize_byte IOFLAG_SLEEP.
Proof.
  apply (@config_read_stops_at_error se_atecc (firstn 2 config_blocks) 0x0F
           (uninit 128) [] config_line_error).
  - cbn. lia.
  - vm_compute. discriminate.
  - unfold is_byte. lia.
  - apply (config_blocks_well_formed 2).
  - vm_compute. discriminate.
  - reflexivity.
Defined.

Lemma pair_unlock_retries_witness :
  (exists s',
     se_pair_unlock (reset_state (attempts_line ([refusal] ++ [(chip_random, 0)]) ++ [])
                                 host_entropy)
     = Some (0, s') /\
     uart_rx s' = [] /\
     rng_tape s' = skipn (52 * (length [refusal] + 1)) host_entropy /\
     ends_asleep s') /\
  (exists s',
     se_pair_unlock (reset_state (attempts_line (repeat refusal 3) ++ []) host_entropy)
     = Some (-1, s') /\
     uart_rx s' = [] /\
     rng_tape s' = skipn (52 * 3) host_entropy /\
     ends_asleep s').
Proof.
  split.
  - apply (proj1 (@pair_unlock_retries se_atecc sha256_std secrets_example
                    (repeat refusal 1) chip_random []
                    (reset_state (attempts_line ([refusal] ++ [(chip_random, 0)]) ++ [])
                                 host_entropy)
                    (proj1 (refusals_well_formed 1)) (proj2 (refusals_well_formed 1))
                    (bytes_of_seq 100 32 ltac:(lia)) eq_refl)).
    + cbn. lia.
    + reflexivity.
  - apply (proj2 (@pair_unlock_retries se_atecc sha256_std secrets_example
                    (repeat refusal 3) chip_random []
                    (reset_state (attempts_line (repeat refusal 3) ++ []) host_entropy)
                    (proj1 (refusals_well_formed 3)) (proj2 (refusals_well_formed 3))
                    (bytes_of_seq 100 32 ltac:(lia)) eq_refl)).
    + reflexivity.
    + reflexivity.
Defined.

Lemma protocol_leaves_chip_asleep_witness :
  ends_asleep (state_after (se_config_read (uninit 128)) config_line_error).
Proof.
  apply (proj1 (proj2 (proj2 (proj2 (proj2 (proj2 (proj2 (proj2
           (@protocol_leaves_chip_asleep se_atecc sha256_std secrets_example
              serial_example))))))))
           (uninit 128) config_line_error
           (value_of (se_config_read (uninit 128)) config_line_error (0, []))).
  vm_compute. reflexivity.
Defined.

Lemma encrypted_write32_exchanges_witness :
  (exists s',
     se_encrypted_write32 5 0 3 slot_secret plaintext
       (reset_state [response_run chip_random; response_run [0];
                     response_run chip_random; response_run [0];
                     response_run [0]] host_entropy)
     = Some (if 0 =? 0 then 0 else -1, s') /\
     uart_rx s' = [] /\
     rng_tape s' = skipn 72 host_entropy /\
     ends_asleep s') /\
  (exists s1 s2,
     se_pair_unlock (reset_state [response_run chip_random; response_run [0];
                                  response_run chip_random; response_run [1]]
                                 host_entropy)
     = Some (0, s1) /\
     se_gendig_slot 3 slot_secret (uninit 32) s1 = Some ((-1, uninit 32), s2) /\
     se_encrypted_write32 5 0 3 slot_secret plaintext
       (reset_state [response_run chip_random; response_run [0];
                     response_run chip_random; response_run [1]] host_entropy)
     = Some (-1, s2) /\
     uart_rx s2 = []) /\
  (exists s1,
     se_pair_unlock (reset_state (attempts_line (repeat refusal 3) ++ []) host_entropy)
     = Some (-1, s1) /\
     se_encrypted_write32 5 0 3 slot_secret plaintext
       (reset_state (attempts_line (repeat refusal 3) ++ []) host_entropy)
     = Some (-1, s1) /\
     uart_rx s1 = []).
Proof.
  split; [|split].
  - apply (proj1 (@encrypted_write32_exchanges se_atecc sha256_std secrets_example
                    5 0 3 0 slot_secret plaintext chip_random chip_random [] []
                    (reset_state [response_run chip_random; response_run [0];
                                  response_run chip_random; response_run [0];
                                  response_run [0]] host_entropy)
                    (bytes_of_seq 50 32 ltac:(lia)) eq_refl
                    (bytes_of_seq 100 32 ltac:(lia)) eq_refl
                    (bytes_of_seq 100 32 ltac:(lia)) eq_refl
                    ltac:(unfold is_byte; lia))).
    reflexivity.
  - apply (proj1 (proj2 (@encrypted_write32_exchanges se_atecc sha256_std
                    secrets_example
                    5 0 3 1 slot_secret plaintext chip_random chip_random [] []
                    (reset_state [response_run chip_random; response_run [0];
                                  response_run chip_random; response_run [1]]
                                 host_entropy)
                    (bytes_of_seq 50 32 ltac:(lia)) eq_refl
                    (bytes_of_seq 100 32 ltac:(lia)) eq_refl
                    (bytes_of_seq 100 32 ltac:(lia)) eq_refl
                    ltac:(unfold is_byte; lia)))).
    + lia.
    + reflexivity.
  - apply (proj2 (proj2 (@encrypted_write32_exchanges se_atecc sha256_std
                    secrets_example
                    5 0 3 0 slot_secret plaintext chip_random chip_random
                    (repeat refusal 3) []
                    (reset_state (attempts_line (repeat refusal 3) ++ []) host_entropy)
                    (bytes_of_seq 50 32 ltac:(lia)) eq_refl
                    (bytes_of_seq 100 32 ltac:(lia)) eq_refl
                    (bytes_of_seq 100 32 ltac:(lia)) eq_refl
                    ltac:(unfold is_byte; lia)))).
    + apply (proj1 (refusals_well_formed 3)).
    + apply (proj2 (refusals_well_formed 3)).
    + reflexivity.
    + reflexivity.
Defined.

Lemma crc16_detects_byte_change_witness :
  CRC.se_crc16_chain (lenZ ([5; 0x11] ++ 0x22 :: [])) ([5; 0x11] ++ 0x22 :: []) [0; 0]
  <> CRC.se_crc16_chain (lenZ ([5; 0x11] ++ 0x23 :: [])) ([5; 0x11] ++ 0x23 :: []) [0; 0].
Proof.
  apply (crc16_detects_byte_change [5; 0x11] [] 0x22 0x23 [0; 0]).
  - constructor.
  - unfold is_byte. lia.
  - unfold is_byte. lia.
  - discriminate.
  - vm_compute. discriminate.
Defined.

Lemma check_crc_rejects_byte_change_witness :
  check_crc ([5; 0x11] ++ 0x23 :: [18; 57]) (lenZ ([5; 0x11] ++ 0x23 :: [18; 57]))
  = false.
Proof.
  apply (check_crc_rejects_byte_change [5; 0x11] [18; 57] 0x22 0x23).
  - repeat constructor; unfold is_byte; lia.
  - unfold is_byte. lia.
  - unfold is_byte. lia.
  - discriminate.
  - vm_compute. discriminate.
  - vm_compute. reflexivity.
Defined.

Lemma read_recovers_from_byte_damage_witness :
  exists s',
    se_read (uninit 2) (lenZ [0x11; 0x22]) line_damaged
    = Some ((0, [0x11; 0x22] ++ skipn (length [0x11; 0x22]) (uninit 2)), s') /\
    uart_rx s' = [] /\
    ln_retry s' = u32 (ln_retry line_damaged + 1) /\
    retry_out s' = retry_out line_damaged /\
    uart_tdr s'
    = uart_tdr line_damaged ++ serialize_byte IOFLAG_TX ++ serialize_byte IOFLAG_TX
      ++ serialize_byte IOFLAG_IDLE.
Proof.
  apply (@read_recovers_from_byte_damage se_atecc [0x11; 0x22] [5; 0x11]
           (skipn 3 (response_frame [0x11; 0x22])) (uninit 2) 0x22 0x23 []
           line_damaged).
  - repeat constructor; unfold is_byte; lia.
  - vm_compute. split; discriminate.
  - vm_compute. discriminate.
  - vm_compute. reflexivity.
  - unfold is_byte. lia.
  - discriminate.
  - discriminate.
  - vm_compute. discriminate.
  - reflexivity.
Defined.

Lemma read_of_zero_bytes_fails_witness :
  -1 = -1 /\ @nil Z = [].
Proof.
  apply (@read_of_zero_bytes_fails se_atecc [] [] (-1) line_one_byte
           (state_after (se_read [] 0) line_one_byte)).
  - vm_compute. discriminate.
  - vm_compute. reflexivity.
Defined.

Lemma leading_stray_pulse_shifts_frame_witness :
  let stored := firstn (Z.to_nat 4) (shifted (pulse_bit 0x7D) [4; 0; 3; 64]) in
  se_read_response (uninit 4) 4 (reset_state [0x7D :: serialize [4; 0; 3; 64]] [])
  = Some ((lenZ [4; 0; 3; 64], stored ++ skipn (length stored) (uninit 4)),
          after_response (reset_state [0x7D :: serialize [4; 0; 3; 64]] [])).
Proof.
  apply (leading_stray_pulse_shifts_frame [4; 0; 3; 64] (uninit 4)
           (0x7D :: serialize [4; 0; 3; 64]) 0x7D [] 4
           (reset_state [0x7D :: serialize [4; 0; 3; 64]] [])).
  - repeat constructor; unfold is_byte; lia.
  - reflexivity.
  - vm_compute. reflexivity.
  - lia.
Defined.

Lemma read_response_bounded_witness :
  exists n buf',
    se_read_response (uninit 4) 4 (reset_state [serialize [1; 2; 3; 4; 5; 6]] [])
    = Some ((n, buf'), after_response (reset_state [serialize [1; 2; 3; 4; 5; 6]] [])) /\
    n = lenZ (hd [] (uart_rx (reset_state [serialize [1; 2; 3; 4; 5; 6]] []))) / 8 /\
    length buf' = length (uninit 4) /\
    bytes (firstn (Z.to_nat (Z.min n 4)) buf') /\
    skipn (Z.to_nat (Z.min n 4)) buf' = skipn (Z.to_nat (Z.min n 4)) (uninit 4) /\
    uart_rx (after_response (reset_state [serialize [1; 2; 3; 4; 5; 6]] []))
    = tl (uart_rx (reset_state [serialize [1; 2; 3; 4; 5; 6]] [])).
Proof.
  apply (read_response_bounded (uninit 4) 4
           (reset_state [serialize [1; 2; 3; 4; 5; 6]] [])).
  vm_compute. split; discriminate.
Defined.

End Runs.
